(** * Verification of the robosuite environment-wrapper pipeline

    Shallow embedding of [robosuite_env.py]: the [dm_env] step records, the
    extended step record, and the wrappers [DMEWrapper], [FrameStackWrapper],
    [ExtendedTimeStepWrapper], [ActionRepeatWrapper] and [ObsDTypeWrapper].

    Conventions of the embedding.
    - Python floats (rewards, discounts) are IEEE 754 binary64 values, the
      kernel's [float], with its operations: every addition and
      multiplication rounds as Python's does. Array elements are never
      computed with, only converted and rearranged; they are rationals [Q].
    - Python objects that are mutated or shared (numpy arrays, observation
      dictionaries) live in an explicit store, the [World]; a value of the
      program holds a reference (an index into the store).
    - Every method is a function from the receiver's state and the store to an
      outcome ([Ok] or a raised exception), the new receiver state and the new
      store: an exception leaves the mutations done so far in place.
    - Not modelled: [ActionDTypeWrapper], [DMEWrapper._get_observations] and
      the attribute delegation through [__getattr__]; no property below
      depends on them. *)

From Stdlib Require Import Floats ZArith QArith Qpower List String Lia Bool.
From stdpp Require Import base list strings pretty.
Import ListNotations.

Local Open Scope string_scope.
Local Open Scope list_scope.

(** ** Outcomes *)

Inductive PyError :=
| AssertionError
| AttributeError
| IndexError
| KeyError
| TypeError
| UnboundLocalError
| ValueError
| DanglingReference. (* ill-formed store; no Python counterpart *)

Inductive result (A : Type) :=
| Ok (a : A)
| Raise (e : PyError).
Arguments Ok {A} a.
Arguments Raise {A} e.

(** ** Scalars and truthiness *)

(** [bool(x)] of a Python float: false exactly at the two zeros. *)
Definition truthy (x : float) : bool := negb (x =? 0)%float.

(** [x or d] where [x] is a float or [None] and [d] a float. *)
Definition py_or (x : option float) (d : float) : float :=
  match x with
  | Some v => if truthy v then v else d
  | None => d
  end.

(** ** Arrays, dictionaries and the store *)

Inductive DType := uint8 | float32 | float64.

(** A numpy array: element type, shape and the elements in row-major order. *)
Record ndarray := mk_ndarray {
  dtype : DType;
  shape : list nat;
  data : list Q
}.

Abbreviation loc := nat (only parsing).   (* reference to an array *)
Abbreviation dloc := nat (only parsing).  (* reference to an observation dictionary *)

(** A store cell. [escaped] is ghost state: it is set once a reference to the
    array is held by the wrapped environment or was stored into an observation
    dictionary, that is, once code outside the allocating wrapper can reach
    the array. *)
Record cell := mk_cell {
  escaped : bool;
  content : ndarray
}.

(** An [OrderedDict] from keys to arrays, in insertion order. *)
Abbreviation odict := (list (string * loc)) (only parsing).

Record World := mk_World {
  arrays : list cell;
  dicts : list odict
}.

(** ** Step records *)

Inductive StepType := FIRST | MID | LAST.

Definition StepType_eqb (a b : StepType) : bool :=
  match a, b with
  | FIRST, FIRST | MID, MID | LAST, LAST => true
  | _, _ => false
  end.

(** [dm_env.TimeStep] *)
Record TimeStep := mk_TimeStep {
  ts_step_type : StepType;
  ts_reward : option float;
  ts_discount : option float;
  ts_observation : dloc
}.

Definition ts_last (t : TimeStep) : bool := StepType_eqb (ts_step_type t) LAST.

Definition Action := ndarray.

(** [ExtendedTimeStep] *)
Record ExtendedTimeStep := mk_ExtendedTimeStep {
  step_type : StepType;
  reward : float;
  discount : float;
  observation : dloc;
  action : Action
}.

Definition first (t : ExtendedTimeStep) : bool := StepType_eqb (step_type t) FIRST.
Definition mid (t : ExtendedTimeStep) : bool := StepType_eqb (step_type t) MID.
Definition last (t : ExtendedTimeStep) : bool := StepType_eqb (step_type t) LAST.

(** Values a subscript of an [ExtendedTimeStep] can produce. *)
Inductive PyVal :=
| VStepType (s : StepType)
| VFloat (q : float)
| VDict (d : dloc)
| VArray (a : ndarray)
| VBoundMethod (name : string).

(** Subscripts: a string or an integer (slices are not modelled). *)
Inductive Index :=
| IStr (s : string)
| IInt (i : Z).

(** The record as the tuple it is, in the order the fields are declared. *)
Definition _fields : list string :=
  ["step_type"; "reward"; "discount"; "observation"; "action"].

Definition as_tuple (t : ExtendedTimeStep) : list PyVal :=
  [VStepType (step_type t); VFloat (reward t); VFloat (discount t);
   VDict (observation t); VArray (action t)].

(** [getattr(self, attr)]: the named fields and the methods of the class;
    attributes inherited from [tuple] are not modelled. *)
Definition getattr (t : ExtendedTimeStep) (attr : string) : result PyVal :=
  if String.eqb attr "step_type" then Ok (VStepType (step_type t))
  else if String.eqb attr "reward" then Ok (VFloat (reward t))
  else if String.eqb attr "discount" then Ok (VFloat (discount t))
  else if String.eqb attr "observation" then Ok (VDict (observation t))
  else if String.eqb attr "action" then Ok (VArray (action t))
  else if String.eqb attr "first" then Ok (VBoundMethod "first")
  else if String.eqb attr "mid" then Ok (VBoundMethod "mid")
  else if String.eqb attr "last" then Ok (VBoundMethod "last")
  else Raise AttributeError.

(** [tuple.__getitem__(self, i)] for an integer [i]; negative indices count
    from the end. *)
Definition tuple_getitem (tup : list PyVal) (i : Z) : result PyVal :=
  let n := Z.of_nat (length tup) in
  let j := (if i <? 0 then i + n else i)%Z in
  if ((0 <=? j) && (j <? n))%Z
  then match nth_error tup (Z.to_nat j) with
       | Some v => Ok v
       | None => Raise IndexError
       end
  else Raise IndexError.

Definition getitem (t : ExtendedTimeStep) (attr : Index) : result PyVal :=
  match attr with
  | IStr s => getattr t s
  | IInt i => tuple_getitem (as_tuple t) i
  end.

(** The five fields, for stating facts about all of them. *)
Inductive Field := F_step_type | F_reward | F_discount | F_observation | F_action.

Definition field_name (f : Field) : string :=
  match f with
  | F_step_type => "step_type"
  | F_reward => "reward"
  | F_discount => "discount"
  | F_observation => "observation"
  | F_action => "action"
  end.

(** [record.name] *)
Definition field_value (t : ExtendedTimeStep) (f : Field) : PyVal :=
  match f with
  | F_step_type => VStepType (step_type t)
  | F_reward => VFloat (reward t)
  | F_discount => VFloat (discount t)
  | F_observation => VDict (observation t)
  | F_action => VArray (action t)
  end.

(** Position of a field in the declaration. *)
Definition field_position (f : Field) : nat :=
  match f with
  | F_step_type => 0
  | F_reward => 1
  | F_discount => 2
  | F_observation => 3
  | F_action => 4
  end.

(** ** The store monad *)

(** A computation on the store: an outcome and the store it leaves. *)
Definition M (A : Type) : Type := World -> result A * World.

Definition ret {A} (a : A) : M A := fun w => (Ok a, w).
Definition raise {A} (e : PyError) : M A := fun w => (Raise e, w).
Definition bind {A B} (m : M A) (k : A -> M B) : M B :=
  fun w => match m w with
           | (Ok a, w') => k a w'
           | (Raise e, w') => (Raise e, w')
           end.
Definition lift {A} (r : result A) : M A := fun w => (r, w).

Notation "'let*' x ':=' m 'in' k" := (bind m (fun x => k))
  (at level 10, x name, m at level 100, k at level 200).

(** Sequential loop over a list, stopping at the first exception. *)
Fixpoint for_each {A} (body : A -> M unit) (l : list A) : M unit :=
  match l with
  | [] => ret tt
  | x :: l' => let* _ := body x in for_each body l'
  end.

(** *** Arrays in the store *)

Definition read_array (l : loc) : M ndarray :=
  fun w => match arrays w !! l with
           | Some c => (Ok (content c), w)
           | None => (Raise DanglingReference, w)
           end.

(** A new array object: only the allocating code holds the reference. *)
Definition alloc_array (a : ndarray) : M loc :=
  fun w => (Ok (length (arrays w)),
            mk_World (arrays w ++ [mk_cell false a]) (dicts w)).

Definition mark_escaped (c : cell) : cell := mk_cell true (content c).

(** *** Dictionaries in the store *)

Definition read_dict (d : dloc) : M odict :=
  fun w => match dicts w !! d with
           | Some o => (Ok o, w)
           | None => (Raise DanglingReference, w)
           end.

Definition alloc_dict (o : odict) : M dloc :=
  fun w => (Ok (length (dicts w)), mk_World (arrays w) (dicts w ++ [o])).

(** [o[k]] *)
Fixpoint odict_get (o : odict) (k : string) : option loc :=
  match o with
  | [] => None
  | (k', v) :: o' => if String.eqb k k' then Some v else odict_get o' k
  end.

(** [o[k] = v] on an [OrderedDict]: an existing key keeps its position, a new
    key goes to the end. *)
Fixpoint odict_set (o : odict) (k : string) (v : loc) : odict :=
  match o with
  | [] => [(k, v)]
  | (k', v') :: o' => if String.eqb k k' then (k', v) :: o'
                      else (k', v') :: odict_set o' k v
  end.

Definition odict_keys (o : odict) : list string := map fst o.

Definition dict_getitem (d : dloc) (k : string) : M loc :=
  let* o := read_dict d in
  match odict_get o k with
  | Some v => ret v
  | None => raise KeyError
  end.

(** [d[k] = v] in the store; the array [v] becomes reachable through the
    dictionary, which the ghost flag records. *)
Definition dict_setitem (d : dloc) (k : string) (v : loc) : M unit :=
  fun w => match dicts w !! d with
           | Some o =>
               (Ok tt, mk_World (alter mark_escaped v (arrays w))
                                (<[d := odict_set o k v]> (dicts w)))
           | None => (Raise DanglingReference, w)
           end.

(** ** numpy operations *)

(** Conversion of one element of the given dtype to 32-bit float. It belongs
    to numpy, not to this repository. *)
Class Float32Cast := cast_float32 : DType -> Q -> Q.

(** [a.astype(np.float32)] *)
Definition astype_float32 `{Float32Cast} (a : ndarray) : ndarray :=
  mk_ndarray float32 (shape a) (map (cast_float32 (dtype a)) (data a)).

(** [image[0]] on an array with a leading batch axis. *)
Definition getitem0 (a : ndarray) : result ndarray :=
  match shape a with
  | [] => Raise IndexError
  | O :: _ => Raise IndexError
  | S _ :: rest =>
      Ok (mk_ndarray (dtype a) rest (firstn (fold_right Nat.mul 1%nat rest) (data a)))
  end.

(** [image.transpose(2, 0, 1).copy()] as a value: from height, width, channel
    to channel, height, width; element (c, h, w) of the result is element
    (h, w, c) of the argument. *)
Definition transpose_2_0_1 (a : ndarray) : result ndarray :=
  match shape a with
  | [H; W; C] =>
      Ok (mk_ndarray (dtype a) [C; H; W]
            (flat_map (fun c =>
               flat_map (fun h =>
                 map (fun x => nth ((h * W + x) * C + c)%nat (data a) 0%Q)
                     (seq 0 W))
                 (seq 0 H))
               (seq 0 C)))
  | _ => Raise ValueError
  end.

(** Result type of mixing two dtypes. *)
Definition promote (a b : DType) : DType :=
  match a, b with
  | float64, _ | _, float64 => float64
  | float32, _ | _, float32 => float32
  | uint8, uint8 => uint8
  end.

(** [np.concatenate(arrs, axis=0)]: at least one array, none of dimension
    zero, all of the same shape after the first axis. *)
Fixpoint concatenate (arrs : list ndarray) : result ndarray :=
  match arrs with
  | [] => Raise ValueError
  | a :: rest =>
      match shape a with
      | [] => Raise ValueError
      | n :: tl_a =>
          match rest with
          | [] => Ok a
          | _ :: _ =>
              match concatenate rest with
              | Raise e => Raise e
              | Ok b =>
                  match shape b with
                  | [] => Raise ValueError
                  | m :: tl_b =>
                      if decide (tl_a = tl_b)
                      then Ok (mk_ndarray (promote (dtype a) (dtype b))
                                 ((n + m)%nat :: tl_a) (data a ++ data b))
                      else Raise ValueError
                  end
              end
          end
      end
  end.

(** [np.zeros(shape, dtype)] *)
Definition zeros (shp : list nat) (dt : DType) : ndarray :=
  mk_ndarray dt shp (repeat 0%Q (fold_right Nat.mul 1%nat shp)).

(** ** Specs *)

(** [specs.Array] (no bounds) and [specs.BoundedArray]. *)
Record Spec := mk_Spec {
  spec_shape : list nat;
  spec_dtype : DType;
  spec_minimum : option (list Q);
  spec_maximum : option (list Q);
  spec_name : string
}.

Definition Array (shp : list nat) (dt : DType) (name : string) : Spec :=
  mk_Spec shp dt None None name.

Definition BoundedArray (shp : list nat) (dt : DType) (lo hi : list Q)
  (name : string) : Spec :=
  mk_Spec shp dt (Some lo) (Some hi) name.

(** [spec.replace(dtype=dt)] *)
Definition spec_replace_dtype (s : Spec) (dt : DType) : Spec :=
  mk_Spec (spec_shape s) dt (spec_minimum s) (spec_maximum s) (spec_name s).

(** An ordered mapping of specs, with the same insertion rule as [odict_set]. *)
Fixpoint ospec_set (o : list (string * Spec)) (k : string) (v : Spec)
  : list (string * Spec) :=
  match o with
  | [] => [(k, v)]
  | (k', v') :: o' => if String.eqb k k' then (k', v) :: o'
                      else (k', v') :: ospec_set o' k v
  end.

(** ** The environment interface *)

(** Keyword arguments of [reset]; the repository has one, [sim_reset]. *)
Definition Kwargs := option bool.

(** [dm_env.Environment]: a receiver of type [E] with [reset], [step] and the
    two spec accessors. *)
Class Environment (E : Type) := {
  env_reset : Kwargs -> E -> World -> result TimeStep * E * World;
  env_step : Action -> E -> World -> result TimeStep * E * World;
  env_observation_spec : E -> list (string * Spec);
  env_action_spec : E -> Spec
}.

(** The robosuite simulator, as far as [DMEWrapper] uses it. [sim_step]
    returns the observation, the reward and the done flag (the info mapping is
    dropped by the wrapper). *)
Class Simulator (Sim : Type) := {
  sim_use_object_obs : Sim -> bool;
  sim_use_camera_obs : Sim -> bool;
  sim_camera_names : Sim -> list string;
  sim_robots : Sim -> nat;
  sim_observation_spec : Sim -> list (string * (list nat * DType));
  sim_action_dim : Sim -> nat;
  sim_action_spec : Sim -> list Q * list Q;
  sim_reset : Sim -> World -> result dloc * Sim * World;
  sim_get_observations : bool -> Sim -> World -> result dloc * Sim * World;
  sim_step : Action -> Sim -> World -> result (dloc * float * bool) * Sim * World
}.

(** ** DMEWrapper *)

Record DMEWrapper (Sim : Type) := mk_DMEWrapper {
  dme_env : Sim;
  keys : list string;
  dme_observation_spec : list (string * Spec);
  dme_action_spec : Spec
}.
Arguments mk_DMEWrapper {Sim}.
Arguments dme_env {Sim}.
Arguments keys {Sim}.
Arguments dme_observation_spec {Sim}.
Arguments dme_action_spec {Sim}.

Fixpoint assoc_get {A} (o : list (string * A)) (k : string) : option A :=
  match o with
  | [] => None
  | (k', v) :: o' => if String.eqb k k' then Some v else assoc_get o' k
  end.

(** The keys computed when none are given. *)
Definition default_keys `{Simulator Sim} (env : Sim) : list string :=
  (if sim_use_object_obs env then ["object-state"] else [])
  ++ (if sim_use_camera_obs env
      then map (fun cam_name => (cam_name ++ "_image")%string)
               (sim_camera_names env)
      else [])
  ++ map (fun idx => ("robot" ++ pretty idx ++ "_proprio-state")%string)
         (seq 0 (sim_robots env)).

(** The loop of [__init__] that builds the observation spec; it asserts that
    every key is declared by the simulator. *)
Fixpoint dme_build_spec (ob : list (string * (list nat * DType)))
  (ks : list string) (acc : list (string * Spec))
  : result (list (string * Spec)) :=
  match ks with
  | [] => Ok acc
  | k :: ks' =>
      match assoc_get ob k with
      | None => Raise AssertionError
      | Some (shp, dt) => dme_build_spec ob ks' (ospec_set acc k (Array shp dt k))
      end
  end.

Definition dme_init `{Simulator Sim} (env : Sim) (ks : option (list string))
  : result (DMEWrapper Sim) :=
  let ks := match ks with Some l => l | None => default_keys env end in
  match dme_build_spec (sim_observation_spec env) ks [] with
  | Raise e => Raise e
  | Ok ospec =>
      Ok (mk_DMEWrapper env ks ospec
            (BoundedArray [sim_action_dim env] float32
               (fst (sim_action_spec env)) (snd (sim_action_spec env))
               "action"))
  end.

(** [_extract_obs]: a new dictionary with the retained keys, each holding the
    array the given dictionary holds. *)
Definition _extract_obs (ks : list string) (obs_dict : dloc) : M dloc :=
  let* new_obs_dict := alloc_dict [] in
  let* _ := for_each (fun key =>
                        let* v := dict_getitem obs_dict key in
                        dict_setitem new_obs_dict key v) ks in
  ret new_obs_dict.

Definition dme_reset `{Simulator Sim} (kw : Kwargs) (self : DMEWrapper Sim)
  (w : World) : result TimeStep * DMEWrapper Sim * World :=
  let sim_reset_flag := match kw with Some b => b | None => true end in
  let with_env e := mk_DMEWrapper e (keys self) (dme_observation_spec self)
                      (dme_action_spec self) in
  match (if sim_reset_flag then sim_reset (dme_env self) w
         else sim_get_observations true (dme_env self) w) with
  | (Raise e, env', w') => (Raise e, with_env env', w')
  | (Ok observation, env', w') =>
      match _extract_obs (keys self) observation w' with
      | (Raise e, w'') => (Raise e, with_env env', w'')
      | (Ok observation', w'') =>
          (Ok (mk_TimeStep FIRST None None observation'), with_env env', w'')
      end
  end.

Definition dme_step `{Simulator Sim} (act : Action) (self : DMEWrapper Sim)
  (w : World) : result TimeStep * DMEWrapper Sim * World :=
  let with_env e := mk_DMEWrapper e (keys self) (dme_observation_spec self)
                      (dme_action_spec self) in
  match sim_step act (dme_env self) w with
  | (Raise e, env', w') => (Raise e, with_env env', w')
  | (Ok (observation, rew, done), env', w') =>
      match _extract_obs (keys self) observation w' with
      | (Raise e, w'') => (Raise e, with_env env', w'')
      | (Ok observation', w'') =>
          let step_type := if done then LAST else MID in
          (Ok (mk_TimeStep step_type (Some rew) (Some 1%float) observation'),
           with_env env', w'')
      end
  end.

#[export] Instance DMEWrapper_Environment `{Simulator Sim}
  : Environment (DMEWrapper Sim) := {
  env_reset := dme_reset;
  env_step := dme_step;
  env_observation_spec := dme_observation_spec;
  env_action_spec := dme_action_spec
}.

(** ** FrameStackWrapper *)

Record FrameStackWrapper (E : Type) := mk_FrameStackWrapper {
  fs_env : E;
  _num_frames : Z;
  _frames : list (option loc);   (* deque, oldest first; [None] is Python's None *)
  _keys : list string;
  _obs_spec : list (string * Spec);
  _image_key : option string
}.
Arguments mk_FrameStackWrapper {E}.
Arguments fs_env {E}.
Arguments _num_frames {E}.
Arguments _frames {E}.
Arguments _keys {E}.
Arguments _obs_spec {E}.
Arguments _image_key {E}.

(** [d.append(x)] on a [deque] with the given [maxlen]: when the deque is
    full the oldest element is dropped. *)
Definition deque_append {A} (maxlen : nat) (d : list A) (x : A) : list A :=
  let d' := d ++ [x] in
  skipn (length d' - maxlen) d'.

(** The loop of [__init__] over the wrapped observation spec. *)
Fixpoint fs_build_spec (num_frames : Z) (items : list (string * Spec))
  (obs_spec : list (string * Spec)) (image_key : option string)
  : result (list (string * Spec) * option string) :=
  match items with
  | [] => Ok (obs_spec, image_key)
  | (k, spec) :: items' =>
      if (1 <? length (spec_shape spec))%nat then
        let image_shape :=
          if (length (spec_shape spec) =? 4)%nat then tl (spec_shape spec)
          else spec_shape spec in
        match nth_error image_shape 2 with
        | None => Raise IndexError
        | Some c =>
            let image_spec :=
              BoundedArray (Z.to_nat (Z.of_nat c * num_frames) :: firstn 2 image_shape)
                uint8 [0%Q] [255%Q] k in
            fs_build_spec num_frames items' (ospec_set obs_spec k image_spec) (Some k)
        end
      else
        fs_build_spec num_frames items'
          (ospec_set obs_spec k (spec_replace_dtype spec float32)) image_key
  end.

Definition fs_init `{Environment E} (env : E) (num_frames : Z)
  : result (FrameStackWrapper E) :=
  if (num_frames <? 0)%Z then Raise ValueError (* deque: maxlen must be non-negative *)
  else
    let wrapped_obs_spec := env_observation_spec env in
    match fs_build_spec num_frames wrapped_obs_spec [] None with
    | Raise e => Raise e
    | Ok (obs_spec, image_key) =>
        Ok (mk_FrameStackWrapper env num_frames [] (map fst wrapped_obs_spec)
              obs_spec image_key)
    end.

(** [list(self._frames)] as arrays, for [np.concatenate]; a [None] entry is
    not an array numpy can concatenate. *)
Fixpoint read_frames (frames : list (option loc)) : M (list ndarray) :=
  match frames with
  | [] => ret []
  | None :: _ => raise ValueError
  | Some l :: rest =>
      let* a := read_array l in
      let* others := read_frames rest in
      ret (a :: others)
  end.

(** One iteration of the loop of [_transform_observation]. *)
Definition fs_transform_item `{Float32Cast} (image_key : option string)
  (num_frames : Z) (frames : list (option loc)) (ob : dloc)
  (item : string * loc) : M unit :=
  let (k, v) := item in
  if decide (Some k = image_key) then
    if (Z.of_nat (length frames) =? num_frames)%Z then
      let* arrs := read_frames frames in
      let* vis_obs := lift (concatenate arrs) in
      let* l := alloc_array vis_obs in
      dict_setitem ob k l
    else raise AssertionError
  else
    let* a := read_array v in
    let* l := alloc_array (astype_float32 a) in
    dict_setitem ob k l.

(** [_transform_observation]: the loop assigns to keys the dictionary already
    has, so the items it visits are the items the dictionary had on entry. *)
Definition fs_transform_observation `{Float32Cast} (image_key : option string)
  (num_frames : Z) (frames : list (option loc)) (time_step : TimeStep)
  : M TimeStep :=
  let ob := ts_observation time_step in
  let* items := read_dict ob in
  let* _ := for_each (fs_transform_item image_key num_frames frames ob) items in
  ret (mk_TimeStep (ts_step_type time_step) (ts_reward time_step)
         (ts_discount time_step) ob).

(** The image as the buffer stores it: batch axis removed, channel first. *)
Definition channel_first (image : ndarray) : result ndarray :=
  match (if (length (shape image) =? 4)%nat then getitem0 image else Ok image) with
  | Raise e => Raise e
  | Ok image' => transpose_2_0_1 image'
  end.

(** [_extract_image]; [.copy()] allocates the array that is returned. *)
Definition _extract_image (image_key : option string) (time_step : TimeStep)
  : M (option loc) :=
  match image_key with
  | None => ret None
  | Some k =>
      let* l := dict_getitem (ts_observation time_step) k in
      let* image := read_array l in
      let* frame := lift (channel_first image) in
      let* l' := alloc_array frame in
      ret (Some l')
  end.

Definition fs_with {E} (self : FrameStackWrapper E) (env : E)
  (frames : list (option loc)) : FrameStackWrapper E :=
  mk_FrameStackWrapper env (_num_frames self) frames (_keys self)
    (_obs_spec self) (_image_key self).

(** [for _ in range(n): frames.append(image)] *)
Fixpoint append_n {A} (maxlen : nat) (n : nat) (d : list A) (x : A) : list A :=
  match n with
  | O => d
  | S n' => append_n maxlen n' (deque_append maxlen d x) x
  end.

Definition fs_reset `{Float32Cast} `{Environment E} (kw : Kwargs)
  (self : FrameStackWrapper E) (w : World)
  : result TimeStep * FrameStackWrapper E * World :=
  match env_reset kw (fs_env self) w with
  | (Raise e, env', w1) => (Raise e, fs_with self env' (_frames self), w1)
  | (Ok time_step, env', w1) =>
      match _extract_image (_image_key self) time_step w1 with
      | (Raise e, w2) => (Raise e, fs_with self env' (_frames self), w2)
      | (Ok image, w2) =>
          let maxlen := Z.to_nat (_num_frames self) in
          let frames := append_n maxlen maxlen (_frames self) image in
          let (r, w3) := fs_transform_observation (_image_key self)
                           (_num_frames self) frames time_step w2 in
          (r, fs_with self env' frames, w3)
      end
  end.

Definition fs_step `{Float32Cast} `{Environment E} (act : Action)
  (self : FrameStackWrapper E) (w : World)
  : result TimeStep * FrameStackWrapper E * World :=
  match env_step act (fs_env self) w with
  | (Raise e, env', w1) => (Raise e, fs_with self env' (_frames self), w1)
  | (Ok time_step, env', w1) =>
      match _extract_image (_image_key self) time_step w1 with
      | (Raise e, w2) => (Raise e, fs_with self env' (_frames self), w2)
      | (Ok image, w2) =>
          let frames := deque_append (Z.to_nat (_num_frames self))
                          (_frames self) image in
          let (r, w3) := fs_transform_observation (_image_key self)
                           (_num_frames self) frames time_step w2 in
          (r, fs_with self env' frames, w3)
      end
  end.

#[export] Instance FrameStackWrapper_Environment `{Float32Cast} `{Environment E}
  : Environment (FrameStackWrapper E) := {
  env_reset := fs_reset;
  env_step := fs_step;
  env_observation_spec := _obs_spec;
  env_action_spec := fun self => env_action_spec (fs_env self)
}.

(** ** ExtendedTimeStepWrapper *)

Record ExtendedTimeStepWrapper (E : Type) := mk_ExtendedTimeStepWrapper {
  ets_env : E
}.
Arguments mk_ExtendedTimeStepWrapper {E}.
Arguments ets_env {E}.

Definition _augment_time_step `{Environment E} (self : ExtendedTimeStepWrapper E)
  (time_step : TimeStep) (act : option Action) : ExtendedTimeStep :=
  let act :=
    match act with
    | Some a => a
    | None =>
        let action_spec := env_action_spec (ets_env self) in
        zeros (spec_shape action_spec) (spec_dtype action_spec)
    end in
  mk_ExtendedTimeStep
    (ts_step_type time_step)
    (py_or (ts_reward time_step) 0)
    (py_or (ts_discount time_step) 1)
    (ts_observation time_step)
    act.

Definition ets_reset `{Environment E} (kw : Kwargs)
  (self : ExtendedTimeStepWrapper E) (w : World)
  : result ExtendedTimeStep * ExtendedTimeStepWrapper E * World :=
  match env_reset kw (ets_env self) w with
  | (Raise e, env', w') => (Raise e, mk_ExtendedTimeStepWrapper env', w')
  | (Ok time_step, env', w') =>
      (Ok (_augment_time_step (mk_ExtendedTimeStepWrapper env') time_step None),
       mk_ExtendedTimeStepWrapper env', w')
  end.

Definition ets_step `{Environment E} (act : Action)
  (self : ExtendedTimeStepWrapper E) (w : World)
  : result ExtendedTimeStep * ExtendedTimeStepWrapper E * World :=
  match env_step act (ets_env self) w with
  | (Raise e, env', w') => (Raise e, mk_ExtendedTimeStepWrapper env', w')
  | (Ok time_step, env', w') =>
      (Ok (_augment_time_step (mk_ExtendedTimeStepWrapper env') time_step (Some act)),
       mk_ExtendedTimeStepWrapper env', w')
  end.

(** ** ActionRepeatWrapper *)

Record ActionRepeatWrapper (E : Type) := mk_ActionRepeatWrapper {
  ar_env : E;
  _num_repeats : Z
}.
Arguments mk_ActionRepeatWrapper {E}.
Arguments ar_env {E}.
Arguments _num_repeats {E}.

(** The local variables of [step]: [time_step] is unbound until the first
    iteration assigns it. *)
Record ar_locals := mk_ar_locals {
  loc_reward : float;
  loc_discount : float;
  loc_time_step : option TimeStep
}.

(** The [for] loop of [step] with [n] iterations left. An inner step without
    a discount makes [discount *= time_step.discount] raise. *)
Fixpoint ar_loop `{Environment E} (n : nat) (act : Action) (vars : ar_locals)
  (env : E) (w : World) : result ar_locals * E * World :=
  match n with
  | O => (Ok vars, env, w)
  | S n' =>
      match env_step act env w with
      | (Raise e, env', w') => (Raise e, env', w')
      | (Ok time_step, env', w') =>
          let reward' :=
            (loc_reward vars + py_or (ts_reward time_step) 0 * loc_discount vars)%float in
          match ts_discount time_step with
          | None => (Raise TypeError, env', w')
          | Some d =>
              let vars' := mk_ar_locals reward' (loc_discount vars * d)%float
                             (Some time_step) in
              if ts_last time_step then (Ok vars', env', w')
              else ar_loop n' act vars' env' w'
          end
      end
  end.

Definition ar_step `{Environment E} (act : Action)
  (self : ActionRepeatWrapper E) (w : World)
  : result TimeStep * ActionRepeatWrapper E * World :=
  let with_env e := mk_ActionRepeatWrapper e (_num_repeats self) in
  match ar_loop (Z.to_nat (_num_repeats self)) act
          (mk_ar_locals 0 1 None) (ar_env self) w with
  | (Raise e, env', w') => (Raise e, with_env env', w')
  | (Ok vars, env', w') =>
      match loc_time_step vars with
      | None => (Raise UnboundLocalError, with_env env', w')
      | Some time_step =>
          (Ok (mk_TimeStep (ts_step_type time_step) (Some (loc_reward vars))
                 (Some (loc_discount vars)) (ts_observation time_step)),
           with_env env', w')
      end
  end.

(** [reset(self)] takes no keyword argument. *)
Definition ar_reset `{Environment E} (kw : Kwargs)
  (self : ActionRepeatWrapper E) (w : World)
  : result TimeStep * ActionRepeatWrapper E * World :=
  match kw with
  | Some _ => (Raise TypeError, self, w)
  | None =>
      match env_reset None (ar_env self) w with
      | (r, env', w') => (r, mk_ActionRepeatWrapper env' (_num_repeats self), w')
      end
  end.

#[export] Instance ActionRepeatWrapper_Environment `{Environment E}
  : Environment (ActionRepeatWrapper E) := {
  env_reset := ar_reset;
  env_step := ar_step;
  env_observation_spec := fun self => env_observation_spec (ar_env self);
  env_action_spec := fun self => env_action_spec (ar_env self)
}.

(** ** ObsDTypeWrapper *)

Record ObsDTypeWrapper (E : Type) := mk_ObsDTypeWrapper {
  od_env : E;
  od_obs_spec : list (string * Spec)
}.
Arguments mk_ObsDTypeWrapper {E}.
Arguments od_env {E}.
Arguments od_obs_spec {E}.

Definition od_init `{Environment E} (env : E) : ObsDTypeWrapper E :=
  mk_ObsDTypeWrapper env
    (fold_left (fun acc '(k, v) => ospec_set acc k (Array (spec_shape v) float32 k))
       (env_observation_spec env) []).

Definition od_transform_item `{Float32Cast} (ob : dloc) (item : string * loc)
  : M unit :=
  let (k, v) := item in
  let* a := read_array v in
  let* l := alloc_array (astype_float32 a) in
  dict_setitem ob k l.

Definition od_transform_observation `{Float32Cast} (time_step : TimeStep)
  : M TimeStep :=
  let ob := ts_observation time_step in
  let* items := read_dict ob in
  let* _ := for_each (od_transform_item ob) items in
  ret (mk_TimeStep (ts_step_type time_step) (ts_reward time_step)
         (ts_discount time_step) ob).

Definition od_reset `{Float32Cast} `{Environment E} (kw : Kwargs)
  (self : ObsDTypeWrapper E) (w : World)
  : result TimeStep * ObsDTypeWrapper E * World :=
  match kw with
  | Some _ => (Raise TypeError, self, w)
  | None =>
      match env_reset None (od_env self) w with
      | (Raise e, env', w') => (Raise e, mk_ObsDTypeWrapper env' (od_obs_spec self), w')
      | (Ok time_step, env', w') =>
          let (r, w'') := od_transform_observation time_step w' in
          (r, mk_ObsDTypeWrapper env' (od_obs_spec self), w'')
      end
  end.

Definition od_step `{Float32Cast} `{Environment E} (act : Action)
  (self : ObsDTypeWrapper E) (w : World)
  : result TimeStep * ObsDTypeWrapper E * World :=
  match env_step act (od_env self) w with
  | (Raise e, env', w') => (Raise e, mk_ObsDTypeWrapper env' (od_obs_spec self), w')
  | (Ok time_step, env', w') =>
      let (r, w'') := od_transform_observation time_step w' in
      (r, mk_ObsDTypeWrapper env' (od_obs_spec self), w'')
  end.

#[export] Instance ObsDTypeWrapper_Environment `{Float32Cast} `{Environment E}
  : Environment (ObsDTypeWrapper E) := {
  env_reset := od_reset;
  env_step := od_step;
  env_observation_spec := od_obs_spec;
  env_action_spec := fun self => env_action_spec (od_env self)
}.

(** ** make *)

(** The wrapper chain of [make], given the simulator that [suite.make]
    returns and the observation flags of the configuration. *)
Definition make `{Float32Cast} `{Simulator Sim} (env : Sim)
  (use_camera_obs use_object_obs use_touch_obs : bool) (frame_stack : Z)
  : result (ExtendedTimeStepWrapper (FrameStackWrapper (DMEWrapper Sim))) :=
  let obs_keys :=
    ["robot0_proprio-state"]
    ++ (if use_camera_obs then ["agentview_image"] else [])
    ++ (if use_object_obs then ["object-state"] else [])
    ++ (if use_touch_obs then ["robot0_touch-state"] else []) in
  match dme_init env (Some obs_keys) with
  | Raise e => Raise e
  | Ok env1 =>
      match fs_init env1 frame_stack with
      | Raise e => Raise e
      | Ok env2 => Ok (mk_ExtendedTimeStepWrapper env2)
      end
  end.

(** ** Instrumentation and assumptions on wrapped environments *)

(** An environment that counts the invocations of its [step]. *)
Record CallCounter (E : Type) := mk_CallCounter {
  cc_env : E;
  cc_steps : nat
}.
Arguments mk_CallCounter {E}.
Arguments cc_env {E}.
Arguments cc_steps {E}.

#[export] Instance CallCounter_Environment `{Environment E}
  : Environment (CallCounter E) := {
  env_reset := fun kw self w =>
    match env_reset kw (cc_env self) w with
    | (r, env', w') => (r, mk_CallCounter env' (cc_steps self), w')
    end;
  env_step := fun act self w =>
    match env_step act (cc_env self) w with
    | (r, env', w') => (r, mk_CallCounter env' (S (cc_steps self)), w')
    end;
  env_observation_spec := fun self => env_observation_spec (cc_env self);
  env_action_spec := fun self => env_action_spec (cc_env self)
}.

(** Outcomes of [n] consecutive invocations of [step] with the same action,
    in order, with the environment and the store they leave. *)
Fixpoint inner_steps `{Environment E} (n : nat) (act : Action) (env : E)
  (w : World) : list (result TimeStep) * E * World :=
  match n with
  | O => ([], env, w)
  | S n' =>
      match env_step act env w with
      | (r, env', w') =>
          match inner_steps n' act env' w' with
          | (rs, env'', w'') => (r :: rs, env'', w'')
          end
      end
  end.

(** [1 + g + g^2 + ... + g^(k-1)] *)
Definition geometric_sum (g : Q) (k : nat) : Q :=
  fold_right Qplus 0%Q (map (fun i => g ^ Z.of_nat i)%Q (seq 0 k)).

(** The rational number a finite float denotes; [None] for the infinities
    and NaN. *)
Definition float_value (x : float) : option Q :=
  match Prim2SF x with
  | S754_zero _ => Some 0%Q
  | S754_finite s m e =>
      Some ((if s then -1 else 1) * inject_Z (Z.pos m) * 2 ^ e)%Q
  | _ => None
  end.

(** The float [z], computed from [x] and [y], is their exact sum (product):
    the operation did not round. *)
Definition exact2 (op : Q -> Q -> Q) (x y z : float) : Prop :=
  exists xv yv zv,
    float_value x = Some xv /\ float_value y = Some yv
    /\ float_value z = Some zv /\ (zv == op xv yv)%Q.

(** *** A stub environment for concrete runs *)

(** A deterministic environment: every [step] allocates an image of height 1,
    width 2 and 3 channels and a proprioceptive vector, both filled from the
    call number, returns them in a new dictionary, and reports [LAST] at call
    number [stub_last_at]. *)
Record StubEnv := mk_StubEnv {
  stub_calls : nat;
  stub_last_at : nat;
  stub_reward : option float;
  stub_discount : option float
}.

Definition stub_image (n : nat) : ndarray :=
  mk_ndarray uint8 [1; 2; 3]%nat
    (map (fun i => inject_Z (Z.of_nat (10 * n + i))) (seq 0 6)).

Definition stub_vector (n : nat) : ndarray :=
  mk_ndarray float64 [2]%nat [inject_Z (Z.of_nat n); (1 # 2)%Q].

Definition stub_observe (n : nat) (w : World) : dloc * World :=
  let li := length (arrays w) in
  (length (dicts w),
   mk_World (arrays w ++ [mk_cell true (stub_image n); mk_cell true (stub_vector n)])
            (dicts w ++ [[("agentview_image", li); ("robot0_proprio-state", S li)]])).

#[export] Instance StubEnv_Environment : Environment StubEnv := {
  env_reset := fun _ self w =>
    let (d, w') := stub_observe 0 w in
    (Ok (mk_TimeStep FIRST None None d),
     mk_StubEnv 0 (stub_last_at self) (stub_reward self) (stub_discount self), w');
  env_step := fun _ self w =>
    let n := S (stub_calls self) in
    let (d, w') := stub_observe n w in
    (Ok (mk_TimeStep (if (n =? stub_last_at self)%nat then LAST else MID)
           (stub_reward self) (stub_discount self) d),
     mk_StubEnv n (stub_last_at self) (stub_reward self) (stub_discount self), w');
  env_observation_spec := fun _ =>
    [("agentview_image", Array [1; 2; 3]%nat uint8 "agentview_image");
     ("robot0_proprio-state", Array [2]%nat float64 "robot0_proprio-state")];
  env_action_spec := fun _ => BoundedArray [2]%nat float32 [(-1)%Q] [1%Q] "action"
}.

Definition empty_world : World := mk_World [] [].

Definition stub_action : Action := mk_ndarray float32 [2]%nat [0%Q; 1%Q].

(** A conversion to use in concrete runs: the identity, exact on the values
    the stub produces. *)
Definition exact_cast : Float32Cast := fun _ q => q.

(** One iteration of the loop of [ActionRepeatWrapper.step] on an inner step
    that carries a discount. *)
Definition ar_iterate (vars : ar_locals) (t : TimeStep) : ar_locals :=
  mk_ar_locals
    (loc_reward vars + py_or (ts_reward t) 0 * loc_discount vars)%float
    (loc_discount vars * match ts_discount t with Some d => d | None => 1 end)%float
    (Some t).

(** The reward and the discount the loop of [step] has accumulated after the
    given inner steps, [sum_j r_j * prod_(l<j) d_l] and [prod_j d_j], each
    evaluated in floating point in the order of the loop: from [0.0] and
    [1.0], one inner step after the other. *)
Definition discounted_return (steps : list TimeStep) : float :=
  loc_reward (fold_left ar_iterate steps (mk_ar_locals 0 1 None)).

Definition discount_product (steps : list TimeStep) : float :=
  loc_discount (fold_left ar_iterate steps (mk_ar_locals 0 1 None)).

(** The same accumulation over [n] inner steps that all carry the reward [r]
    and the discount [g], from the running reward [R] and discount [D]. *)
Fixpoint geometric_loop (r g : float) (n : nat) (R D : float) : float * float :=
  match n with
  | O => (R, D)
  | S n' => geometric_loop r g n' (R + r * D)%float (D * g)%float
  end.

(** None of the operations of that accumulation rounds. *)
Fixpoint no_rounding (r g : float) (n : nat) (R D : float) : Prop :=
  match n with
  | O => True
  | S n' =>
      exact2 Qmult r D (r * D)%float
      /\ exact2 Qplus R (r * D)%float (R + r * D)%float
      /\ exact2 Qmult D g (D * g)%float
      /\ no_rounding r g n' (R + r * D)%float (D * g)%float
  end.

(** Python's [0.7] and [0.1]: the floats nearest to these decimals. *)
Definition float_0_7 : float := 0x1.6666666666666p-1%float.
Definition float_0_1 : float := 0x1.999999999999ap-4%float.

(** The stub with reward 1.0 and discount 0.5 on every step. *)
Definition stub_env (last_at : nat) : StubEnv :=
  mk_StubEnv 0 last_at (Some 1%float) (Some 0.5%float).

(** The keys of an [OrderedDict] filled by assigning the given keys in order:
    each key stands where it was first assigned. *)
Definition add_key (acc : list string) (k : string) : list string :=
  if existsb (String.eqb k) acc then acc else acc ++ [k].

Definition ordered_keys (ks : list string) : list string :=
  fold_left add_key ks [].

(** *** A stub simulator for concrete runs *)

(** A deterministic simulator with one camera and one robot; [step] reports
    the reward 1.0 and is done at call number [ssim_done_at]. *)
Record StubSim := mk_StubSim {
  ssim_calls : nat;
  ssim_done_at : nat
}.

Definition stub_sim_observe (n : nat) (w : World) : dloc * World :=
  let li := length (arrays w) in
  (length (dicts w),
   mk_World
     (arrays w ++ [mk_cell true (stub_image n); mk_cell true (stub_vector n);
                   mk_cell true (stub_vector (S n))])
     (dicts w ++ [[("agentview_image", li); ("robot0_proprio-state", S li);
                   ("object-state", S (S li))]])).

#[export] Instance StubSim_Simulator : Simulator StubSim := {
  sim_use_object_obs := fun _ => true;
  sim_use_camera_obs := fun _ => true;
  sim_camera_names := fun _ => ["agentview"];
  sim_robots := fun _ => 1%nat;
  sim_observation_spec := fun _ =>
    [("agentview_image", ([1; 2; 3]%nat, uint8));
     ("robot0_proprio-state", ([2]%nat, float64));
     ("object-state", ([2]%nat, float64))];
  sim_action_dim := fun _ => 2%nat;
  sim_action_spec := fun _ => ([(-1)%Q; (-1)%Q], [1%Q; 1%Q]);
  sim_reset := fun self w =>
    let (d, w') := stub_sim_observe 0 w in
    (Ok d, mk_StubSim 0 (ssim_done_at self), w');
  sim_get_observations := fun _ self w =>
    let (d, w') := stub_sim_observe (ssim_calls self) w in
    (Ok d, self, w');
  sim_step := fun _ self w =>
    let n := S (ssim_calls self) in
    let (d, w') := stub_sim_observe n w in
    (Ok (d, 1%float, (n =? ssim_done_at self)%nat),
     mk_StubSim n (ssim_done_at self), w')
}.

(** The key-filtering adapter over the stub, with the keys of [make]. *)
Definition stub_dme : DMEWrapper StubSim :=
  mk_DMEWrapper (mk_StubSim 0 5)
    ["robot0_proprio-state"; "agentview_image"]
    [("robot0_proprio-state", Array [2]%nat float64 "robot0_proprio-state");
     ("agentview_image", Array [1; 2; 3]%nat uint8 "agentview_image")]
    (BoundedArray [2]%nat float32 [(-1)%Q; (-1)%Q] [1%Q; 1%Q] "action").

(** *** Reading the store, for stating properties *)

(** The array an observation dictionary holds under a key. *)
Definition obs_array (w : World) (d : dloc) (k : string) : option ndarray :=
  match dicts w !! d with
  | Some o =>
      match odict_get o k with
      | Some l => content <$> arrays w !! l
      | None => None
      end
  | None => None
  end.

(** An observation dictionary as Python has it: no key twice, every value an
    existing array. *)
Definition well_formed_obs (w : World) (o : odict) : Prop :=
  List.NoDup (odict_keys o) /\ Forall (fun kv => is_Some (arrays w !! kv.2)) o.

(** The buffer entry [f] is an array only the wrapper can reach, with
    content [a]. *)
Definition holds_private (w : World) (f : option loc) (a : ndarray) : Prop :=
  exists l, f = Some l /\ arrays w !! l = Some (mk_cell false a).

(** Every buffered frame is [None] or an array only the wrapper can reach. *)
Definition frames_private (w : World) (frames : list (option loc)) : Prop :=
  Forall (fun f => match f with
                   | None => True
                   | Some l => exists a, arrays w !! l = Some (mk_cell false a)
                   end) frames.

(** Arrays that no outside code can reach are left as they are. *)
Definition preserves_private (w w' : World) : Prop :=
  forall l c, arrays w !! l = Some c -> escaped c = false -> arrays w' !! l = Some c.

(** A wrapped environment cannot touch an array it holds no reference to:
    its [reset] and [step] leave the arrays that never escaped as they are. *)
Class LawfulEnvironment (E : Type) `{Environment E} : Prop := {
  env_reset_private : forall kw (env : E) w, preserves_private w (env_reset kw env w).2;
  env_step_private : forall act (env : E) w, preserves_private w (env_step act env w).2
}.

(** The entries of a dictionary rebound to consecutive new arrays. *)
Fixpoint relocate (base : loc) (o : odict) : odict :=
  match o with
  | [] => []
  | (k, _) :: o' => (k, base) :: relocate (S base) o'
  end.

(** The array [_transform_observation] computes for an entry: the stacked
    image [vis] under the image key, the 32-bit float cast elsewhere. *)
Definition transformed_entry `{Float32Cast} (image_key : option string)
  (vis : ndarray) (w : World) (kv : string * loc) : ndarray :=
  if decide (Some kv.1 = image_key) then vis
  else match arrays w !! kv.2 with
       | Some c => astype_float32 (content c)
       | None => mk_ndarray float32 [] []
       end.


(** Calls on the frame stacker interleaved with in-place writes by outside
    code. Outside code can write only to arrays it can reach. *)
Inductive fs_call :=
| CallReset (kw : Kwargs)
| CallStep (act : Action)
| OutsideWrite (l : loc) (a : ndarray).

Definition outside_write (l : loc) (a : ndarray) (w : World) : World :=
  match arrays w !! l with
  | Some c => if escaped c
              then mk_World (<[l := mk_cell true a]> (arrays w)) (dicts w)
              else w
  | None => w
  end.

Fixpoint fs_calls `{Float32Cast} `{Environment E} (cs : list fs_call)
  (self : FrameStackWrapper E) (w : World) : FrameStackWrapper E * World :=
  match cs with
  | [] => (self, w)
  | CallReset kw :: cs' =>
      match fs_reset kw self w with
      | (_, self', w') => fs_calls cs' self' w'
      end
  | CallStep act :: cs' =>
      match fs_step act self w with
      | (_, self', w') => fs_calls cs' self' w'
      end
  | OutsideWrite l a :: cs' => fs_calls cs' self (outside_write l a w)
  end.

(** The buffer entries are arrays of the store, with the contents [arrs]. *)
Definition frames_hold (w : World) (frames : list (option loc))
  (arrs : list ndarray) : Prop :=
  Forall2 (fun f a => exists l, f = Some l /\ content <$> arrays w !! l = Some a)
    frames arrs.

(** The buffer is full and its frames concatenate to [vis]. *)
Definition stack_ready (num_frames : Z) (frames : list (option loc)) (w : World)
  (vis : ndarray) : Prop :=
  exists arrs, Z.of_nat (length frames) = num_frames
               /\ frames_hold w frames arrs
               /\ concatenate arrs = Ok vis.

(** The last [n] elements of a list: what a [deque] of that [maxlen] keeps. *)
Definition lastn {A} (n : nat) (l : list A) : list A :=
  skipn (length l - n) l.

(** Arrays that [np.concatenate] accepts together along the first axis: each
    has a first axis, and the same shape [tl] after it. *)
Definition stackable (tl : list nat) (l : list ndarray) : Prop :=
  Forall (fun a => exists c, shape a = c :: tl) l.

(** The frame stacker of depth 3 over the stub, as [fs_init] builds it. *)
Definition stub_fs : FrameStackWrapper StubEnv :=
  mk_FrameStackWrapper (stub_env 5) 3 []
    ["agentview_image"; "robot0_proprio-state"]
    [("agentview_image",
      BoundedArray [9; 1; 2]%nat uint8 [0%Q] [255%Q] "agentview_image");
     ("robot0_proprio-state",
      mk_Spec [2]%nat float32 None None "robot0_proprio-state")]
    (Some "agentview_image").

(** The stub's image of call [n], channel first. *)
Definition stub_frame (n : nat) : ndarray :=
  mk_ndarray uint8 [3; 1; 2]%nat
    (map (fun i => inject_Z (Z.of_nat (10 * n + i))) [0; 3; 1; 4; 2; 5]%nat).

(** The observation dictionary the stub returns in an empty store and after
    the wrapper's reset and first step. *)
Definition stub_obs (base : nat) : list (string * nat) :=
  [("agentview_image", base); ("robot0_proprio-state", S base)].

(** The stub run: a reset, then two steps. *)
Definition stub_run0 : result TimeStep * FrameStackWrapper StubEnv * World :=
  @fs_reset exact_cast StubEnv _ None stub_fs empty_world.



(** The store after the stub observed once, and the step it returned. *)
Definition stub_world0 : World := (stub_observe 0 empty_world).2.

Definition stub_first : TimeStep := mk_TimeStep FIRST None None 0%nat.

(** The store after the frame stacker copied the stub's first image, and the
    stack of three copies of that frame. *)
Definition stub_world1 : World :=
  mk_World (arrays stub_world0 ++ [mk_cell false (stub_frame 0)])
    (dicts stub_world0).

Definition stub_stacked0 : ndarray :=
  mk_ndarray uint8 [9; 1; 2]%nat (concat (repeat (data (stub_frame 0)) 3)).

(** *** A scripted environment for concrete runs *)

(** An environment that answers [step] with the outcomes of a script, one per
    call, and leaves the store alone; past the end of the script it raises. *)
Record ScriptedEnv := mk_ScriptedEnv {
  script : list (result TimeStep)
}.

#[export] Instance ScriptedEnv_Environment : Environment ScriptedEnv := {
  env_reset := fun _ self w => (Ok (mk_TimeStep FIRST None None 0%nat), self, w);
  env_step := fun _ self w =>
    match script self with
    | [] => (Raise ValueError, self, w)
    | r :: rest => (r, mk_ScriptedEnv rest, w)
    end;
  env_observation_spec := fun _ => [];
  env_action_spec := fun _ => BoundedArray [2]%nat float32 [(-1)%Q] [1%Q] "action"
}.

Definition mid_step (r d : float) : TimeStep :=
  mk_TimeStep MID (Some r) (Some d) 0%nat.

(** The adapter over the stub with a key the stub never observes. *)
Definition stub_dme_touch : DMEWrapper StubSim :=
  mk_DMEWrapper (mk_StubSim 0 5)
    ["robot0_proprio-state"; "robot0_touch-state"] [] 
    (BoundedArray [2]%nat float32 [(-1)%Q; (-1)%Q] [1%Q; 1%Q] "action").

(** *** Two more stub environments *)

(** An environment without an image: every call returns one new vector in a
    new dictionary. *)
Record VectorEnv := mk_VectorEnv {
  ve_calls : nat
}.

Definition vector_observe (n : nat) (w : World) : nat * World :=
  (length (dicts w),
   mk_World (arrays w ++ [mk_cell true (stub_vector n)])
            (dicts w ++ [[("robot0_proprio-state", length (arrays w))]])).

#[export] Instance VectorEnv_Environment : Environment VectorEnv := {
  env_reset := fun _ self w =>
    let (d, w') := vector_observe 0 w in
    (Ok (mk_TimeStep FIRST None None d), mk_VectorEnv 0, w');
  env_step := fun _ self w =>
    let n := S (ve_calls self) in
    let (d, w') := vector_observe n w in
    (Ok (mk_TimeStep MID (Some 1%float) (Some 1%float) d), mk_VectorEnv n, w');
  env_observation_spec := fun _ =>
    [("robot0_proprio-state", Array [2]%nat float64 "robot0_proprio-state")];
  env_action_spec := fun _ => BoundedArray [2]%nat float32 [(-1)%Q] [1%Q] "action"
}.

(** The frame stacker of depth 3 over the vector environment, as [fs_init]
    builds it: there is no image key. *)
Definition vector_fs : FrameStackWrapper VectorEnv :=
  mk_FrameStackWrapper (mk_VectorEnv 0) 3 [] ["robot0_proprio-state"]
    [("robot0_proprio-state",
      mk_Spec [2]%nat float32 None None "robot0_proprio-state")]
    None.

(** An environment whose image grows by one column with every call. *)
Record GrowingEnv := mk_GrowingEnv {
  ge_calls : nat
}.

Definition growing_image (n : nat) : ndarray :=
  mk_ndarray uint8 [1; S n; 1]%nat (repeat (inject_Z (Z.of_nat n)) (S n)).

Definition growing_observe (n : nat) (w : World) : nat * World :=
  (length (dicts w),
   mk_World (arrays w ++ [mk_cell true (growing_image n)])
            (dicts w ++ [[("agentview_image", length (arrays w))]])).

#[export] Instance GrowingEnv_Environment : Environment GrowingEnv := {
  env_reset := fun _ self w =>
    let (d, w') := growing_observe 0 w in
    (Ok (mk_TimeStep FIRST None None d), mk_GrowingEnv 0, w');
  env_step := fun _ self w =>
    let n := S (ge_calls self) in
    let (d, w') := growing_observe n w in
    (Ok (mk_TimeStep MID (Some 1%float) (Some 1%float) d), mk_GrowingEnv n, w');
  env_observation_spec := fun _ =>
    [("agentview_image", Array [1; 1; 1]%nat uint8 "agentview_image")];
  env_action_spec := fun _ => BoundedArray [2]%nat float32 [(-1)%Q] [1%Q] "action"
}.

Definition growing_fs : FrameStackWrapper GrowingEnv :=
  mk_FrameStackWrapper (mk_GrowingEnv 0) 2 [] ["agentview_image"]
    [("agentview_image",
      BoundedArray [2; 1; 1]%nat uint8 [0%Q] [255%Q] "agentview_image")]
    (Some "agentview_image").

(** The growing image of call [n], channel first. *)
Definition growing_frame (n : nat) : ndarray :=
  mk_ndarray uint8 [1; 1; S n]%nat (repeat (inject_Z (Z.of_nat n)) (S n)).

(** The frame stacker of depth 1 over the stub. *)
Definition stub_fs1 : FrameStackWrapper StubEnv :=
  mk_FrameStackWrapper (stub_env 5) 1 []
    ["agentview_image"; "robot0_proprio-state"]
    [("agentview_image",
      BoundedArray [3; 1; 2]%nat uint8 [0%Q] [255%Q] "agentview_image");
     ("robot0_proprio-state",
      mk_Spec [2]%nat float32 None None "robot0_proprio-state")]
    (Some "agentview_image").


(** The growing run after its reset. *)
Definition growing_run0
  : result TimeStep * FrameStackWrapper GrowingEnv * World :=
  @fs_reset exact_cast GrowingEnv _ None growing_fs empty_world.

(** *** Images and frames, for stating properties *)

(** An image as [_extract_image] accepts it: height [H], width [W] and [C]
    channels, alone or with a leading batch axis that is not empty. *)
Definition image_shaped (raw : ndarray) (H W C : nat) : Prop :=
  shape raw = [H; W; C] \/ exists B, shape raw = [S B; H; W; C].

(** [frame] is the image [raw], or the first image of the batch [raw], with
    the channel axis first: element (c, h, x) of [frame] is element (h, x, c)
    of that image, and [frame] has no other element. *)
Definition channel_first_of (raw frame : ndarray) (H W C : nat) : Prop :=
  dtype frame = dtype raw
  /\ shape frame = [C; H; W]
  /\ length (data frame) = (C * (H * W))%nat
  /\ forall c h x, (c < C)%nat -> (h < H)%nat -> (x < W)%nat ->
       nth (c * (H * W) + (h * W + x)) (data frame) 0%Q
       = nth ((h * W + x) * C + c) (data raw) 0%Q.


(** *** A stub environment with batched images *)

(** An environment whose image comes with a batch axis: every call allocates
    a batch of two images of height 1, width 2 and 3 channels and a
    proprioceptive vector, both filled from the call number. *)
Record BatchEnv := mk_BatchEnv {
  be_calls : nat
}.

Definition batch_image (n : nat) : ndarray :=
  mk_ndarray uint8 [2; 1; 2; 3]%nat
    (map (fun i => inject_Z (Z.of_nat (10 * n + i))) (seq 0 12)).

Definition batch_observe (n : nat) (w : World) : dloc * World :=
  let li := length (arrays w) in
  (length (dicts w),
   mk_World (arrays w ++ [mk_cell true (batch_image n); mk_cell true (stub_vector n)])
            (dicts w ++ [[("agentview_image", li); ("robot0_proprio-state", S li)]])).

#[export] Instance BatchEnv_Environment : Environment BatchEnv := {
  env_reset := fun _ self w =>
    let (d, w') := batch_observe 0 w in
    (Ok (mk_TimeStep FIRST None None d), mk_BatchEnv 0, w');
  env_step := fun _ self w =>
    let n := S (be_calls self) in
    let (d, w') := batch_observe n w in
    (Ok (mk_TimeStep MID (Some 1%float) (Some 1%float) d), mk_BatchEnv n, w');
  env_observation_spec := fun _ =>
    [("agentview_image", Array [2; 1; 2; 3]%nat uint8 "agentview_image");
     ("robot0_proprio-state", Array [2]%nat float64 "robot0_proprio-state")];
  env_action_spec := fun _ => BoundedArray [2]%nat float32 [(-1)%Q] [1%Q] "action"
}.

(** The frame stacker of depth 3 over the batched stub, as [fs_init] builds
    it. *)
Definition batch_fs : FrameStackWrapper BatchEnv :=
  mk_FrameStackWrapper (mk_BatchEnv 0) 3 []
    ["agentview_image"; "robot0_proprio-state"]
    [("agentview_image",
      BoundedArray [9; 1; 2]%nat uint8 [0%Q] [255%Q] "agentview_image");
     ("robot0_proprio-state",
      mk_Spec [2]%nat float32 None None "robot0_proprio-state")]
    (Some "agentview_image").




(** *** What the frame stacker publishes, for stating properties *)

(** The entry [ks'] is what [FrameStackWrapper.__init__] publishes for the
    entry [ks] of the wrapped spec: under the same key, a scalar or vector
    spec with its dtype replaced by float32, an image spec (with or without a
    batch axis) replaced by the bounded uint8 spec of the stacked, channel-first
    image. Specs of rank 2 make the constructor fail; ranks above 4 are left
    open. *)
Definition fs_publishes (num_frames : Z) (ks ks' : string * Spec) : Prop :=
  ks'.1 = ks.1
  /\ match spec_shape ks.2 with
     | [] | [_] => ks'.2 = spec_replace_dtype ks.2 float32
     | [H; W; C] | [_; H; W; C] =>
         ks'.2 = BoundedArray [Z.to_nat (Z.of_nat C * num_frames); H; W] uint8
                   [0%Q] [255%Q] ks.1
     | _ => True
     end.

(** *** An environment that only declares a spec *)

(** Its [reset] and [step] raise; it serves the constructors, which read the
    observation spec and nothing else. *)
Record SpecEnv := mk_SpecEnv {
  se_spec : list (string * Spec)
}.

#[export] Instance SpecEnv_Environment : Environment SpecEnv := {
  env_reset := fun _ self w => (Raise ValueError, self, w);
  env_step := fun _ self w => (Raise ValueError, self, w);
  env_observation_spec := se_spec;
  env_action_spec := fun _ => BoundedArray [2]%nat float32 [(-1)%Q] [1%Q] "action"
}.

(** The environment [make] builds over the stub simulator with camera
    observations and a depth of 1. *)
Definition stub_made
  : ExtendedTimeStepWrapper (FrameStackWrapper (DMEWrapper StubSim)) :=
  mk_ExtendedTimeStepWrapper
    (mk_FrameStackWrapper stub_dme 1 []
       ["robot0_proprio-state"; "agentview_image"]
       [("robot0_proprio-state",
         mk_Spec [2]%nat float32 None None "robot0_proprio-state");
        ("agentview_image",
         BoundedArray [3; 1; 2]%nat uint8 [0%Q] [255%Q] "agentview_image")]
       (Some "agentview_image")).

(** *** Observations against specs, for stating properties *)

(** The observation [d] conforms to [spec] in keys and shapes: it has the keys
    of [spec] in the same order, and under each key an array of the declared
    shape. *)
Definition conforms_shape (w : World) (d : dloc) (spec : list (string * Spec))
  : Prop :=
  exists o, dicts w !! d = Some o
    /\ Forall2 (fun (kv : string * loc) (ks : string * Spec) =>
                  kv.1 = ks.1
                  /\ exists a, content <$> arrays w !! kv.2 = Some a
                               /\ shape a = spec_shape ks.2) o spec.

(** It conforms to [spec]: in keys, shapes and dtypes. *)
Definition conforms (w : World) (d : dloc) (spec : list (string * Spec))
  : Prop :=
  exists o, dicts w !! d = Some o
    /\ Forall2 (fun (kv : string * loc) (ks : string * Spec) =>
                  kv.1 = ks.1
                  /\ exists a, content <$> arrays w !! kv.2 = Some a
                               /\ shape a = spec_shape ks.2
                               /\ dtype a = spec_dtype ks.2) o spec.

(** * Properties *)

(** ** ExtendedTimeStep *)

(** C9: for every extended step record and every field, subscripting with the
    field's name returns the field, subscripting with the field's position
    returns the same value, and the positions follow the declared order
    step_type, reward, discount, observation, action. *)
Theorem getitem_name_and_position (t : ExtendedTimeStep) (f : Field) :
  getitem t (IStr (field_name f)) = Ok (field_value t f)
  /\ getitem t (IInt (Z.of_nat (field_position f))) = Ok (field_value t f)
  /\ nth_error _fields (field_position f) = Some (field_name f)
  /\ map field_name [F_step_type; F_reward; F_discount; F_observation; F_action]
     = _fields.
Proof.
  destruct f; repeat split; reflexivity.
Qed.

(** ** ExtendedTimeStepWrapper *)

Lemma py_or_absent (d : float) : py_or None d = d.
Proof. reflexivity. Qed.

Lemma py_or_present (v d : float) :
  py_or (Some v) d = if (v =? 0)%float then d else v.
Proof. unfold py_or, truthy. now destruct (v =? 0)%float. Qed.

(** A float that compares equal to zero is one of the two zeros. *)
Lemma float_value_zero (v : float) :
  (v =? 0)%float = true -> float_value v = Some 0%Q.
Proof.
  intros Hv. rewrite FloatAxioms.eqb_spec in Hv. unfold float_value.
  change (Prim2SF 0) with (S754_zero false) in Hv.
  destruct (Prim2SF v) as [s|s| |s m e]; simpl in Hv;
    try discriminate; try reflexivity; destruct s; discriminate.
Qed.

(** The reward default is harmless: the defaulted reward denotes the number
    the inner reward denotes. *)
Lemma py_or_reward (v : float) :
  float_value (py_or (Some v) 0) = float_value v.
Proof.
  rewrite py_or_present. destruct (v =? 0)%float eqn:Hv; [|reflexivity].
  now rewrite (float_value_zero v Hv).
Qed.

(** What the augmenter does to reward and discount, for every inner step. *)
Lemma augment_reward_discount `{Environment E} (self : ExtendedTimeStepWrapper E)
  (t : TimeStep) (act : option Action) :
  (match ts_reward t with
   | None => reward (_augment_time_step self t act) = 0%float
   | Some r => reward (_augment_time_step self t act)
               = if (r =? 0)%float then 0%float else r
   end)
  /\ (match ts_discount t with
      | None => discount (_augment_time_step self t act) = 1%float
      | Some d => discount (_augment_time_step self t act)
                  = if (d =? 0)%float then 1%float else d
      end).
Proof.
  unfold _augment_time_step; simpl. split.
  - destruct (ts_reward t); [apply py_or_present | reflexivity].
  - destruct (ts_discount t) as [d|]; [apply py_or_present | reflexivity].
Qed.

(** C1: a step that carries the discount 0.0 is augmented to a record whose
    discount is 1.0, not 0.0: [time_step.discount or 1.0] treats the present
    zero like an absent discount. *)
Theorem augment_zero_discount_becomes_one `{Environment E}
  (self : ExtendedTimeStepWrapper E) (st : StepType) (r : option float)
  (ob : dloc) (act : option Action) :
  discount (_augment_time_step self (mk_TimeStep st r (Some 0%float) ob) act)
  = 1%float
  /\ discount (_augment_time_step self (mk_TimeStep st r (Some 0%float) ob) act)
     <> 0%float.
Proof.
  split; [reflexivity|].
  change (1%float <> 0%float). discriminate.
Qed.

(** ** ActionRepeatWrapper *)

Section ActionRepeat.
Context {E : Type} `{Environment E}.

Lemma inner_steps_app (n m : nat) (act : Action) (env : E) (w : World) :
  inner_steps (n + m) act env w =
  match inner_steps n act env w with
  | (rs, env1, w1) =>
      match inner_steps m act env1 w1 with
      | (rs', env2, w2) => (rs ++ rs', env2, w2)
      end
  end.
Proof.
  revert env w. induction n as [|n IH]; intros env w; simpl.
  - destruct (inner_steps m act env w) as [[rs e'] w']. reflexivity.
  - destruct (env_step act env w) as [[r e1] w1]. rewrite IH.
    destruct (inner_steps n act e1 w1) as [[rs e2] w2].
    destruct (inner_steps m act e2 w2) as [[rs' e3] w3]. reflexivity.
Qed.

Lemma inner_steps_length (n : nat) (act : Action) (env : E) (w : World) :
  length (inner_steps n act env w).1.1 = n.
Proof.
  revert env w. induction n as [|n IH]; intros env w; simpl; [reflexivity|].
  destruct (env_step act env w) as [[r e1] w1]. specialize (IH e1 w1).
  destruct (inner_steps n act e1 w1) as [[rs e2] w2]. simpl in *. lia.
Qed.

(** While the inner steps carry a discount and are not LAST, the loop goes
    on: it has consumed exactly those steps. *)
Lemma ar_loop_prefix (tss : list TimeStep) :
  forall (n m : nat) (act : Action) (vars : ar_locals) (env env' : E)
         (w w' : World),
    inner_steps n act env w = (map Ok tss, env', w') ->
    Forall (fun t => is_Some (ts_discount t) /\ ts_last t = false) tss ->
    ar_loop (n + m) act vars env w
    = ar_loop m act (fold_left ar_iterate tss vars) env' w'.
Proof.
  induction tss as [|t tss IH]; intros n m act vars env env' w w' Hrun Hall.
  - destruct n as [|n]; simpl in Hrun.
    + inversion Hrun; subst. reflexivity.
    + destruct (env_step act env w) as [[r e1] w1].
      destruct (inner_steps n act e1 w1) as [[rs e2] w2]. discriminate.
  - destruct n as [|n]; simpl in Hrun; [discriminate|].
    destruct (env_step act env w) as [[r e1] w1] eqn:Hstep.
    destruct (inner_steps n act e1 w1) as [[rs e2] w2] eqn:Hrest.
    inversion Hrun; subst. inversion Hall as [|? ? [[d Hd] Hlast] Hall']; subst.
    simpl. rewrite Hstep, Hd, Hlast.
    rewrite (IH n m act _ e1 env' w1 w' Hrest Hall').
    do 2 f_equal. unfold ar_iterate. rewrite Hd. reflexivity.
Qed.

Lemma fold_ar_iterate_time_step (tss : list TimeStep) (t : TimeStep)
  (vars : ar_locals) :
  loc_time_step (fold_left ar_iterate (tss ++ [t]) vars) = Some t.
Proof. rewrite fold_left_app. reflexivity. Qed.

Lemma Qpower_nat_succ (g : Q) (i : nat) :
  (g ^ Z.of_nat (S i) == g * g ^ Z.of_nat i)%Q.
Proof.
  rewrite Nat2Z.inj_succ, <- Z.add_1_l.
  rewrite Qpower_plus' by lia. reflexivity.
Qed.

Lemma geometric_sum_shift (g : Q) (k s : nat) :
  (fold_right Qplus 0 (map (fun i => g ^ Z.of_nat i) (seq (S s) k))
   == g * fold_right Qplus 0 (map (fun i => g ^ Z.of_nat i) (seq s k)))%Q.
Proof.
  revert s. induction k as [|k IH]; intros s; cbn [seq map fold_right].
  - ring.
  - rewrite IH, Qpower_nat_succ. ring.
Qed.

Lemma geometric_sum_succ (g : Q) (k : nat) :
  (geometric_sum g (S k) == 1 + g * geometric_sum g k)%Q.
Proof.
  unfold geometric_sum. cbn [seq map fold_right].
  rewrite geometric_sum_shift. reflexivity.
Qed.

(** With a constant reward and a constant discount, the loop runs the
    geometric accumulation. *)
Lemma constant_run_loop (r g : float) (tss : list TimeStep) :
  Forall (fun t => ts_reward t = Some r /\ ts_discount t = Some g) tss ->
  forall vars : ar_locals,
    (loc_reward (fold_left ar_iterate tss vars),
     loc_discount (fold_left ar_iterate tss vars))
    = geometric_loop (py_or (Some r) 0) g (length tss)
        (loc_reward vars) (loc_discount vars).
Proof.
  induction 1 as [|t tss [Hr Hg] _ IH]; intros vars; [reflexivity|].
  cbn [fold_left length geometric_loop]. rewrite IH.
  unfold ar_iterate. cbn [loc_reward loc_discount]. now rewrite Hr, Hg.
Qed.

(** Without rounding the geometric accumulation computes the geometric sum
    and the power. *)
Lemma geometric_loop_exact (r g : float) (rv gv : Q) :
  float_value r = Some rv -> float_value g = Some gv ->
  forall (n : nat) (R D : float) (Rv Dv : Q),
    float_value R = Some Rv -> float_value D = Some Dv ->
    no_rounding r g n R D ->
    exists Rv' Dv',
      float_value (geometric_loop r g n R D).1 = Some Rv'
      /\ float_value (geometric_loop r g n R D).2 = Some Dv'
      /\ (Rv' == Rv + Dv * (rv * geometric_sum gv n))%Q
      /\ (Dv' == Dv * gv ^ Z.of_nat n)%Q.
Proof.
  intros Hr Hg. induction n as [|n IH]; intros R D Rv Dv HR HD Hex.
  - exists Rv, Dv. cbn [geometric_loop fst snd].
    split; [exact HR|]. split; [exact HD|]. split.
    + unfold geometric_sum. simpl. ring.
    + simpl. ring.
  - destruct Hex as [Hm [Ha [Hd Hrest]]].
    destruct Hm as [x1 [y1 [z1 [Hx1 [Hy1 [Hz1 Hm]]]]]].
    rewrite Hr in Hx1. injection Hx1 as <-.
    rewrite HD in Hy1. injection Hy1 as <-.
    destruct Ha as [x2 [y2 [z2 [Hx2 [Hy2 [Hz2 Ha]]]]]].
    rewrite HR in Hx2. injection Hx2 as <-.
    rewrite Hz1 in Hy2. injection Hy2 as <-.
    destruct Hd as [x3 [y3 [z3 [Hx3 [Hy3 [Hz3 Hd]]]]]].
    rewrite HD in Hx3. injection Hx3 as <-.
    rewrite Hg in Hy3. injection Hy3 as <-.
    destruct (IH _ _ z2 z3 Hz2 Hz3 Hrest) as [Rv' [Dv' [H1 [H2 [H3 H4]]]]].
    exists Rv', Dv'. cbn [geometric_loop].
    split; [exact H1|]. split; [exact H2|]. split.
    + rewrite H3, Ha, Hm, Hd, geometric_sum_succ. ring.
    + rewrite H4, Hd, Qpower_nat_succ. ring.
Qed.

(** Outcomes that are all steps are the image of a list of steps. *)
Lemma outcomes_all_ok (P : TimeStep -> Prop) (outs : list (result TimeStep)) :
  Forall (fun o => exists t, o = Ok t /\ P t) outs ->
  exists tss, outs = map Ok tss /\ Forall P tss.
Proof.
  induction 1 as [|o outs [t [-> Ht]] _ [tss [-> Htss]]].
  - exists []. split; [reflexivity | constructor].
  - exists (t :: tss). split; [reflexivity | now constructor].
Qed.

(** C2, amended: with a repeat count K >= 1, when each of the K inner steps
    carries the reward r and the discount g and none is LAST, [step] returns
    a step whose reward and discount are the floating-point accumulation of
    the loop, ((0.0 + r * 1.0) + r * g_1) + ... and g_K with g_0 = 1.0 and
    g_(i+1) = g_i * g (a zero reward counting as 0.0). When none of these
    operations rounds, they are r * (1 + g + ... + g^(K-1)) and g^K. *)
Theorem ar_step_geometric (act : Action) (env env' : E) (w w' : World)
  (K : Z) (r g : float) (outs : list (result TimeStep)) :
  (1 <= K)%Z ->
  inner_steps (Z.to_nat K) act env w = (outs, env', w') ->
  Forall (fun o => exists t, o = Ok t
                   /\ (ts_reward t = Some r /\ ts_discount t = Some g)
                   /\ ts_step_type t <> LAST) outs ->
  exists (t : TimeStep) (R D : float),
    ar_step act (mk_ActionRepeatWrapper env K) w
    = (Ok t, mk_ActionRepeatWrapper env' K, w')
    /\ ts_reward t = Some R /\ ts_discount t = Some D
    /\ (R, D) = geometric_loop (py_or (Some r) 0) g (Z.to_nat K) 0 1
    /\ (no_rounding (py_or (Some r) 0) g (Z.to_nat K) 0 1 ->
        exists rv gv Rv Dv : Q,
          float_value r = Some rv /\ float_value g = Some gv
          /\ float_value R = Some Rv /\ float_value D = Some Dv
          /\ (Rv == rv * geometric_sum gv (Z.to_nat K))%Q
          /\ (Dv == gv ^ K)%Q).
Proof.
  intros HK Hrun Hall.
  destruct (outcomes_all_ok _ _ Hall) as [tss [-> Htss]].
  assert (Hlen : length tss = Z.to_nat K).
  { pose proof (inner_steps_length (Z.to_nat K) act env w) as Hl.
    rewrite Hrun in Hl. simpl in Hl. now rewrite length_map in Hl. }
  assert (Hgo : Forall (fun t => is_Some (ts_discount t) /\ ts_last t = false) tss).
  { eapply Forall_impl; [exact Htss|]. intros t [[_ Hd] Hl]. split.
    - rewrite Hd. eauto.
    - unfold ts_last. destruct (ts_step_type t); try reflexivity. congruence. }
  assert (Hconst : Forall (fun t => ts_reward t = Some r /\ ts_discount t = Some g) tss).
  { eapply Forall_impl; [exact Htss|]. intros t [Hrg _]. exact Hrg. }
  pose proof (ar_loop_prefix tss (Z.to_nat K) 0 act (mk_ar_locals 0 1 None)
                env env' w w' Hrun Hgo) as Hloop.
  rewrite Nat.add_0_r in Hloop. simpl in Hloop.
  pose proof (constant_run_loop r g tss Hconst (mk_ar_locals 0 1 None)) as Hgeo.
  rewrite Hlen in Hgeo. cbn [loc_reward loc_discount] in Hgeo.
  destruct (exists_last (l := tss)) as [tss' [tl Htl]].
  { intros ->. simpl in Hlen. lia. }
  exists (mk_TimeStep (ts_step_type tl)
            (Some (loc_reward (fold_left ar_iterate tss (mk_ar_locals 0 1 None))))
            (Some (loc_discount (fold_left ar_iterate tss (mk_ar_locals 0 1 None))))
            (ts_observation tl)).
  eexists _, _. split; [|split; [reflexivity|split; [reflexivity|split]]].
  - unfold ar_step. cbn [ar_env _num_repeats]. rewrite Hloop.
    rewrite Htl at 1. rewrite fold_ar_iterate_time_step. reflexivity.
  - exact Hgeo.
  - intros Hex.
    pose proof (f_equal fst Hgeo) as HgR. pose proof (f_equal snd Hgeo) as HgD.
    cbn [fst snd] in HgR, HgD. rewrite HgR, HgD. clear Hgeo HgR HgD.
    destruct (Z.to_nat K) as [|n] eqn:Hn; [lia|].
    assert (Hvals : exists rv gv, float_value (py_or (Some r) 0) = Some rv
                                  /\ float_value g = Some gv).
    { destruct Hex as [[rv [? [? [Hrv _]]]] [_ [[? [gv [? [_ [Hgv _]]]]] _]]].
      eauto. }
    destruct Hvals as [rv [gv [Hrv Hgv]]].
    assert (H0 : float_value 0 = Some 0%Q) by reflexivity.
    assert (H1 : exists v, float_value 1 = Some v /\ (v == 1)%Q).
    { eexists. split; [vm_compute; reflexivity | reflexivity]. }
    destruct H1 as [v1 [H1 Hv1]].
    destruct (geometric_loop_exact _ g rv gv Hrv Hgv (S n) 0 1 0%Q v1 H0 H1 Hex)
      as [Rv [Dv [HRv [HDv [HR HD]]]]].
    exists rv, gv, Rv, Dv. rewrite <- py_or_reward.
    split; [exact Hrv|]. split; [exact Hgv|]. split; [exact HRv|].
    split; [exact HDv|]. split.
    + rewrite HR, Hv1. ring.
    + rewrite HD, Hv1. replace K with (Z.of_nat (S n)) by lia. ring.
Qed.

End ActionRepeat.

Example no_rounding_stub : no_rounding 1 0.5 2 0 1.
Proof.
  repeat split;
    (eexists _, _, _;
     repeat (split; [vm_compute; reflexivity|]); vm_compute; reflexivity).
Qed.

Lemma ar_step_geometric_witness :
  exists (t : TimeStep) (R D : float),
    ar_step stub_action (mk_ActionRepeatWrapper (stub_env 5) 2) empty_world
    = (Ok t,
       mk_ActionRepeatWrapper
         (inner_steps 2 stub_action (stub_env 5) empty_world).1.2 2,
       (inner_steps 2 stub_action (stub_env 5) empty_world).2)
    /\ ts_reward t = Some R /\ ts_discount t = Some D
    /\ (R, D) = geometric_loop (py_or (Some 1%float) 0) 0.5 (Z.to_nat 2) 0 1
    /\ (no_rounding (py_or (Some 1%float) 0) 0.5 (Z.to_nat 2) 0 1 ->
        exists rv gv Rv Dv : Q,
          float_value 1 = Some rv /\ float_value 0.5 = Some gv
          /\ float_value R = Some Rv /\ float_value D = Some Dv
          /\ (Rv == rv * geometric_sum gv (Z.to_nat 2))%Q
          /\ (Dv == gv ^ 2)%Q).
Proof.
  apply (ar_step_geometric stub_action (stub_env 5) _ empty_world _ 2 1 0.5
           (inner_steps 2 stub_action (stub_env 5) empty_world).1.1).
  - lia.
  - reflexivity.
  - simpl.
    repeat (apply List.Forall_cons;
            [eexists; repeat split; try reflexivity; discriminate|]).
    apply List.Forall_nil.
Defined.

(** C2 does not hold as stated: with the reward 0.7 and the discount 0.1 on
    each of two inner steps, neither of them LAST, [step] returns the reward
    0.7699999999999999 and the discount 0.010000000000000002; rounding has
    moved both off r * (1 + g) and g^2. *)
Lemma ar_step_geometric_rounded :
  exists (t : TimeStep) (R D : float) (rv gv Rv Dv : Q),
    Forall (fun o => exists t, o = Ok t
                     /\ (ts_reward t = Some float_0_7
                         /\ ts_discount t = Some float_0_1)
                     /\ ts_step_type t <> LAST)
      (inner_steps 2 stub_action
         (mk_StubEnv 0 5 (Some float_0_7) (Some float_0_1)) empty_world).1.1
    /\ (ar_step stub_action
          (mk_ActionRepeatWrapper
             (mk_StubEnv 0 5 (Some float_0_7) (Some float_0_1)) 2)
          empty_world).1.1 = Ok t
    /\ ts_reward t = Some R /\ ts_discount t = Some D
    /\ R = 0x1.8a3d70a3d70a3p-1%float /\ D = 0x1.47ae147ae147cp-7%float
    /\ float_value float_0_7 = Some rv /\ float_value float_0_1 = Some gv
    /\ float_value R = Some Rv /\ float_value D = Some Dv
    /\ ~ (Rv == rv * geometric_sum gv 2)%Q
    /\ ~ (Dv == gv ^ 2)%Q
    /\ R <> (float_0_7 * (1 + float_0_1))%float.
Proof.
  eexists _, _, _, _, _, _, _. split.
  { simpl.
    repeat (apply List.Forall_cons;
            [eexists; repeat split; try reflexivity; discriminate|]).
    apply List.Forall_nil. }
  split; [vm_compute; reflexivity|].
  split; [reflexivity|]. split; [reflexivity|].
  split; [reflexivity|]. split; [reflexivity|].
  split; [vm_compute; reflexivity|]. split; [vm_compute; reflexivity|].
  split; [vm_compute; reflexivity|]. split; [vm_compute; reflexivity|].
  split; [|split].
  - intros Heq. vm_compute in Heq. discriminate Heq.
  - intros Heq. vm_compute in Heq. discriminate Heq.
  - intros Heq. vm_compute in Heq. discriminate Heq.
Qed.

Lemma repeats_split (K : Z) (n : nat) :
  (Z.of_nat n < K)%Z -> Z.to_nat K = (n + S (Z.to_nat K - S n))%nat.
Proof. lia. Qed.

Lemma inner_steps_counter `{Environment E} (n : nat) (act : Action) (env : E)
  (c : nat) (w : World) :
  inner_steps n act (mk_CallCounter env c) w =
  match inner_steps n act env w with
  | (rs, env', w') => (rs, mk_CallCounter env' (c + n), w')
  end.
Proof.
  revert env c w. induction n as [|n IH]; intros env c w; simpl.
  - now rewrite Nat.add_0_r.
  - destruct (env_step act env w) as [[r e1] w1]. rewrite IH.
    destruct (inner_steps n act e1 w1) as [[rs e2] w2].
    now rewrite Nat.add_succ_r.
Qed.

(** C3: with a repeat count K >= 1, when the first LAST step of the wrapped
    environment comes at inner-step index i < K (and the inner steps carry
    their discounts), [step] invokes the wrapped [step] exactly i+1 times and
    returns a LAST step whose reward and discount are the discounted sum and
    the discount product of those i+1 steps, as the loop accumulates them in
    floating point. *)
Theorem ar_step_early_last `{Environment E} (act : Action) (env env' : E)
  (w w' : World) (K : Z) (i c : nat) (tss : list TimeStep) (tl : TimeStep) :
  (Z.of_nat i < K)%Z ->
  inner_steps (S i) act env w = (map Ok (tss ++ [tl]), env', w') ->
  Forall (fun t => ts_step_type t <> LAST) tss ->
  ts_step_type tl = LAST ->
  Forall (fun t => is_Some (ts_discount t)) (tss ++ [tl]) ->
  exists (t : TimeStep) (R D : float),
    ar_step act (mk_ActionRepeatWrapper (mk_CallCounter env c) K) w
    = (Ok t, mk_ActionRepeatWrapper (mk_CallCounter env' (c + (i + 1))) K, w')
    /\ ts_step_type t = LAST
    /\ ts_observation t = ts_observation tl
    /\ ts_reward t = Some R /\ ts_discount t = Some D
    /\ R = discounted_return (tss ++ [tl])
    /\ D = discount_product (tss ++ [tl]).
Proof.
  intros HK Hrun Hmid Hlast Hdisc.
  assert (Hlen : length tss = i).
  { pose proof (inner_steps_length (S i) act env w) as Hl.
    rewrite Hrun in Hl. simpl in Hl.
    rewrite length_map, length_app in Hl. simpl in Hl. lia. }
  apply Forall_app in Hdisc as [Hdisc Hdl].
  inversion Hdl as [|? ? [d Hd] _]; subst.
  (* the run splits into the first i steps and the LAST one *)
  replace (S (length tss)) with (length tss + 1)%nat in Hrun by lia.
  rewrite inner_steps_app in Hrun.
  destruct (inner_steps (length tss) act env w) as [[rs e1] w1] eqn:Hpre.
  simpl in Hrun. destruct (env_step act e1 w1) as [[rl e2] w2] eqn:Hstep.
  rewrite map_app in Hrun. simpl in Hrun.
  assert (Hrs : length rs = length (map Ok tss)).
  { pose proof (inner_steps_length (length tss) act env w) as Hl.
    rewrite Hpre in Hl. simpl in Hl. now rewrite length_map. }
  inversion Hrun as [[Happ He Hw]]. subst e2 w2.
  apply app_inj_1 in Happ as [-> Hrl]; [|exact Hrs].
  inversion Hrl; subst rl.
  (* the same run, seen through the call counter *)
  pose proof (inner_steps_counter (length tss) act env c w) as Hcpre.
  rewrite Hpre in Hcpre.
  assert (Hgo : Forall (fun t => is_Some (ts_discount t) /\ ts_last t = false) tss).
  { apply Forall_forall. intros t Ht.
    rewrite Forall_forall in Hdisc, Hmid. split; [now apply Hdisc|].
    specialize (Hmid t Ht). unfold ts_last.
    destruct (ts_step_type t); try reflexivity. congruence. }
  pose proof (repeats_split K (length tss) HK) as HKn.
  set (vars := fold_left ar_iterate tss (mk_ar_locals 0 1 None)).
  exists (mk_TimeStep LAST (Some (loc_reward (ar_iterate vars tl)))
            (Some (loc_discount (ar_iterate vars tl))) (ts_observation tl)).
  eexists _, _. split; [|repeat split].
  - unfold ar_step. cbn [ar_env _num_repeats]. rewrite HKn.
    rewrite (ar_loop_prefix tss _ _ act _ _ _ _ _ Hcpre Hgo).
    fold vars. cbn [ar_loop env_step CallCounter_Environment cc_env cc_steps].
    rewrite Hstep, Hd. unfold ts_last. rewrite Hlast. cbn.
    rewrite Hlast, Hd.
    replace (c + (length tss + 1))%nat with (S (c + length tss)) by lia.
    reflexivity.
  - unfold discounted_return. now rewrite fold_left_app.
  - unfold discount_product. now rewrite fold_left_app.
Qed.

Lemma ar_step_early_last_witness :
  exists (t : TimeStep) (R D : float),
    ar_step stub_action
      (mk_ActionRepeatWrapper (mk_CallCounter (stub_env 2) 0) 3) empty_world
    = (Ok t,
       mk_ActionRepeatWrapper
         (mk_CallCounter (inner_steps 2 stub_action (stub_env 2) empty_world).1.2
            (0 + (1 + 1))) 3,
       (inner_steps 2 stub_action (stub_env 2) empty_world).2)
    /\ ts_step_type t = LAST
    /\ ts_observation t = 1%nat
    /\ ts_reward t = Some R /\ ts_discount t = Some D
    /\ R = 1.5%float
    /\ D = 0.25%float.
Proof.
  destruct (ar_step_early_last stub_action (stub_env 2)
              (inner_steps 2 stub_action (stub_env 2) empty_world).1.2
              empty_world
              (inner_steps 2 stub_action (stub_env 2) empty_world).2
              3 1 0
              [mk_TimeStep MID (Some 1%float) (Some 0.5%float) 0%nat]
              (mk_TimeStep LAST (Some 1%float) (Some 0.5%float) 1%nat))
    as [t [R [D [Hs [Hl [Ho [Hr [Hd [HR HD]]]]]]]]].
  - lia.
  - reflexivity.
  - repeat constructor. discriminate.
  - reflexivity.
  - repeat constructor; simpl; eauto.
  - exists t, R, D. repeat split; assumption.
Defined.

(** C8: with a repeat count of zero (or below) the loop body never runs:
    [step] invokes the wrapped [step] not once, leaves the environment and the
    store as they were, and fails on the unbound [time_step] instead of
    returning a step. *)
Theorem ar_step_without_repeats `{Environment E} (act : Action) (env : E)
  (c : nat) (K : Z) (w : World) :
  (K <= 0)%Z ->
  ar_step act (mk_ActionRepeatWrapper (mk_CallCounter env c) K) w
  = (Raise UnboundLocalError,
     mk_ActionRepeatWrapper (mk_CallCounter env c) K, w).
Proof.
  intros HK. unfold ar_step. cbn [ar_env _num_repeats].
  replace (Z.to_nat K) with 0%nat by lia. reflexivity.
Qed.

Lemma ar_step_without_repeats_witness :
  ar_step stub_action
    (mk_ActionRepeatWrapper (mk_CallCounter (stub_env 5) 0) 0) empty_world
  = (Raise UnboundLocalError,
     mk_ActionRepeatWrapper (mk_CallCounter (stub_env 5) 0) 0, empty_world).
Proof.
  apply (ar_step_without_repeats stub_action (stub_env 5) 0 0 empty_world).
  lia.
Defined.

(** ** The store monad *)

Lemma bind_ok {A B} (m : M A) (k : A -> M B) (w : World) (a : A) (w' : World) :
  m w = (Ok a, w') -> bind m k w = k a w'.
Proof. intros Hm. unfold bind. now rewrite Hm. Qed.

Lemma bind_raise {A B} (m : M A) (k : A -> M B) (w : World) (e : PyError)
  (w' : World) :
  m w = (Raise e, w') -> bind m k w = (Raise e, w').
Proof. intros Hm. unfold bind. now rewrite Hm. Qed.

(** ** DMEWrapper *)

Lemma odict_get_set_eq (o : odict) (k : string) (v : loc) :
  odict_get (odict_set o k v) k = Some v.
Proof.
  induction o as [|[k' v'] o IH]; simpl.
  - now rewrite String.eqb_refl.
  - destruct (String.eqb k k') eqn:Ek; simpl; rewrite Ek; [reflexivity | exact IH].
Qed.

Lemma odict_get_set_ne (o : odict) (k k0 : string) (v : loc) :
  k0 <> k -> odict_get (odict_set o k v) k0 = odict_get o k0.
Proof.
  intros Hne. induction o as [|[k' v'] o IH]; simpl.
  - destruct (String.eqb k0 k) eqn:E; [|reflexivity].
    apply String.eqb_eq in E. contradiction.
  - destruct (String.eqb k k') eqn:Ek; simpl.
    + apply String.eqb_eq in Ek. subst k'.
      destruct (String.eqb k0 k) eqn:E; [|reflexivity].
      apply String.eqb_eq in E. contradiction.
    + destruct (String.eqb k0 k'); [reflexivity | exact IH].
Qed.

Lemma odict_keys_set (o : odict) (k : string) (v : loc) :
  odict_keys (odict_set o k v) = add_key (odict_keys o) k.
Proof.
  unfold add_key, odict_keys. induction o as [|[k' v'] o IH]; simpl.
  - reflexivity.
  - destruct (String.eqb k k') eqn:Ek; simpl; [reflexivity|].
    rewrite IH. destruct (existsb (String.eqb k) (map fst o)); reflexivity.
Qed.

Lemma add_key_fresh (acc : list string) (k : string) :
  ~ In k acc -> add_key acc k = acc ++ [k].
Proof.
  intros Hk. unfold add_key.
  destruct (existsb (String.eqb k) acc) eqn:Ex; [|reflexivity].
  apply existsb_exists in Ex as [x [Hx Hkx]].
  apply String.eqb_eq in Hkx. subst x. contradiction.
Qed.

Lemma fold_add_key_NoDup (ks acc : list string) :
  List.NoDup (acc ++ ks) -> fold_left add_key ks acc = acc ++ ks.
Proof.
  revert acc. induction ks as [|k ks IH]; intros acc Hnd; simpl.
  - now rewrite app_nil_r.
  - rewrite add_key_fresh.
    + rewrite IH; rewrite <- app_assoc; [reflexivity | exact Hnd].
    + apply NoDup_remove_2 in Hnd. intros Hin. apply Hnd.
      apply in_or_app. now left.
Qed.

Lemma fold_add_key_In (ks acc : list string) (k : string) :
  In k (fold_left add_key ks acc) <-> In k acc \/ In k ks.
Proof.
  revert acc. induction ks as [|k0 ks IH]; intros acc; simpl.
  - tauto.
  - rewrite IH. unfold add_key.
    destruct (existsb (String.eqb k0) acc) eqn:Ex.
    + apply existsb_exists in Ex as [x [Hx Hkx]].
      apply String.eqb_eq in Hkx. subst x.
      split; [tauto|]. intros [Ha|[<-|Hk]]; tauto.
    + rewrite in_app_iff. simpl. tauto.
Qed.

Lemma ordered_keys_In (ks : list string) (k : string) :
  In k (ordered_keys ks) <-> In k ks.
Proof. unfold ordered_keys. rewrite fold_add_key_In. simpl. tauto. Qed.

(** Without repeated keys, the order of first assignment is the given one. *)
Lemma ordered_keys_NoDup (ks : list string) :
  List.NoDup ks -> ordered_keys ks = ks.
Proof. intros Hnd. apply (fold_add_key_NoDup ks []). exact Hnd. Qed.

(** Recording that an array escaped does not touch any array's content. *)
Lemma map_content_mark (v : loc) (l : list cell) :
  map content (alter mark_escaped v l) = map content l.
Proof.
  revert v. induction l as [|c l IH]; intros [|v]; try reflexivity.
  change (alter mark_escaped (S v) (c :: l)) with (c :: alter mark_escaped v l).
  simpl. now rewrite IH.
Qed.

(** The loop of [_extract_obs]: what the new dictionary holds after the keys
    [ks] were copied from the dictionary [o]. *)
Lemma extract_loop (o : odict) (raw nd : dloc) (ks : list string) :
  forall (acc : odict) (w : World),
    raw <> nd ->
    dicts w !! raw = Some o ->
    dicts w !! nd = Some acc ->
    Forall (fun k => is_Some (odict_get o k)) ks ->
    exists (w' : World) (acc' : odict),
      for_each (fun key => let* v := dict_getitem raw key in
                           dict_setitem nd key v) ks w = (Ok tt, w')
      /\ dicts w' !! raw = Some o
      /\ dicts w' !! nd = Some acc'
      /\ length (dicts w') = length (dicts w)
      /\ odict_keys acc' = fold_left add_key ks (odict_keys acc)
      /\ (forall k, In k ks -> odict_get acc' k = odict_get o k)
      /\ (forall k, ~ In k ks -> odict_get acc' k = odict_get acc k)
      /\ map content (arrays w') = map content (arrays w).
Proof.
  induction ks as [|k ks IH]; intros acc w Hne Hraw Hnd Hall.
  - exists w, acc. simpl. unfold ret. repeat split; try assumption; try reflexivity.
    intros k [].
  - inversion Hall as [|? ? [v Hv] Hall']; subst.
    set (w1 := mk_World (alter mark_escaped v (arrays w))
                        (<[nd := odict_set acc k v]> (dicts w))).
    assert (Hstep : (let* v := dict_getitem raw k in dict_setitem nd k v) w
                    = (Ok tt, w1)).
    { unfold bind, dict_getitem, bind, read_dict, ret, dict_setitem.
      rewrite Hraw, Hv, Hnd. reflexivity. }
    assert (Hlt : (nd < length (dicts w))%nat) by (eapply lookup_lt_Some; eauto).
    destruct (IH (odict_set acc k v) w1 Hne) as
      [w' [acc' [Hrun [Hraw' [Hnd' [Hlen [Hkeys [Hin [Hout Hcon]]]]]]]]].
    + simpl. rewrite list_lookup_insert_ne by auto. exact Hraw.
    + simpl. apply list_lookup_insert_eq. exact Hlt.
    + exact Hall'.
    + exists w', acc'. cbn [for_each]. unfold bind at 1. rewrite Hstep.
      repeat split; try assumption.
      * rewrite Hlen. simpl. apply length_insert.
      * rewrite Hkeys, odict_keys_set. reflexivity.
      * intros k0 [<-|Hk0]; [|now apply Hin].
        destruct (in_dec string_dec k ks) as [Hk|Hk]; [now apply Hin|].
        rewrite (Hout k Hk), odict_get_set_eq. now symmetry.
      * intros k0 Hk0. rewrite Hout by (intros Hin0; apply Hk0; now right).
        apply odict_get_set_ne. intros ->. apply Hk0. now left.
      * rewrite Hcon. simpl. apply map_content_mark.
Qed.

Lemma extract_obs_ok (ks : list string) (raw : dloc) (o : odict) (w : World) :
  dicts w !! raw = Some o ->
  Forall (fun k => is_Some (odict_get o k)) ks ->
  exists (w' : World) (o' : odict),
    _extract_obs ks raw w = (Ok (length (dicts w)), w')
    /\ dicts w' !! raw = Some o
    /\ dicts w' !! length (dicts w) = Some o'
    /\ odict_keys o' = ordered_keys ks
    /\ (forall k, In k ks -> odict_get o' k = odict_get o k)
    /\ map content (arrays w') = map content (arrays w).
Proof.
  intros Hraw Hall.
  assert (Hlt : (raw < length (dicts w))%nat) by (eapply lookup_lt_Some; eauto).
  destruct (extract_loop o raw (length (dicts w)) ks []
              (mk_World (arrays w) (dicts w ++ [[]])))
    as [w' [o' [Hrun [Hraw' [Hnd' [_ [Hkeys [Hin [_ Hcon]]]]]]]]].
  - lia.
  - simpl. rewrite lookup_app_l by exact Hlt. exact Hraw.
  - simpl. rewrite lookup_app_r by lia. now rewrite Nat.sub_diag.
  - exact Hall.
  - exists w', o'. unfold _extract_obs.
    rewrite (bind_ok (alloc_dict []) _ w (length (dicts w))
               (mk_World (arrays w) (dicts w ++ [[]])) eq_refl).
    rewrite (bind_ok _ _ _ tt w' Hrun).
    repeat split; assumption.
Qed.

(** C6: for every action, when the simulator's step returns an observation
    that holds the retained keys, [DMEWrapper.step] passes the action to the
    simulator and returns a step whose observation is a new mapping with
    exactly the retained keys in the configured order (each with the
    simulator's array), whose phase is LAST if the simulator reported done and
    MID otherwise, whose reward is the simulator's and whose discount is 1.0. *)
Theorem dme_step_filters `{Simulator Sim} (act : Action) (self : DMEWrapper Sim)
  (w w1 : World) (sim' : Sim) (raw : dloc) (rew : float) (done : bool) (o : odict) :
  sim_step act (dme_env self) w = (Ok (raw, rew, done), sim', w1) ->
  dicts w1 !! raw = Some o ->
  Forall (fun k => is_Some (odict_get o k)) (keys self) ->
  exists (t : TimeStep) (w2 : World) (o' : odict),
    dme_step act self w
    = (Ok t,
       mk_DMEWrapper sim' (keys self) (dme_observation_spec self)
         (dme_action_spec self),
       w2)
    /\ dicts w2 !! ts_observation t = Some o'
    /\ ts_observation t <> raw
    /\ odict_keys o' = ordered_keys (keys self)
    /\ (List.NoDup (keys self) -> odict_keys o' = keys self)
    /\ (forall k, In k (odict_keys o') <-> In k (keys self))
    /\ (forall k, In k (keys self) -> odict_get o' k = odict_get o k)
    /\ ts_step_type t = (if done then LAST else MID)
    /\ ts_reward t = Some rew
    /\ ts_discount t = Some 1%float.
Proof.
  intros Hsim Hraw Hall.
  destruct (extract_obs_ok (keys self) raw o w1 Hraw Hall)
    as [w2 [o' [Hex [_ [Hnd [Hkeys [Hin _]]]]]]].
  exists (mk_TimeStep (if done then LAST else MID) (Some rew) (Some 1%float)
            (length (dicts w1))), w2, o'.
  unfold dme_step. rewrite Hsim, Hex.
  repeat split; try assumption; try reflexivity.
  - simpl. apply lookup_lt_Some in Hraw. lia.
  - intros Hnd'. rewrite Hkeys. now apply ordered_keys_NoDup.
  - rewrite Hkeys. apply ordered_keys_In.
  - rewrite Hkeys. apply ordered_keys_In.
Qed.

Lemma dme_step_filters_witness :
  exists (t : TimeStep) (w2 : World) (o' : odict),
    dme_step stub_action stub_dme empty_world
    = (Ok t,
       mk_DMEWrapper (mk_StubSim 1 5) (keys stub_dme)
         (dme_observation_spec stub_dme) (dme_action_spec stub_dme),
       w2)
    /\ dicts w2 !! ts_observation t = Some o'
    /\ ts_observation t <> 0%nat
    /\ odict_keys o' = ordered_keys (keys stub_dme)
    /\ (List.NoDup (keys stub_dme) -> odict_keys o' = keys stub_dme)
    /\ (forall k, In k (odict_keys o') <-> In k (keys stub_dme))
    /\ (forall k, In k (keys stub_dme) ->
        odict_get o' k
        = odict_get [("agentview_image", 0%nat); ("robot0_proprio-state", 1%nat);
                     ("object-state", 2%nat)] k)
    /\ ts_step_type t = (if false then LAST else MID)
    /\ ts_reward t = Some 1%float
    /\ ts_discount t = Some 1%float.
Proof.
  apply (dme_step_filters stub_action stub_dme empty_world
           (stub_sim_observe 1 empty_world).2 (mk_StubSim 1 5) 0%nat 1%float false
           [("agentview_image", 0%nat); ("robot0_proprio-state", 1%nat);
            ("object-state", 2%nat)]).
  - reflexivity.
  - reflexivity.
  - simpl. repeat (apply List.Forall_cons; [simpl; eauto|]). apply List.Forall_nil.
Defined.

(** ** The transformation of observations *)

Section Transform.
Context `{Float32Cast}.
Implicit Types (w : World) (o : odict) (ob : dloc) (frames : list (option loc)).

Lemma odict_set_middle (done rest : odict) (k : string) (v l : loc) :
  ~ In k (odict_keys done) ->
  odict_set (done ++ (k, v) :: rest) k l = done ++ (k, l) :: rest.
Proof.
  induction done as [|[k' v'] done IH]; intros Hk; simpl.
  - now rewrite String.eqb_refl.
  - destruct (String.eqb k k') eqn:Ek.
    + apply String.eqb_eq in Ek. subst k'. exfalso. apply Hk. now left.
    + rewrite IH; [reflexivity|]. intros Hin. apply Hk. now right.
Qed.

Lemma alter_fresh (l : list cell) (c : cell) :
  alter mark_escaped (length l) (l ++ [c]) = l ++ [mark_escaped c].
Proof.
  replace (length l) with (length l + 0)%nat at 1 by lia.
  now rewrite alter_app_r.
Qed.

Lemma odict_keys_relocate (base : loc) o :
  odict_keys (relocate base o) = odict_keys o.
Proof.
  revert base. induction o as [|[k v] o IH]; intros base; simpl;
    [reflexivity | now rewrite IH].
Qed.

Lemma frames_hold_extend w frames arrs (more : list cell) (dc : list odict) :
  frames_hold w frames arrs ->
  frames_hold (mk_World (arrays w ++ more) dc) frames arrs.
Proof.
  unfold frames_hold. intros Hh. eapply Forall2_impl; [exact Hh|].
  intros f a [l [-> Hl]]. exists l. split; [reflexivity|]. simpl.
  destruct (arrays w !! l) as [c|] eqn:Hc; [|discriminate].
  now rewrite (lookup_app_l_Some _ _ _ _ Hc).
Qed.

Lemma read_frames_ok w frames arrs :
  frames_hold w frames arrs -> read_frames frames w = (Ok arrs, w).
Proof.
  induction 1 as [|f a frames arrs [l [-> Hl]] _ IH]; [reflexivity|].
  cbn [read_frames].
  destruct (arrays w !! l) as [c|] eqn:Hc; [|discriminate].
  injection Hl as <-.
  rewrite (bind_ok (read_array l) _ w (content c) w)
    by (unfold read_array; now rewrite Hc).
  rewrite (bind_ok _ _ _ _ _ IH). reflexivity.
Qed.

(** One iteration of the loop rebinds the entry to a new array. *)
Lemma transform_item_ok (image_key : option string) (num_frames : Z) frames ob
  (vis : ndarray) (done rest : odict) (k : string) (v : loc) w :
  dicts w !! ob = Some (done ++ (k, v) :: rest) ->
  ~ In k (odict_keys done) ->
  is_Some (arrays w !! v) ->
  Some k <> image_key \/ stack_ready num_frames frames w vis ->
  fs_transform_item image_key num_frames frames ob (k, v) w
  = (Ok tt,
     mk_World
       (arrays w ++ [mk_cell true (transformed_entry image_key vis w (k, v))])
       (<[ob := done ++ (k, length (arrays w)) :: rest]> (dicts w))).
Proof.
  intros Hob Hk [c Hc] Hready.
  unfold fs_transform_item, transformed_entry. cbn [fst snd].
  destruct (decide (Some k = image_key)) as [Hik|Hik].
  - destruct Hready as [Hne | [arrs [Hlen [Hhold Hcat]]]]; [contradiction|].
    rewrite (proj2 (Z.eqb_eq _ _) Hlen).
    rewrite (bind_ok _ _ _ _ _ (read_frames_ok w frames arrs Hhold)).
    rewrite (bind_ok (lift (concatenate arrs)) _ w vis w)
      by (unfold lift; now rewrite Hcat).
    rewrite (bind_ok (alloc_array vis) _ w (length (arrays w))
               (mk_World (arrays w ++ [mk_cell false vis]) (dicts w)) eq_refl).
    unfold dict_setitem. cbn [dicts arrays]. rewrite Hob.
    now rewrite alter_fresh, odict_set_middle.
  - rewrite Hc.
    rewrite (bind_ok (read_array v) _ w (content c) w)
      by (unfold read_array; now rewrite Hc).
    rewrite (bind_ok (alloc_array (astype_float32 (content c))) _ w
               (length (arrays w))
               (mk_World (arrays w ++ [mk_cell false (astype_float32 (content c))])
                  (dicts w)) eq_refl).
    unfold dict_setitem. cbn [dicts arrays]. rewrite Hob.
    now rewrite alter_fresh, odict_set_middle.
Qed.

Lemma transformed_entry_extend (image_key : option string) (vis : ndarray) w
  (more : list cell) (dc : list odict) (rest : odict) :
  Forall (fun kv => is_Some (arrays w !! kv.2)) rest ->
  map (fun kv => mk_cell true
                   (transformed_entry image_key vis
                      (mk_World (arrays w ++ more) dc) kv)) rest
  = map (fun kv => mk_cell true (transformed_entry image_key vis w kv)) rest.
Proof.
  intros Hall. apply map_ext_in. intros kv Hkv.
  rewrite Forall_forall in Hall. rewrite <- list_elem_of_In in Hkv.
  destruct (Hall kv Hkv) as [c Hc].
  unfold transformed_entry. simpl.
  now rewrite (lookup_app_l_Some _ _ _ _ Hc), Hc.
Qed.

(** The whole loop: every entry of the dictionary is rebound, in order, to a
    new array; nothing else in the store changes. *)
Lemma transform_loop_ok (image_key : option string) (num_frames : Z) frames ob
  (vis : ndarray) (rest : odict) :
  forall (done : odict) w,
    dicts w !! ob = Some (done ++ rest) ->
    List.NoDup (odict_keys (done ++ rest)) ->
    Forall (fun kv => is_Some (arrays w !! kv.2)) rest ->
    Forall (fun kv => Some kv.1 <> image_key) rest
    \/ stack_ready num_frames frames w vis ->
    for_each (fs_transform_item image_key num_frames frames ob) rest w
    = (Ok tt,
       mk_World
         (arrays w
          ++ map (fun kv => mk_cell true (transformed_entry image_key vis w kv))
               rest)
         (<[ob := done ++ relocate (length (arrays w)) rest]> (dicts w))).
Proof.
  induction rest as [|[k v] rest IH]; intros done w Hob Hnd Hval Hready.
  - cbn [for_each map relocate]. unfold ret. rewrite !app_nil_r.
    rewrite app_nil_r in Hob. rewrite (list_insert_id _ _ _ Hob).
    now destruct w.
  - inversion Hval as [|? ? Hv Hval']; subst.
    assert (Hk : ~ In k (odict_keys done)).
    { unfold odict_keys in *. rewrite map_app in Hnd. simpl in Hnd.
      apply NoDup_remove_2 in Hnd. intros Hin. apply Hnd.
      apply in_or_app. now left. }
    assert (Hlt : (ob < length (dicts w))%nat) by (eapply lookup_lt_Some; eauto).
    cbn [for_each].
    rewrite (bind_ok _ _ _ _ _
               (transform_item_ok image_key num_frames frames ob vis done rest
                  k v w Hob Hk Hv
                  (match Hready with
                   | or_introl Hne => or_introl (Forall_inv Hne)
                   | or_intror Hr => or_intror Hr
                   end))).
    rewrite (IH (done ++ [(k, length (arrays w))])).
    + cbn [arrays dicts map relocate].
      rewrite transformed_entry_extend by exact Hval'.
      rewrite list_insert_insert_eq, length_app. cbn [length].
      rewrite Nat.add_1_r, <- !app_assoc. reflexivity.
    + cbn [dicts]. rewrite list_lookup_insert_eq by exact Hlt.
      now rewrite <- app_assoc.
    + unfold odict_keys in *. rewrite <- app_assoc. cbn [app].
      rewrite map_app in *. exact Hnd.
    + cbn [arrays]. eapply Forall_impl; [exact Hval'|].
      intros kv [c Hc]. exists c. now apply lookup_app_l_Some.
    + destruct Hready as [Hne | [arrs [Hlen [Hhold Hcat]]]].
      * left. now inversion Hne.
      * right. exists arrs. repeat split; try assumption.
        now apply frames_hold_extend.
Qed.

End Transform.

(** ** The frame buffer and numpy *)

Lemma deque_append_lastn {A} (n : nat) (d : list A) (x : A) :
  deque_append n d x = lastn n (d ++ [x]).
Proof. reflexivity. Qed.

Lemma lastn_app_lastn {A} (n : nat) (l k : list A) :
  lastn n (lastn n l ++ k) = lastn n (l ++ k).
Proof.
  unfold lastn. rewrite !length_app, length_drop.
  rewrite !drop_app, drop_drop, length_drop.
  destruct (le_lt_dec (length l) n) as [Hle|Hgt].
  - replace (length l - n)%nat with 0%nat by lia.
    rewrite !Nat.sub_0_r, !Nat.add_0_l. reflexivity.
  - f_equal; f_equal; lia.
Qed.

Lemma append_n_lastn {A} (n m : nat) (d : list A) (x : A) :
  append_n n (S m) d x = lastn n (d ++ repeat x (S m)).
Proof.
  revert d. induction m as [|m IH]; intros d.
  - reflexivity.
  - change (append_n n (S (S m)) d x)
      with (append_n n (S m) (deque_append n d x) x).
    rewrite IH, deque_append_lastn, lastn_app_lastn, <- app_assoc.
    reflexivity.
Qed.

(** [reset] fills the buffer: whatever it held, it holds [n] times the new
    entry afterwards. *)
Lemma append_n_full {A} (n : nat) (d : list A) (x : A) :
  append_n (S n) (S n) d x = repeat x (S n).
Proof.
  rewrite append_n_lastn. unfold lastn.
  rewrite length_app, repeat_length.
  replace (length d + S n - S n)%nat with (length d) by lia.
  apply drop_app_length.
Qed.


Lemma lastn_length {A} (n : nat) (l : list A) :
  (n <= length l)%nat -> length (lastn n l) = n.
Proof. intros Hn. unfold lastn. rewrite length_drop. lia. Qed.


Lemma lookup_map {A B} (f : A -> B) (l : list A) (i : nat) :
  map f l !! i = f <$> l !! i.
Proof.
  revert i. induction l as [|a l IH]; intros [|i]; try reflexivity. apply IH.
Qed.

Lemma promote_idem (d : DType) : promote d d = d.
Proof. now destruct d. Qed.

(** Stackable arrays concatenate; the first axis of the result is the sum of
    theirs and its elements are theirs in order. *)
Lemma concatenate_stackable (tl : list nat) (l : list ndarray) :
  l <> [] -> stackable tl l ->
  exists vis, concatenate l = Ok vis
              /\ shape vis = fold_right Nat.add 0%nat (map (fun a => hd 0%nat (shape a)) l) :: tl
              /\ data vis = concat (map data l).
Proof.
  intros Hne Hst. induction Hst as [|a l [c Hc] Hst IH]; [congruence|].
  destruct l as [|b l].
  - exists a. cbn [concatenate]. rewrite Hc. simpl.
    rewrite Nat.add_0_r, app_nil_r, Hc. auto.
  - destruct IH as [vis [Hcat [Hsh Hda]]]; [discriminate|].
    change (concatenate (a :: b :: l))
      with (match shape a with
            | [] => Raise ValueError
            | n :: tl_a =>
                match concatenate (b :: l) with
                | Raise e => Raise e
                | Ok v =>
                    match shape v with
                    | [] => Raise ValueError
                    | m :: tl_b =>
                        if decide (tl_a = tl_b)
                        then Ok (mk_ndarray (promote (dtype a) (dtype v))
                                   ((n + m)%nat :: tl_a) (data a ++ data v))
                        else Raise ValueError
                    end
                end
            end).
    rewrite Hc, Hcat, Hsh. rewrite decide_True by reflexivity.
    eexists. split; [reflexivity|]. cbn [shape data map hd fold_right concat].
    rewrite Hc, Hda. auto.
Qed.

(** Concatenating [n >= 1] copies of one array multiplies its first axis. *)
Lemma concatenate_repeat (f : ndarray) (c : nat) (tl : list nat) (n : nat) :
  shape f = c :: tl ->
  concatenate (repeat f (S n))
  = Ok (mk_ndarray (dtype f) ((S n * c)%nat :: tl) (concat (repeat (data f) (S n)))).
Proof.
  intros Hc. induction n as [|n IH].
  - cbn [repeat concatenate concat]. rewrite Hc, app_nil_r, Nat.mul_1_l.
    destruct f; simpl in *; now subst.
  - change (repeat f (S (S n))) with (f :: repeat f (S n)).
    change (repeat f (S n)) with (f :: repeat f n) in *.
    cbn [concatenate] in *. rewrite Hc in *. rewrite IH.
    cbn [shape dtype data]. rewrite decide_True by reflexivity.
    rewrite promote_idem. reflexivity.
Qed.

(** What [channel_first] returns has the channel axis first; the channel
    count is the last axis of the image. *)
Lemma channel_first_shape (raw frame : ndarray) :
  channel_first raw = Ok frame ->
  exists H W C, shape frame = [C; H; W]
                /\ List.last (shape raw) 0%nat = C
                /\ (shape raw = [H; W; C] \/ exists B, shape raw = [S B; H; W; C]).
Proof.
  unfold channel_first, getitem0, transpose_2_0_1. intros Hcf.
  destruct (shape raw) as [|a [|b [|c [|d [|e s]]]]] eqn:Hs; simpl in Hcf;
    rewrite ?Hs in Hcf; simpl in Hcf; try discriminate.
  - injection Hcf as <-. exists a, b, c. simpl. auto.
  - destruct a as [|B]; [discriminate|]. simpl in Hcf.
    injection Hcf as <-. exists b, c, d. simpl. eauto.
Qed.

(** Blocks of one length, laid out one after the other. *)
Lemma flat_map_blocks_length {A} (f : nat -> list A) (len : nat) :
  (forall k, length (f k) = len) ->
  forall n s, length (flat_map f (seq s n)) = (n * len)%nat.
Proof.
  intros Hf. induction n as [|n IH]; intros s; [reflexivity|].
  cbn [seq flat_map]. rewrite length_app, Hf, IH. lia.
Qed.

Lemma nth_flat_map_blocks {A} (f : nat -> list A) (len : nat) (d : A) :
  (forall k, length (f k) = len) ->
  forall n s i j, (i < n)%nat -> (j < len)%nat ->
    nth (i * len + j) (flat_map f (seq s n)) d = nth j (f (s + i)%nat) d.
Proof.
  intros Hf. induction n as [|n IH]; intros s i j Hi Hj; [lia|].
  cbn [seq flat_map]. destruct i as [|i].
  - rewrite Nat.add_0_r. simpl. apply app_nth1. now rewrite Hf.
  - rewrite app_nth2 by (rewrite Hf; lia). rewrite Hf.
    replace (S i * len + j - len)%nat with (i * len + j)%nat by lia.
    rewrite IH by lia. now rewrite Nat.add_succ_r.
Qed.

Lemma nth_map_seq {A} (f : nat -> A) (d : A) (n x : nat) :
  (x < n)%nat -> nth x (map f (seq 0 n)) d = f x.
Proof.
  intros Hx. rewrite (nth_indep _ d (f 0%nat)) by now rewrite length_map, length_seq.
  rewrite (map_nth f (seq 0 n) 0%nat x). now rewrite seq_nth.
Qed.

Lemma nth_firstn {A} (l : list A) (d : A) (n i : nat) :
  (i < n)%nat -> nth i (firstn n l) d = nth i l d.
Proof.
  revert n i. induction l as [|a l IH]; intros [|n] [|i] Hi; try lia; simpl;
    try reflexivity. apply IH. lia.
Qed.

(** The transposition, element by element. *)
Lemma transpose_spec (a : ndarray) (H W C : nat) :
  shape a = [H; W; C] ->
  exists frame,
    transpose_2_0_1 a = Ok frame
    /\ dtype frame = dtype a
    /\ shape frame = [C; H; W]
    /\ length (data frame) = (C * (H * W))%nat
    /\ forall c h x, (c < C)%nat -> (h < H)%nat -> (x < W)%nat ->
         nth (c * (H * W) + (h * W + x)) (data frame) 0%Q
         = nth ((h * W + x) * C + c) (data a) 0%Q.
Proof.
  intros Hs. unfold transpose_2_0_1. rewrite Hs. eexists. split; [reflexivity|].
  cbn [dtype shape data]. split; [reflexivity|]. split; [reflexivity|].
  assert (Hrow : forall c h,
             length (map (fun x => nth ((h * W + x) * C + c) (data a) 0%Q)
                       (seq 0 W)) = W).
  { intros c h. now rewrite length_map, length_seq. }
  assert (Hplane : forall c,
             length (flat_map
                       (fun h => map (fun x => nth ((h * W + x) * C + c) (data a) 0%Q)
                                   (seq 0 W)) (seq 0 H)) = (H * W)%nat).
  { intros c. apply (flat_map_blocks_length _ W (Hrow c)). }
  split.
  - apply (flat_map_blocks_length _ (H * W)%nat Hplane).
  - intros c h x Hc Hh Hx.
    rewrite (nth_flat_map_blocks _ (H * W)%nat 0%Q Hplane C 0 c (h * W + x)) by nia.
    rewrite (nth_flat_map_blocks _ W 0%Q (Hrow (0 + c)%nat) H 0 h x) by lia.
    rewrite nth_map_seq by lia. reflexivity.
Qed.

(** On an image, alone or in a batch that is not empty, [channel_first]
    returns, and what it returns is the channel-first copy of the image (of
    the first one of the batch). *)
Lemma channel_first_spec (raw : ndarray) (H W C : nat) :
  image_shaped raw H W C ->
  exists frame, channel_first raw = Ok frame /\ channel_first_of raw frame H W C.
Proof.
  intros [Hs | [B Hs]].
  - destruct (transpose_spec raw H W C Hs) as [frame [Ht Hof]].
    exists frame. split; [|exact Hof].
    unfold channel_first. now rewrite Hs.
  - set (img := mk_ndarray (dtype raw) [H; W; C]
                  (firstn (H * (W * (C * 1))) (data raw))).
    destruct (transpose_spec img H W C eq_refl) as [frame [Ht [Hd [Hsh [Hl Hel]]]]].
    exists frame. split.
    + unfold channel_first, getitem0. rewrite Hs. exact Ht.
    + split; [exact Hd|]. split; [exact Hsh|]. split; [exact Hl|].
      intros c h x Hc Hh Hx. rewrite (Hel c h x Hc Hh Hx).
      unfold img. cbn [data]. apply nth_firstn.
      assert (Hp : (h * W + x + 1 <= H * W)%nat) by nia.
      assert (Hq : ((h * W + x + 1) * C <= H * W * C)%nat)
        by (apply Nat.mul_le_mono_r; exact Hp).
      lia.
Qed.

(** ** FrameStackWrapper *)

Lemma relocate_lookup (o : list (string * nat)) (k : string) (v : nat) :
  forall base : nat,
    odict_get o k = Some v ->
    exists i, odict_get (relocate base o) k = Some (base + i)%nat
              /\ o !! i = Some (k, v).
Proof.
  induction o as [|[k' v'] o IH]; intros base Hget; simpl in *; [discriminate|].
  destruct (String.eqb k k') eqn:Ek.
  - apply String.eqb_eq in Ek. subst k'. injection Hget as ->.
    exists 0%nat. now rewrite Nat.add_0_r.
  - destruct (IH (S base) Hget) as [i [Hi Hl]].
    exists (S i). now rewrite Nat.add_succ_r.
Qed.

Lemma extends_preserves_private (w : World) (more : list cell)
  (dc : list (list (string * nat))) :
  preserves_private w (mk_World (arrays w ++ more) dc).
Proof. intros l c Hl _. simpl. now apply lookup_app_l_Some. Qed.

Lemma preserves_private_trans (w1 w2 w3 : World) :
  preserves_private w1 w2 -> preserves_private w2 w3 -> preserves_private w1 w3.
Proof. intros H12 H23 l c Hl Hc. apply H23; [now apply H12 | exact Hc]. Qed.

Lemma holds_private_preserved (w w' : World) (frames : list (option nat))
  (buf : list ndarray) :
  preserves_private w w' ->
  Forall2 (holds_private w) frames buf -> Forall2 (holds_private w') frames buf.
Proof.
  intros Hp Hh. eapply Forall2_impl; [exact Hh|].
  intros f a [l [-> Hl]]. exists l. split; [reflexivity|]. now apply Hp.
Qed.

Lemma holds_private_frames_hold (w : World) (frames : list (option nat))
  (buf : list ndarray) :
  Forall2 (holds_private w) frames buf -> frames_hold w frames buf.
Proof.
  intros Hh. eapply Forall2_impl; [exact Hh|].
  intros f a [l [-> Hl]]. exists l. now rewrite Hl.
Qed.

Lemma holds_private_lastn (w : World) (n : nat) (frames : list (option nat))
  (buf : list ndarray) :
  Forall2 (holds_private w) frames buf ->
  Forall2 (holds_private w) (lastn n frames) (lastn n buf).
Proof.
  intros Hh. unfold lastn. rewrite (Forall2_length _ _ _ Hh).
  now apply Forall2_drop.
Qed.

Lemma holds_private_repeat (w : World) (n l : nat) (a : ndarray) :
  arrays w !! l = Some (mk_cell false a) ->
  Forall2 (holds_private w) (repeat (Some l) n) (repeat a n).
Proof.
  intros Hl. induction n as [|n IH]; simpl; constructor; [|exact IH].
  exists l. auto.
Qed.

Section FrameStack.
Context `{Float32Cast} {E : Type} `{Environment E}.
Implicit Types (self : FrameStackWrapper E) (w : World) (ts : TimeStep).

(** The extracted image is a new array, private to the wrapper. *)
Lemma extract_image_ok (k : string) ts w (raw frame : ndarray) :
  obs_array w (ts_observation ts) k = Some raw ->
  channel_first raw = Ok frame ->
  _extract_image (Some k) ts w
  = (Ok (Some (length (arrays w))),
     mk_World (arrays w ++ [mk_cell false frame]) (dicts w)).
Proof.
  unfold obs_array. intros Hraw Hcf.
  destruct (dicts w !! ts_observation ts) as [o|] eqn:Ho; [|discriminate].
  destruct (odict_get o k) as [l|] eqn:Hl; [|discriminate].
  destruct (arrays w !! l) as [c|] eqn:Hc; [|discriminate].
  injection Hraw as <-.
  unfold _extract_image.
  rewrite (bind_ok (dict_getitem (ts_observation ts) k) _ w l w).
  2:{ unfold dict_getitem.
      rewrite (bind_ok (read_dict (ts_observation ts)) _ w o w)
        by (unfold read_dict; now rewrite Ho).
      now rewrite Hl. }
  rewrite (bind_ok (read_array l) _ w (content c) w)
    by (unfold read_array; now rewrite Hc).
  rewrite (bind_ok (lift (channel_first (content c))) _ w frame w)
    by (unfold lift; now rewrite Hcf).
  reflexivity.
Qed.

(** [_transform_observation] on a well-formed observation: the step comes
    back with the same dictionary, whose entries were rebound in place. *)
Lemma fs_transform_observation_ok (image_key : option string) (num_frames : Z)
  (frames : list (option nat)) ts w (o : list (string * nat)) (vis : ndarray) :
  dicts w !! ts_observation ts = Some o ->
  well_formed_obs w o ->
  Forall (fun kv => Some kv.1 <> image_key) o
  \/ stack_ready num_frames frames w vis ->
  fs_transform_observation image_key num_frames frames ts w
  = (Ok ts,
     mk_World
       (arrays w
        ++ map (fun kv => mk_cell true (transformed_entry image_key vis w kv)) o)
       (<[ts_observation ts := relocate (length (arrays w)) o]> (dicts w))).
Proof.
  intros Ho [Hnd Hval] Hready. unfold fs_transform_observation.
  rewrite (bind_ok (read_dict (ts_observation ts)) _ w o w)
    by (unfold read_dict; now rewrite Ho).
  rewrite (bind_ok _ _ _ _ _
             (transform_loop_ok image_key num_frames frames (ts_observation ts)
                vis o [] w Ho Hnd Hval Hready)).
  unfold ret. now destruct ts.
Qed.

Lemma transformed_obs_array (image_key : option string) (vis : ndarray) w
  (o : list (string * nat)) (ob : nat) (k : string) (v : nat) :
  dicts w !! ob = Some o ->
  odict_get o k = Some v ->
  obs_array
    (mk_World
       (arrays w
        ++ map (fun kv => mk_cell true (transformed_entry image_key vis w kv)) o)
       (<[ob := relocate (length (arrays w)) o]> (dicts w))) ob k
  = Some (transformed_entry image_key vis w (k, v)).
Proof.
  intros Ho Hget. unfold obs_array. cbn [dicts arrays].
  rewrite list_lookup_insert_eq by (eapply lookup_lt_Some; eauto).
  destruct (relocate_lookup o k v (length (arrays w)) Hget) as [i [Hi Hl]].
  rewrite Hi, lookup_app_r by lia.
  replace (length (arrays w) + i - length (arrays w))%nat with i by lia.
  now rewrite lookup_map, Hl.
Qed.

Lemma well_formed_obs_extend w (more : list cell) (dc : list (list (string * nat)))
  (o : list (string * nat)) :
  well_formed_obs w o -> well_formed_obs (mk_World (arrays w ++ more) dc) o.
Proof.
  intros [Hnd Hval]. split; [exact Hnd|].
  eapply Forall_impl; [exact Hval|].
  intros kv [c Hc]. exists c. simpl. now apply lookup_app_l_Some.
Qed.

Lemma obs_array_key w (ob : nat) (k : string) (raw : ndarray)
  (o : list (string * nat)) :
  dicts w !! ob = Some o -> obs_array w ob k = Some raw ->
  exists v, odict_get o k = Some v.
Proof.
  unfold obs_array. intros -> Hraw.
  destruct (odict_get o k) as [v|]; [eauto | discriminate].
Qed.


(** A successful [reset]: the buffer holds the post-reset frame
    [_num_frames] times, and the image entry of the returned step is the
    concatenation of these copies. *)
Lemma fs_reset_ok (k : string) (kw : Kwargs) self w ts (env1 : E) (w1 : World)
  (o : list (string * nat)) (raw frame : ndarray) :
  _image_key self = Some k ->
  (1 <= _num_frames self)%Z ->
  env_reset kw (fs_env self) w = (Ok ts, env1, w1) ->
  dicts w1 !! ts_observation ts = Some o ->
  well_formed_obs w1 o ->
  obs_array w1 (ts_observation ts) k = Some raw ->
  channel_first raw = Ok frame ->
  exists self' w3 vis,
    fs_reset kw self w = (Ok ts, self', w3)
    /\ fs_env self' = env1
    /\ _image_key self' = Some k
    /\ _num_frames self' = _num_frames self
    /\ Forall2 (holds_private w3) (_frames self')
         (repeat frame (Z.to_nat (_num_frames self)))
    /\ obs_array w3 (ts_observation ts) k = Some vis
    /\ concatenate (repeat frame (Z.to_nat (_num_frames self))) = Ok vis
    /\ preserves_private w1 w3.
Proof.
  intros Hik HN Hreset Ho Hwf Hraw Hcf.
  destruct (Z.to_nat (_num_frames self)) as [|n] eqn:Hn; [lia|].
  set (w2 := mk_World (arrays w1 ++ [mk_cell false frame]) (dicts w1)).
  set (frames' := repeat (Some (length (arrays w1))) (S n)).
  destruct (channel_first_shape raw frame Hcf) as [Hh [Ww [C [Hshape _]]]].
  pose proof (concatenate_repeat frame C [Hh; Ww] n Hshape) as Hcat.
  set (vis := mk_ndarray (dtype frame) [(S n * C)%nat; Hh; Ww]
                (concat (repeat (data frame) (S n)))) in *.
  assert (Hbuf' : Forall2 (holds_private w2) frames' (repeat frame (S n))).
  { apply holds_private_repeat. simpl.
    rewrite lookup_app_r by lia. now rewrite Nat.sub_diag. }
  assert (Hready : stack_ready (_num_frames self) frames' w2 vis).
  { exists (repeat frame (S n)). split; [|split].
    - unfold frames'. rewrite repeat_length. lia.
    - now apply holds_private_frames_hold.
    - exact Hcat. }
  destruct (obs_array_key w1 _ k raw o Ho Hraw) as [v Hv].
  exists (fs_with self env1 frames'). eexists. exists vis.
  unfold fs_reset. rewrite Hreset, Hik.
  rewrite (extract_image_ok k ts w1 raw frame Hraw Hcf).
  rewrite Hn, append_n_full. fold frames'. fold w2.
  rewrite (fs_transform_observation_ok (Some k) (_num_frames self) frames' ts w2
             o vis Ho (well_formed_obs_extend w1 _ _ o Hwf) (or_intror Hready)).
  split; [reflexivity|]. split; [reflexivity|]. split; [exact Hik|].
  split; [reflexivity|]. split; [|split; [|split]].
  - cbn [_frames fs_with]. eapply holds_private_preserved; [|exact Hbuf'].
    apply extends_preserves_private.
  - rewrite (transformed_obs_array (Some k) vis w2 o _ k v Ho Hv).
    unfold transformed_entry. cbn [fst]. now rewrite decide_True.
  - exact Hcat.
  - unfold w2. cbn [arrays]. rewrite <- app_assoc.
    apply extends_preserves_private.
Qed.

End FrameStack.

Section FrameStackRuns.
Context `{Float32Cast} {E : Type} `{LawfulEnvironment E}.
Implicit Types (self : FrameStackWrapper E) (w : World) (ts : TimeStep).

(** C4: for a depth N >= 1 and a wrapped observation whose image entry is an
    image of height H, width W and C channels, alone or in a batch that is
    not empty, [reset] returns a step whose image entry is the concatenation
    along the channel axis of N copies of the channel-first post-reset
    frame: its channel count is N times the native one, and the buffer holds
    that frame N times. *)
Theorem fs_reset_seeds_stack (k : string) (kw : Kwargs) self w ts (env1 : E)
  (w1 : World) (o : list (string * nat)) (raw : ndarray) (Hh Ww C : nat) :
  _image_key self = Some k ->
  (1 <= _num_frames self)%Z ->
  env_reset kw (fs_env self) w = (Ok ts, env1, w1) ->
  dicts w1 !! ts_observation ts = Some o ->
  well_formed_obs w1 o ->
  obs_array w1 (ts_observation ts) k = Some raw ->
  image_shaped raw Hh Ww C ->
  exists self' w3 stacked frame,
    fs_reset kw self w = (Ok ts, self', w3)
    /\ channel_first_of raw frame Hh Ww C
    /\ obs_array w3 (ts_observation ts) k = Some stacked
    /\ concatenate (repeat frame (Z.to_nat (_num_frames self))) = Ok stacked
    /\ shape stacked = [(Z.to_nat (_num_frames self) * C)%nat; Hh; Ww]
    /\ data stacked = concat (repeat (data frame) (Z.to_nat (_num_frames self)))
    /\ Forall2 (holds_private w3) (_frames self')
         (repeat frame (Z.to_nat (_num_frames self))).
Proof.
  intros Hik HN Hreset Ho Hwf Hraw Hshape.
  destruct (channel_first_spec raw Hh Ww C Hshape) as [frame [Hcf Hof]].
  destruct (fs_reset_ok k kw self w ts env1 w1 o raw frame
              Hik HN Hreset Ho Hwf Hraw Hcf)
    as [self' [w3 [vis [Hr [_ [_ [_ [Hbuf [Hobs [Hcat _]]]]]]]]]].
  pose proof Hof as [_ [Hfs _]].
  exists self', w3, vis, frame.
  split; [exact Hr|]. split; [exact Hof|]. split; [exact Hobs|].
  split; [exact Hcat|]. split; [|split; [|exact Hbuf]].
  - assert (Hn : exists n, Z.to_nat (_num_frames self) = S n)
      by (exists (Z.to_nat (_num_frames self) - 1)%nat; lia).
    destruct Hn as [n Hn]. rewrite Hn in *.
    rewrite (concatenate_repeat frame C [Hh; Ww] n Hfs) in Hcat.
    now injection Hcat as <-.
  - assert (Hn : exists n, Z.to_nat (_num_frames self) = S n)
      by (exists (Z.to_nat (_num_frames self) - 1)%nat; lia).
    destruct Hn as [n Hn]. rewrite Hn in *.
    rewrite (concatenate_repeat frame C [Hh; Ww] n Hfs) in Hcat.
    now injection Hcat as <-.
Qed.







End FrameStackRuns.

(** *** The stub environment *)

Example stub_fs_init : fs_init (stub_env 5) 3 = Ok stub_fs.
Proof. reflexivity. Qed.

#[export] Instance StubEnv_Lawful : LawfulEnvironment StubEnv.
Proof.
  split; intros ? env w l c Hl _; simpl; now apply lookup_app_l_Some.
Qed.

Example batch_fs_init : fs_init (mk_BatchEnv 0) 3 = Ok batch_fs.
Proof. reflexivity. Qed.

#[export] Instance BatchEnv_Lawful : LawfulEnvironment BatchEnv.
Proof.
  split; intros ? env w l c Hl _; simpl; now apply lookup_app_l_Some.
Qed.

Lemma stub_obs_well_formed (w : World) (base : nat) :
  (S base < length (arrays w))%nat -> well_formed_obs w (stub_obs base).
Proof.
  intros Hb. split.
  - repeat constructor; simpl; intuition discriminate.
  - repeat constructor; simpl; apply lookup_lt_is_Some; lia.
Defined.

Lemma fs_reset_seeds_stack_witness :
  exists self' w3 stacked frame,
    @fs_reset exact_cast BatchEnv _ None batch_fs empty_world
    = (Ok (mk_TimeStep FIRST None None 0%nat), self', w3)
    /\ channel_first_of (batch_image 0) frame 1 2 3
    /\ obs_array w3 0%nat "agentview_image" = Some stacked
    /\ concatenate (repeat frame 3) = Ok stacked
    /\ shape stacked = [(3 * 3)%nat; 1; 2]%nat
    /\ data stacked = concat (repeat (data frame) 3)
    /\ Forall2 (holds_private w3) (_frames self') (repeat frame 3).
Proof.
  apply (@fs_reset_seeds_stack exact_cast BatchEnv _ "agentview_image" None
           batch_fs empty_world (mk_TimeStep FIRST None None 0%nat)
           (mk_BatchEnv 0) (batch_observe 0 empty_world).2 (stub_obs 0)
           (batch_image 0) 1%nat 2%nat 3%nat).
  - reflexivity.
  - simpl. lia.
  - reflexivity.
  - reflexivity.
  - apply stub_obs_well_formed. simpl. lia.
  - reflexivity.
  - right. exists 1%nat. reflexivity.
Defined.


(** ** Ownership of the buffered frames *)

Section Ownership.
Context `{Float32Cast}.

Lemma store_new_extends (ob : nat) (k : string) (a : ndarray) (w : World) :
  exists more,
    arrays ((let* l := alloc_array a in dict_setitem ob k l) w).2
    = arrays w ++ more.
Proof.
  unfold bind, alloc_array, dict_setitem. cbn [arrays dicts].
  destruct (dicts w !! ob) as [o|]; cbn [snd arrays].
  - rewrite alter_fresh. eauto.
  - eauto.
Qed.

Lemma read_frames_world (frames : list (option nat)) (w : World) :
  (read_frames frames w).2 = w.
Proof.
  induction frames as [|[l|] frames IH]; cbn [read_frames]; try reflexivity.
  unfold bind at 1, read_array.
  destruct (arrays w !! l) as [c|]; [|reflexivity].
  unfold bind. destruct (read_frames frames w) as [[arrs|e] w']; simpl in *;
    now subst.
Qed.

Lemma transform_item_extends (image_key : option string) (num_frames : Z)
  (frames : list (option nat)) (ob : nat) (item : string * nat) (w : World) :
  exists more,
    arrays (fs_transform_item image_key num_frames frames ob item w).2
    = arrays w ++ more.
Proof.
  destruct item as [k v]. unfold fs_transform_item.
  destruct (decide (Some k = image_key)) as [Hik|Hik].
  - destruct (Z.of_nat (length frames) =? num_frames)%Z.
    + unfold bind at 1. pose proof (read_frames_world frames w) as Hw.
      destruct (read_frames frames w) as [[arrs|e] w']; simpl in Hw; subst w'.
      * unfold bind at 1, lift. destruct (concatenate arrs) as [vis|e'].
        -- apply store_new_extends.
        -- exists []. now rewrite app_nil_r.
      * exists []. now rewrite app_nil_r.
    + exists []. now rewrite app_nil_r.
  - unfold bind at 1, read_array. destruct (arrays w !! v) as [c|].
    + apply store_new_extends.
    + exists []. now rewrite app_nil_r.
Qed.

Lemma for_each_extends {A} (body : A -> M unit) (l : list A) :
  (forall x w, exists more, arrays (body x w).2 = arrays w ++ more) ->
  forall w, exists more, arrays (for_each body l w).2 = arrays w ++ more.
Proof.
  intros Hbody. induction l as [|x l IH]; intros w; cbn [for_each].
  - exists []. now rewrite app_nil_r.
  - unfold bind. destruct (Hbody x w) as [more Hm].
    destruct (body x w) as [[[]|e] w1]; simpl in Hm.
    + destruct (IH w1) as [more' Hm']. exists (more ++ more').
      now rewrite Hm', Hm, app_assoc.
    + exists more. exact Hm.
Qed.

(** Whatever its outcome, [_transform_observation] leaves every array that
    existed before as it was: it only adds arrays. *)
Lemma fs_transform_observation_extends (image_key : option string)
  (num_frames : Z) (frames : list (option nat)) (ts : TimeStep) (w : World) :
  exists more,
    arrays (fs_transform_observation image_key num_frames frames ts w).2
    = arrays w ++ more.
Proof.
  unfold fs_transform_observation. unfold bind at 1, read_dict.
  destruct (dicts w !! ts_observation ts) as [o|].
  - unfold bind.
    destruct (for_each_extends
                (fs_transform_item image_key num_frames frames (ts_observation ts))
                o (transform_item_extends image_key num_frames frames
                     (ts_observation ts)) w) as [more Hm].
    destruct (for_each _ o w) as [[[]|e] w1]; simpl in *; eauto.
  - exists []. now rewrite app_nil_r.
Qed.

(** Whatever its outcome, [_extract_image] either leaves the store alone or
    adds one private array and returns the reference to it. *)
Lemma extract_image_cases (image_key : option string) (ts : TimeStep) (w : World) :
  (exists r, _extract_image image_key ts w = (r, w)
             /\ (r = Ok None \/ exists e, r = Raise e))
  \/ (exists frame,
        _extract_image image_key ts w
        = (Ok (Some (length (arrays w))),
           mk_World (arrays w ++ [mk_cell false frame]) (dicts w))).
Proof.
  unfold _extract_image. destruct image_key as [k|]; [|left; eauto].
  unfold dict_getitem, bind, read_dict, read_array, lift, alloc_array, ret, raise.
  destruct (dicts w !! ts_observation ts) as [o|]; [|left; eauto].
  destruct (odict_get o k) as [l|]; [|left; eauto].
  destruct (arrays w !! l) as [c|]; [|left; eauto].
  destruct (channel_first (content c)) as [frame|e]; [|left; eauto].
  right. eauto.
Qed.

Lemma frames_private_preserved (w w' : World) (frames : list (option nat)) :
  preserves_private w w' -> frames_private w frames -> frames_private w' frames.
Proof.
  intros Hp Hf. eapply Forall_impl; [exact Hf|].
  intros [l|]; [|trivial]. intros [a Ha]. exists a. now apply Hp.
Qed.

Lemma frames_private_deque_append (w : World) (n : nat)
  (frames : list (option nat)) (x : option nat) :
  frames_private w frames -> frames_private w [x] ->
  frames_private w (deque_append n frames x).
Proof.
  intros Hf Hx. unfold frames_private, deque_append in *.
  apply Forall_drop. apply Forall_app. split; assumption.
Qed.

Lemma frames_private_append_n (w : World) (n m : nat)
  (frames : list (option nat)) (x : option nat) :
  frames_private w frames -> frames_private w [x] ->
  frames_private w (append_n n m frames x).
Proof.
  revert frames. induction m as [|m IH]; intros frames Hf Hx; simpl.
  - exact Hf.
  - apply IH; [|exact Hx]. now apply frames_private_deque_append.
Qed.

Lemma extension_preserves_private (w w' : World) (more : list cell) :
  arrays w' = arrays w ++ more -> preserves_private w w'.
Proof. intros Hm l c Hl _. rewrite Hm. now apply lookup_app_l_Some. Qed.

Lemma outside_write_private (l : nat) (a : ndarray) (w : World) :
  preserves_private w (outside_write l a w).
Proof.
  intros l1 c Hl1 Hc. unfold outside_write.
  destruct (arrays w !! l) as [c0|] eqn:Hl; [|exact Hl1].
  destruct (escaped c0) eqn:He; [|exact Hl1]. simpl.
  destruct (decide (l = l1)) as [->|Hne].
  - congruence.
  - now rewrite list_lookup_insert_ne.
Qed.

Context {E : Type} `{LawfulEnvironment E}.

(** After extraction and buffering, in whatever way the call ends. *)
Lemma buffered_private (w1 : World) (image_key : option string) (ts : TimeStep)
  (frames : list (option nat)) (push : list (option nat) -> option nat ->
                                        list (option nat)) :
  (forall w fr x, frames_private w fr -> frames_private w [x] ->
                  frames_private w (push fr x)) ->
  frames_private w1 frames ->
  match _extract_image image_key ts w1 with
  | (Raise _, w2) => preserves_private w1 w2 /\ frames_private w2 frames
  | (Ok image, w2) =>
      preserves_private w1 w2 /\ frames_private w2 (push frames image)
  end.
Proof.
  intros Hpush Hf.
  destruct (extract_image_cases image_key ts w1)
    as [[r [-> [-> | [e ->]]]] | [frame ->]].
  - split; [now intros ? ? ? ?|]. apply Hpush; [exact Hf|].
    now repeat constructor.
  - split; [now intros ? ? ? ?| exact Hf].
  - split; [apply extends_preserves_private|].
    apply Hpush.
    + eapply frames_private_preserved; [|exact Hf].
      apply extends_preserves_private.
    + repeat constructor. exists frame. simpl.
      rewrite lookup_app_r by lia. now rewrite Nat.sub_diag.
Qed.

Lemma fs_step_private (act : Action) (self : FrameStackWrapper E) (w : World) :
  frames_private w (_frames self) ->
  preserves_private w (fs_step act self w).2
  /\ frames_private (fs_step act self w).2 (_frames (fs_step act self w).1.2).
Proof.
  intros Hf. unfold fs_step.
  pose proof (env_step_private act (fs_env self) w) as Hp.
  destruct (env_step act (fs_env self) w) as [[[ts|e] env'] w1]; simpl in Hp.
  - pose proof (buffered_private w1 (_image_key self) ts (_frames self)
                  (deque_append (Z.to_nat (_num_frames self)))
                  (fun w fr x => frames_private_deque_append w _ fr x)
                  (frames_private_preserved _ _ _ Hp Hf)) as Hb.
    destruct (_extract_image (_image_key self) ts w1) as [[image|e] w2].
    + destruct Hb as [Hp2 Hf2].
      destruct (fs_transform_observation_extends (_image_key self)
                  (_num_frames self)
                  (deque_append (Z.to_nat (_num_frames self)) (_frames self) image)
                  ts w2) as [more Hm].
      destruct (fs_transform_observation _ _ _ ts w2) as [r w3].
      simpl in *. pose proof (extension_preserves_private _ _ _ Hm) as Hp3.
      split.
      * eapply preserves_private_trans; [exact Hp|].
        eapply preserves_private_trans; eassumption.
      * eapply frames_private_preserved; eassumption.
    + destruct Hb as [Hp2 Hf2]. simpl. split; [|exact Hf2].
      eapply preserves_private_trans; eassumption.
  - simpl. split; [exact Hp|]. eapply frames_private_preserved; eassumption.
Qed.

Lemma fs_reset_private (kw : Kwargs) (self : FrameStackWrapper E) (w : World) :
  frames_private w (_frames self) ->
  preserves_private w (fs_reset kw self w).2
  /\ frames_private (fs_reset kw self w).2 (_frames (fs_reset kw self w).1.2).
Proof.
  intros Hf. unfold fs_reset.
  pose proof (env_reset_private kw (fs_env self) w) as Hp.
  destruct (env_reset kw (fs_env self) w) as [[[ts|e] env'] w1]; simpl in Hp.
  - pose proof (buffered_private w1 (_image_key self) ts (_frames self)
                  (append_n (Z.to_nat (_num_frames self))
                     (Z.to_nat (_num_frames self)))
                  (fun w fr x => frames_private_append_n w _ _ fr x)
                  (frames_private_preserved _ _ _ Hp Hf)) as Hb.
    destruct (_extract_image (_image_key self) ts w1) as [[image|e] w2].
    + destruct Hb as [Hp2 Hf2].
      destruct (fs_transform_observation_extends (_image_key self)
                  (_num_frames self)
                  (append_n (Z.to_nat (_num_frames self))
                     (Z.to_nat (_num_frames self)) (_frames self) image)
                  ts w2) as [more Hm].
      destruct (fs_transform_observation _ _ _ ts w2) as [r w3].
      simpl in *. pose proof (extension_preserves_private _ _ _ Hm) as Hp3.
      split.
      * eapply preserves_private_trans; [exact Hp|].
        eapply preserves_private_trans; eassumption.
      * eapply frames_private_preserved; eassumption.
    + destruct Hb as [Hp2 Hf2]. simpl. split; [|exact Hf2].
      eapply preserves_private_trans; eassumption.
  - simpl. split; [exact Hp|]. eapply frames_private_preserved; eassumption.
Qed.

Lemma fs_calls_private (cs : list fs_call) :
  forall (self : FrameStackWrapper E) (w : World),
    frames_private w (_frames self) ->
    preserves_private w (fs_calls cs self w).2
    /\ frames_private (fs_calls cs self w).2 (_frames (fs_calls cs self w).1).
Proof.
  induction cs as [|[kw|act|l a] cs IH]; intros self w Hf; cbn [fs_calls].
  - split; [now intros ? ? ? ?| exact Hf].
  - destruct (fs_reset_private kw self w Hf) as [Hp Hf'].
    destruct (fs_reset kw self w) as [[r self'] w']. simpl in *.
    destruct (IH self' w' Hf') as [Hp' Hf'']. split; [|exact Hf''].
    eapply preserves_private_trans; eassumption.
  - destruct (fs_step_private act self w Hf) as [Hp Hf'].
    destruct (fs_step act self w) as [[r self'] w']. simpl in *.
    destruct (IH self' w' Hf') as [Hp' Hf'']. split; [|exact Hf''].
    eapply preserves_private_trans; eassumption.
  - pose proof (outside_write_private l a w) as Hp.
    destruct (IH self (outside_write l a w)
                (frames_private_preserved _ _ _ Hp Hf)) as [Hp' Hf'].
    split; [|exact Hf']. eapply preserves_private_trans; eassumption.
Qed.

End Ownership.

(** C10: a frame that enters the buffer is a newly allocated copy, stored
    where no array was before and so distinct from the wrapped step's
    observation array, and only the wrapper holds it. Over every sequence of
    [reset] and [step] calls, interleaved with in-place writes of outside code
    to arrays it can reach, the buffer holds only such private arrays, and the
    frames buffered before the sequence have the same content after it. *)
Theorem frames_are_private_copies `{Float32Cast} `{LawfulEnvironment E} :
  (forall (k : string) (ts : TimeStep) (w : World) (o : list (string * nat))
          (l0 : nat) (c0 : cell) (frame : ndarray),
      dicts w !! ts_observation ts = Some o ->
      odict_get o k = Some l0 ->
      arrays w !! l0 = Some c0 ->
      channel_first (content c0) = Ok frame ->
      exists l w',
        _extract_image (Some k) ts w = (Ok (Some l), w')
        /\ arrays w !! l = None
        /\ l <> l0
        /\ arrays w' !! l = Some (mk_cell false frame)
        /\ (forall l1 c, arrays w !! l1 = Some c -> arrays w' !! l1 = Some c)
        /\ dicts w' = dicts w)
  /\ (forall (cs : list fs_call) (self : FrameStackWrapper E) (w : World)
             (buf : list ndarray),
         Forall2 (holds_private w) (_frames self) buf ->
         frames_private (fs_calls cs self w).2 (_frames (fs_calls cs self w).1)
         /\ Forall2 (holds_private (fs_calls cs self w).2) (_frames self) buf).
Proof.
  split.
  - intros k ts w o l0 c0 frame Ho Hget Hl0 Hcf.
    exists (length (arrays w)),
           (mk_World (arrays w ++ [mk_cell false frame]) (dicts w)).
    split; [|split; [|split; [|split; [|split]]]].
    + apply extract_image_ok with (raw := content c0); [|exact Hcf].
      unfold obs_array. now rewrite Ho, Hget, Hl0.
    + apply lookup_ge_None. lia.
    + apply lookup_lt_Some in Hl0. lia.
    + simpl. rewrite lookup_app_r by lia. now rewrite Nat.sub_diag.
    + intros l1 c Hl1. simpl. now apply lookup_app_l_Some.
    + reflexivity.
  - intros cs self w buf Hbuf.
    assert (Hf : frames_private w (_frames self)).
    { unfold frames_private. clear -Hbuf.
      induction Hbuf as [|f a fr bf [l [-> Hl]] _ IH]; constructor; eauto. }
    destruct (fs_calls_private cs self w Hf) as [Hp Hf'].
    split; [exact Hf'|]. eapply holds_private_preserved; eassumption.
Qed.

Lemma frames_are_private_copies_witness :
  (exists l w',
      _extract_image (Some "agentview_image") stub_first stub_world0
      = (Ok (Some l), w')
      /\ arrays stub_world0 !! l = None
      /\ l <> 0%nat
      /\ arrays w' !! l = Some (mk_cell false (stub_frame 0))
      /\ (forall l1 c, arrays stub_world0 !! l1 = Some c ->
                       arrays w' !! l1 = Some c)
      /\ dicts w' = dicts stub_world0)
  /\ (frames_private
        (@fs_calls exact_cast StubEnv _
           [OutsideWrite 0 (stub_image 7); CallStep stub_action;
            OutsideWrite 5 (stub_image 8); CallReset None]
           stub_run0.1.2 stub_run0.2).2
        (_frames
           (@fs_calls exact_cast StubEnv _
              [OutsideWrite 0 (stub_image 7); CallStep stub_action;
               OutsideWrite 5 (stub_image 8); CallReset None]
              stub_run0.1.2 stub_run0.2).1)
      /\ Forall2
           (holds_private
              (@fs_calls exact_cast StubEnv _
                 [OutsideWrite 0 (stub_image 7); CallStep stub_action;
                  OutsideWrite 5 (stub_image 8); CallReset None]
                 stub_run0.1.2 stub_run0.2).2)
           (_frames stub_run0.1.2) (repeat (stub_frame 0) 3)).
Proof.
  split.
  - apply (proj1 (@frames_are_private_copies exact_cast StubEnv _ _)
             "agentview_image" stub_first stub_world0 (stub_obs 0) 0%nat
             (mk_cell true (stub_image 0)) (stub_frame 0));
      reflexivity.
  - apply (proj2 (@frames_are_private_copies exact_cast StubEnv _ _)).
    repeat constructor; eexists; split; reflexivity.
Defined.

(** ** In-place transformation of the observation mapping *)

(** The loop of [ObsDTypeWrapper] is the loop of the frame stacker without an
    image key. *)
Lemma od_transform_as_fs `{Float32Cast} (ts : TimeStep) :
  od_transform_observation ts = fs_transform_observation None 0 [] ts.
Proof. reflexivity. Qed.

Lemma relocate_fresh (o : list (string * nat)) (k : string) (l : nat) :
  forall base : nat, odict_get (relocate base o) k = Some l -> (base <= l)%nat.
Proof.
  induction o as [|[k' v'] o IH]; intros base Hget; simpl in Hget;
    [discriminate|].
  destruct (String.eqb k k').
  - injection Hget as <-. lia.
  - apply IH in Hget. lia.
Qed.

(** C7, as the code has it: the observation-side dtype normalizer and the
    frame stacker return the step with the very mapping it came with, and
    update that mapping in place. The mapping keeps its keys and their order;
    every entry is rebound to a newly allocated array, the 32-bit float cast
    of the array the entry held (under the frame stacker's image key: the
    concatenation of the buffered frames); the arrays the mapping held and
    all other mappings are left as they were. *)
Theorem transform_rebinds_in_place `{Float32Cast} :
  (forall (ts : TimeStep) (w : World) (o : list (string * nat)),
      dicts w !! ts_observation ts = Some o ->
      well_formed_obs w o ->
      exists w' o',
        od_transform_observation ts w = (Ok ts, w')
        /\ dicts w' !! ts_observation ts = Some o'
        /\ odict_keys o' = odict_keys o
        /\ (forall k l', odict_get o' k = Some l' -> arrays w !! l' = None)
        /\ (forall k v, odict_get o k = Some v ->
              exists c, arrays w !! v = Some c
                        /\ obs_array w' (ts_observation ts) k
                           = Some (astype_float32 (content c)))
        /\ (forall l c, arrays w !! l = Some c -> arrays w' !! l = Some c)
        /\ (forall d, d <> ts_observation ts -> dicts w' !! d = dicts w !! d))
  /\ (forall (image_key : option string) (num_frames : Z)
             (frames : list (option nat)) (vis : ndarray)
             (ts : TimeStep) (w : World) (o : list (string * nat)),
         dicts w !! ts_observation ts = Some o ->
         well_formed_obs w o ->
         Forall (fun kv => Some kv.1 <> image_key) o
         \/ stack_ready num_frames frames w vis ->
         exists w' o',
           fs_transform_observation image_key num_frames frames ts w = (Ok ts, w')
           /\ dicts w' !! ts_observation ts = Some o'
           /\ odict_keys o' = odict_keys o
           /\ (forall k l', odict_get o' k = Some l' -> arrays w !! l' = None)
           /\ (forall k v, odict_get o k = Some v ->
                 exists c, arrays w !! v = Some c
                           /\ obs_array w' (ts_observation ts) k
                              = Some (if decide (Some k = image_key) then vis
                                      else astype_float32 (content c)))
           /\ (forall l c, arrays w !! l = Some c -> arrays w' !! l = Some c)
           /\ (forall d, d <> ts_observation ts -> dicts w' !! d = dicts w !! d)).
Proof.
  assert (Hfs : forall (image_key : option string) (num_frames : Z)
             (frames : list (option nat)) (vis : ndarray)
             (ts : TimeStep) (w : World) (o : list (string * nat)),
         dicts w !! ts_observation ts = Some o ->
         well_formed_obs w o ->
         Forall (fun kv => Some kv.1 <> image_key) o
         \/ stack_ready num_frames frames w vis ->
         exists w' o',
           fs_transform_observation image_key num_frames frames ts w = (Ok ts, w')
           /\ dicts w' !! ts_observation ts = Some o'
           /\ odict_keys o' = odict_keys o
           /\ (forall k l', odict_get o' k = Some l' -> arrays w !! l' = None)
           /\ (forall k v, odict_get o k = Some v ->
                 exists c, arrays w !! v = Some c
                           /\ obs_array w' (ts_observation ts) k
                              = Some (if decide (Some k = image_key) then vis
                                      else astype_float32 (content c)))
           /\ (forall l c, arrays w !! l = Some c -> arrays w' !! l = Some c)
           /\ (forall d, d <> ts_observation ts -> dicts w' !! d = dicts w !! d)).
  { intros image_key num_frames frames vis ts w o Ho Hwf Hready.
    assert (Hlt : (ts_observation ts < length (dicts w))%nat)
      by (eapply lookup_lt_Some; eauto).
    eexists. exists (relocate (length (arrays w)) o).
    split; [exact (fs_transform_observation_ok image_key num_frames frames ts w
                     o vis Ho Hwf Hready)|].
    cbn [dicts arrays].
    split; [now apply list_lookup_insert_eq|].
    split; [apply odict_keys_relocate|].
    split; [|split; [|split]].
    - intros k l' Hget. apply relocate_fresh in Hget.
      apply lookup_ge_None. exact Hget.
    - intros k v Hget. destruct Hwf as [_ Hval].
      assert (Hin : (k, v) ∈ o).
      { destruct (relocate_lookup o k v 0 Hget) as [i [_ Hi]].
        eapply list_elem_of_lookup_2; eauto. }
      rewrite Forall_forall in Hval. destruct (Hval _ Hin) as [c Hc].
      cbn [snd] in Hc. exists c. split; [exact Hc|].
      rewrite (transformed_obs_array image_key vis w o _ k v Ho Hget).
      unfold transformed_entry. cbn [fst snd]. now rewrite Hc.
    - intros l c Hl. now apply lookup_app_l_Some.
    - intros d Hd. now apply list_lookup_insert_ne. }
  split; [|exact Hfs].
  intros ts w o Ho Hwf.
  assert (Hno : Forall (fun kv : string * nat => Some kv.1 <> @None string) o).
  { apply Forall_forall. intros kv _. discriminate. }
  destruct (Hfs None 0%Z [] (mk_ndarray float32 [] []) ts w o Ho Hwf
              (or_introl Hno))
    as [w' [o' [Hrun [Ho' [Hkeys [Hfresh [Hent [Hold Hoth]]]]]]]].
  exists w', o'. rewrite od_transform_as_fs.
  split; [exact Hrun|]. split; [exact Ho'|]. split; [exact Hkeys|].
  split; [exact Hfresh|]. split; [exact Hent|]. split; [exact Hold | exact Hoth].
Qed.

Lemma transform_rebinds_in_place_witness :
  (exists w' o',
      @od_transform_observation exact_cast stub_first stub_world0
      = (Ok stub_first, w')
      /\ dicts w' !! 0%nat = Some o'
      /\ odict_keys o' = odict_keys (stub_obs 0)
      /\ (forall k l', odict_get o' k = Some l' -> arrays stub_world0 !! l' = None)
      /\ (forall k v, odict_get (stub_obs 0) k = Some v ->
            exists c, arrays stub_world0 !! v = Some c
                      /\ obs_array w' 0%nat k
                         = Some (@astype_float32 exact_cast (content c)))
      /\ (forall l c, arrays stub_world0 !! l = Some c -> arrays w' !! l = Some c)
      /\ (forall d, d <> 0%nat -> dicts w' !! d = dicts stub_world0 !! d))
  /\ (exists w' o',
        @fs_transform_observation exact_cast (Some "agentview_image") 3
          (repeat (Some 2%nat) 3) stub_first stub_world1
        = (Ok stub_first, w')
        /\ dicts w' !! 0%nat = Some o'
        /\ odict_keys o' = odict_keys (stub_obs 0)
        /\ (forall k l', odict_get o' k = Some l' -> arrays stub_world1 !! l' = None)
        /\ (forall k v, odict_get (stub_obs 0) k = Some v ->
              exists c, arrays stub_world1 !! v = Some c
                        /\ obs_array w' 0%nat k
                           = Some (if decide (Some k = Some "agentview_image")
                                   then stub_stacked0
                                   else @astype_float32 exact_cast (content c)))
        /\ (forall l c, arrays stub_world1 !! l = Some c -> arrays w' !! l = Some c)
        /\ (forall d, d <> 0%nat -> dicts w' !! d = dicts stub_world1 !! d)).
Proof.
  split.
  - apply (proj1 (@transform_rebinds_in_place exact_cast)
             stub_first stub_world0 (stub_obs 0)).
    + reflexivity.
    + apply stub_obs_well_formed. simpl. lia.
  - apply (proj2 (@transform_rebinds_in_place exact_cast)
             (Some "agentview_image") 3%Z (repeat (Some 2%nat) 3) stub_stacked0
             stub_first stub_world1 (stub_obs 0)).
    + reflexivity.
    + apply stub_obs_well_formed. simpl. lia.
    + right. exists (repeat (stub_frame 0) 3). split; [reflexivity|]. split.
      * repeat constructor; eexists; split; reflexivity.
      * reflexivity.
Defined.

(** C7 does not hold as stated: on the stub's first observation both
    transformations return the step with the mapping it came with, and that
    mapping is not what it was before the call. *)
Lemma transform_mutates_shared_mapping :
  (exists ts' w',
      @od_transform_observation exact_cast stub_first stub_world0 = (Ok ts', w')
      /\ ts_observation ts' = ts_observation stub_first
      /\ dicts w' !! ts_observation stub_first
         <> dicts stub_world0 !! ts_observation stub_first)
  /\ (exists ts' self' w',
        env_reset None (stub_env 5) empty_world
        = (Ok stub_first, stub_env 5, stub_world0)
        /\ @fs_reset exact_cast StubEnv _ None stub_fs empty_world
           = (Ok ts', self', w')
        /\ ts_observation ts' = ts_observation stub_first
        /\ dicts w' !! ts_observation stub_first
           <> dicts stub_world0 !! ts_observation stub_first).
Proof.
  split.
  - eexists _, _. split; [reflexivity|]. split; [reflexivity|].
    vm_compute. discriminate.
  - eexists _, _, _. split; [reflexivity|]. split; [reflexivity|].
    split; [reflexivity|]. vm_compute. discriminate.
Qed.

(** ** Concrete runs of the pipeline on the stubs *)

Example default_keys_stub :
  default_keys (mk_StubSim 0 5)
  = ["object-state"; "agentview_image"; "robot0_proprio-state"].
Proof. reflexivity. Qed.

Example make_stub :
  exists env,
    @make exact_cast StubSim _ (mk_StubSim 0 5) true false false 3 = Ok env
    /\ _image_key (ets_env env) = Some "agentview_image"
    /\ keys (fs_env (ets_env env)) = ["robot0_proprio-state"; "agentview_image"]
    /\ map fst (_obs_spec (ets_env env))
       = ["robot0_proprio-state"; "agentview_image"].
Proof. eexists. repeat split; reflexivity. Qed.

(** Depth 3 over the key-filtering adapter: the first augmented record has
    reward 0.0 and discount 1.0, and its image has 9 channels. *)
Example make_stub_reset :
  exists env t self' w',
    @make exact_cast StubSim _ (mk_StubSim 0 5) true false false 3 = Ok env
    /\ @ets_reset _ (@FrameStackWrapper_Environment exact_cast _ _) None env
         empty_world = (Ok t, self', w')
    /\ step_type t = FIRST /\ reward t = 0%float /\ discount t = 1%float
    /\ shape <$> obs_array w' (observation t) "agentview_image"
       = Some [9; 1; 2]%nat
    /\ dtype <$> obs_array w' (observation t) "robot0_proprio-state"
       = Some float32.
Proof. eexists _, _, _, _. repeat split; reflexivity. Qed.

(** Two repeats of reward 1.0 at discount 0.5: reward 1.5, discount 0.25. *)
Example action_repeat_stub :
  exists t,
    (ar_step stub_action (mk_ActionRepeatWrapper (stub_env 5) 2) empty_world).1.1
    = Ok t
    /\ ts_reward t = Some 1.5%float /\ ts_discount t = Some 0.25%float.
Proof. eexists. repeat split; reflexivity. Qed.

(** An inner step without a discount makes the accumulation fail. *)
Example action_repeat_absent_discount :
  (ar_step stub_action
     (mk_ActionRepeatWrapper (mk_StubEnv 0 5 (Some 1%float) None) 2) empty_world).1.1
  = Raise TypeError.
Proof. reflexivity. Qed.

(** [step] before any [reset]: the assertion on the buffer length fails. *)
Example frame_stack_step_before_reset :
  (@fs_step exact_cast StubEnv _ stub_action stub_fs empty_world).1.1
  = Raise AssertionError.
Proof. reflexivity. Qed.

(** After the reset of the stub run, outside code overwrites the stub's image
    array in place; the buffered copy of that image keeps its content. *)
Example outside_write_stub :
  content <$> arrays stub_run0.2 !! 0%nat = Some (stub_image 0)
  /\ content <$> arrays (outside_write 0 (stub_image 7) stub_run0.2) !! 0%nat
     = Some (stub_image 7)
  /\ _frames stub_run0.1.2 = [Some 2; Some 2; Some 2]%nat
  /\ content <$> arrays (outside_write 0 (stub_image 7) stub_run0.2) !! 2%nat
     = Some (stub_frame 0).
Proof. repeat split; reflexivity. Qed.

(** * Further properties of the code *)

(** ** ExtendedTimeStep: integer subscripts *)

(** An integer subscript from -5 to 4 returns the field at that position,
    negative subscripts counting from the end, and is the same as the
    subscript by that field's name; every other integer raises IndexError. *)
Theorem getitem_integer_bounds (t : ExtendedTimeStep) (i : Z) :
  getitem t (IInt i)
  = if ((-5 <=? i) && (i <? 5))%Z
    then getitem t (IStr (nth (Z.to_nat (i mod 5)) _fields ""))
    else Raise IndexError.
Proof.
  destruct ((-5 <=? i) && (i <? 5))%Z eqn:Hin.
  - apply andb_true_iff in Hin as [Hlo Hhi].
    apply Z.leb_le in Hlo. apply Z.ltb_lt in Hhi.
    assert (Hcases : (i = -5 \/ i = -4 \/ i = -3 \/ i = -2 \/ i = -1 \/ i = 0
                      \/ i = 1 \/ i = 2 \/ i = 3 \/ i = 4)%Z) by lia.
    repeat (destruct Hcases as [-> | Hcases]; [reflexivity|]).
    subst i. reflexivity.
  - unfold getitem, tuple_getitem. cbn [as_tuple length].
    apply andb_false_iff in Hin.
    destruct (i <? 0)%Z eqn:Hneg.
    + apply Z.ltb_lt in Hneg.
      replace (0 <=? i + Z.of_nat 5)%Z with false; [reflexivity|].
      symmetry. apply Z.leb_gt. destruct Hin as [Hin|Hin].
      * apply Z.leb_gt in Hin. lia.
      * apply Z.ltb_ge in Hin. lia.
    + apply Z.ltb_ge in Hneg.
      replace (i <? Z.of_nat 5)%Z with false;
        [now rewrite andb_false_r|].
      symmetry. apply Z.ltb_ge. destruct Hin as [Hin|Hin].
      * apply Z.leb_gt in Hin. lia.
      * apply Z.ltb_ge in Hin. lia.
Qed.

(** ** ActionRepeatWrapper: the return in general, and failures *)

(** Without early termination [step] makes all K inner calls and returns the
    phase and the observation of the last inner step, with the reward and
    the discount accumulated over all K inner steps in the order of the loop,
    whatever the individual rewards and discounts are. *)
Theorem ar_step_discounted_return `{Environment E} (act : Action) (env env' : E)
  (w w' : World) (K : Z) (tss : list TimeStep) (tl : TimeStep) :
  inner_steps (Z.to_nat K) act env w = (map Ok (tss ++ [tl]), env', w') ->
  Forall (fun t => is_Some (ts_discount t) /\ ts_step_type t <> LAST)
    (tss ++ [tl]) ->
  ar_step act (mk_ActionRepeatWrapper env K) w
  = (Ok (mk_TimeStep (ts_step_type tl)
           (Some (discounted_return (tss ++ [tl])))
           (Some (discount_product (tss ++ [tl]))) (ts_observation tl)),
     mk_ActionRepeatWrapper env' K, w').
Proof.
  intros Hrun Hall.
  assert (Hgo : Forall (fun t => is_Some (ts_discount t) /\ ts_last t = false)
                  (tss ++ [tl])).
  { eapply Forall_impl; [exact Hall|]. intros t [Hd Hl]. split; [exact Hd|].
    unfold ts_last. destruct (ts_step_type t); try reflexivity. congruence. }
  pose proof (ar_loop_prefix (tss ++ [tl]) (Z.to_nat K) 0 act
                (mk_ar_locals 0 1 None) env env' w w' Hrun Hgo) as Hloop.
  rewrite Nat.add_0_r in Hloop. cbn [ar_loop] in Hloop.
  unfold ar_step. cbn [ar_env _num_repeats]. rewrite Hloop.
  rewrite fold_ar_iterate_time_step. reflexivity.
Qed.

Lemma ar_step_discounted_return_witness :
  ar_step stub_action
    (mk_ActionRepeatWrapper
       (mk_ScriptedEnv [Ok (mid_step 2 0.5); Ok (mid_step 3 0.25);
                        Ok (mid_step 5 1)]) 3)
    empty_world
  = (Ok (mk_TimeStep MID
           (Some (discounted_return
                    ([mid_step 2 0.5; mid_step 3 0.25] ++ [mid_step 5 1])))
           (Some (discount_product
                    ([mid_step 2 0.5; mid_step 3 0.25] ++ [mid_step 5 1])))
           0%nat),
     mk_ActionRepeatWrapper (mk_ScriptedEnv []) 3, empty_world).
Proof.
  apply (ar_step_discounted_return stub_action
           (mk_ScriptedEnv [Ok (mid_step 2 0.5); Ok (mid_step 3 0.25);
                            Ok (mid_step 5 1)])
           (mk_ScriptedEnv []) empty_world empty_world 3
           [mid_step 2 0.5; mid_step 3 0.25] (mid_step 5 1)).
  - reflexivity.
  - repeat (apply List.Forall_cons; [split; [simpl; eauto | discriminate]|]).
    apply List.Forall_nil.
Defined.

(** The common part of the failures below: the loop consumed [tss], then one
    more inner call was made. *)
Lemma ar_loop_then_one `{Environment E} (act : Action) (env e1 : E)
  (w w1 : World) (K : Z) (tss : list TimeStep) :
  (Z.of_nat (length tss) < K)%Z ->
  inner_steps (length tss) act env w = (map Ok tss, e1, w1) ->
  Forall (fun t => is_Some (ts_discount t) /\ ts_step_type t <> LAST) tss ->
  ar_loop (Z.to_nat K) act (mk_ar_locals 0 1 None) env w
  = ar_loop (S (Z.to_nat K - S (length tss))) act
      (fold_left ar_iterate tss (mk_ar_locals 0 1 None)) e1 w1.
Proof.
  intros HK Hrun Hall.
  assert (Hgo : Forall (fun t => is_Some (ts_discount t) /\ ts_last t = false) tss).
  { eapply Forall_impl; [exact Hall|]. intros t [Hd Hl]. split; [exact Hd|].
    unfold ts_last. destruct (ts_step_type t); try reflexivity. congruence. }
  rewrite (repeats_split K (length tss) HK) at 1.
  apply ar_loop_prefix; assumption.
Qed.

Lemma inner_steps_split `{Environment E} (act : Action) (env env' : E)
  (w w' : World) (tss : list TimeStep) (r : result TimeStep) :
  inner_steps (S (length tss)) act env w = (map Ok tss ++ [r], env', w') ->
  exists e1 w1,
    inner_steps (length tss) act env w = (map Ok tss, e1, w1)
    /\ env_step act e1 w1 = (r, env', w').
Proof.
  intros Hrun.
  replace (S (length tss)) with (length tss + 1)%nat in Hrun by lia.
  rewrite inner_steps_app in Hrun.
  pose proof (inner_steps_length (length tss) act env w) as Hl.
  destruct (inner_steps (length tss) act env w) as [[rs e1] w1].
  simpl in Hrun, Hl. destruct (env_step act e1 w1) as [[rl e2] w2] eqn:Hstep.
  inversion Hrun as [[Happ He Hw]]. subst e2 w2.
  apply app_inj_1 in Happ as [-> Hrl]; [|now rewrite length_map].
  injection Hrl as ->. exists e1, w1. split; [reflexivity | exact Hstep].
Qed.

(** An inner step without a discount makes [step] raise TypeError, also when
    that step is LAST: [step] has then invoked the wrapped [step] exactly as
    often as it took to reach that step, and returns nothing. *)
Theorem ar_step_absent_discount `{Environment E} (act : Action) (env env' : E)
  (w w' : World) (K : Z) (c : nat) (tss : list TimeStep) (tl : TimeStep) :
  (Z.of_nat (length tss) < K)%Z ->
  inner_steps (S (length tss)) act env w = (map Ok tss ++ [Ok tl], env', w') ->
  Forall (fun t => is_Some (ts_discount t) /\ ts_step_type t <> LAST) tss ->
  ts_discount tl = None ->
  ar_step act (mk_ActionRepeatWrapper (mk_CallCounter env c) K) w
  = (Raise TypeError,
     mk_ActionRepeatWrapper (mk_CallCounter env' (c + S (length tss))) K, w').
Proof.
  intros HK Hrun Hall Hnone.
  destruct (inner_steps_split act env env' w w' tss (Ok tl) Hrun)
    as [e1 [w1 [Hpre Hstep]]].
  pose proof (inner_steps_counter (length tss) act env c w) as Hcpre.
  rewrite Hpre in Hcpre.
  unfold ar_step. cbn [ar_env _num_repeats].
  rewrite (ar_loop_then_one act _ _ w w1 K tss HK Hcpre Hall).
  cbn [ar_loop env_step CallCounter_Environment cc_env cc_steps].
  rewrite Hstep, Hnone. now rewrite Nat.add_succ_r.
Qed.

Lemma ar_step_absent_discount_witness :
  ar_step stub_action
    (mk_ActionRepeatWrapper
       (mk_CallCounter
          (mk_ScriptedEnv [Ok (mid_step 2 0.5);
                           Ok (mk_TimeStep LAST (Some 1%float) None 0%nat);
                           Ok (mid_step 5 1)]) 0) 3)
    empty_world
  = (Raise TypeError,
     mk_ActionRepeatWrapper
       (mk_CallCounter (mk_ScriptedEnv [Ok (mid_step 5 1)]) (0 + 2)) 3,
     empty_world).
Proof.
  apply (ar_step_absent_discount stub_action
           (mk_ScriptedEnv [Ok (mid_step 2 0.5);
                            Ok (mk_TimeStep LAST (Some 1%float) None 0%nat);
                            Ok (mid_step 5 1)])
           (mk_ScriptedEnv [Ok (mid_step 5 1)]) empty_world empty_world 3 0
           [mid_step 2 0.5] (mk_TimeStep LAST (Some 1%float) None 0%nat)).
  - simpl. lia.
  - reflexivity.
  - repeat (apply List.Forall_cons; [split; [simpl; eauto | discriminate]|]).
    apply List.Forall_nil.
  - reflexivity.
Defined.

(** An exception of the wrapped [step] passes through [step] unchanged: no
    retry, no further inner call, and the reward accumulated so far is lost. *)
Theorem ar_step_propagates `{Environment E} (act : Action) (env env' : E)
  (w w' : World) (K : Z) (c : nat) (tss : list TimeStep) (e : PyError) :
  (Z.of_nat (length tss) < K)%Z ->
  inner_steps (S (length tss)) act env w = (map Ok tss ++ [Raise e], env', w') ->
  Forall (fun t => is_Some (ts_discount t) /\ ts_step_type t <> LAST) tss ->
  ar_step act (mk_ActionRepeatWrapper (mk_CallCounter env c) K) w
  = (Raise e,
     mk_ActionRepeatWrapper (mk_CallCounter env' (c + S (length tss))) K, w').
Proof.
  intros HK Hrun Hall.
  destruct (inner_steps_split act env env' w w' tss (Raise e) Hrun)
    as [e1 [w1 [Hpre Hstep]]].
  pose proof (inner_steps_counter (length tss) act env c w) as Hcpre.
  rewrite Hpre in Hcpre.
  unfold ar_step. cbn [ar_env _num_repeats].
  rewrite (ar_loop_then_one act _ _ w w1 K tss HK Hcpre Hall).
  cbn [ar_loop env_step CallCounter_Environment cc_env cc_steps].
  rewrite Hstep. now rewrite Nat.add_succ_r.
Qed.

Lemma ar_step_propagates_witness :
  ar_step stub_action
    (mk_ActionRepeatWrapper
       (mk_CallCounter
          (mk_ScriptedEnv [Ok (mid_step 2 0.5); Raise KeyError;
                           Ok (mid_step 5 1)]) 0) 3)
    empty_world
  = (Raise KeyError,
     mk_ActionRepeatWrapper
       (mk_CallCounter (mk_ScriptedEnv [Ok (mid_step 5 1)]) (0 + 2)) 3,
     empty_world).
Proof.
  apply (ar_step_propagates stub_action
           (mk_ScriptedEnv [Ok (mid_step 2 0.5); Raise KeyError;
                            Ok (mid_step 5 1)])
           (mk_ScriptedEnv [Ok (mid_step 5 1)]) empty_world empty_world 3 0
           [mid_step 2 0.5] KeyError).
  - simpl. lia.
  - reflexivity.
  - repeat (apply List.Forall_cons; [split; [simpl; eauto | discriminate]|]).
    apply List.Forall_nil.
Defined.

(** ** DMEWrapper: construction, reset and failures *)

Lemma ospec_keys_set (o : list (string * Spec)) (k : string) (v : Spec) :
  map fst (ospec_set o k v) = add_key (map fst o) k.
Proof.
  unfold add_key. induction o as [|[k' v'] o IH]; simpl; [reflexivity|].
  destruct (String.eqb k k') eqn:Ek; simpl; [reflexivity|].
  rewrite IH. destruct (existsb (String.eqb k) (map fst o)); reflexivity.
Qed.

Lemma ospec_get_set_eq (o : list (string * Spec)) (k : string) (v : Spec) :
  assoc_get (ospec_set o k v) k = Some v.
Proof.
  induction o as [|[k' v'] o IH]; simpl.
  - now rewrite String.eqb_refl.
  - destruct (String.eqb k k') eqn:Ek; simpl; rewrite Ek; [reflexivity | exact IH].
Qed.

Lemma ospec_get_set_ne (o : list (string * Spec)) (k k0 : string) (v : Spec) :
  k0 <> k -> assoc_get (ospec_set o k v) k0 = assoc_get o k0.
Proof.
  intros Hne. induction o as [|[k' v'] o IH]; simpl.
  - destruct (String.eqb k0 k) eqn:E; [|reflexivity].
    apply String.eqb_eq in E. contradiction.
  - destruct (String.eqb k k') eqn:Ek; simpl.
    + apply String.eqb_eq in Ek. subst k'.
      destruct (String.eqb k0 k) eqn:E; [|reflexivity].
      apply String.eqb_eq in E. contradiction.
    + destruct (String.eqb k0 k'); [reflexivity | exact IH].
Qed.

(** What the spec loop of [__init__] has built when it ends without a failed
    assertion. *)
Lemma dme_build_spec_ok (ob : list (string * (list nat * DType)))
  (ks : list string) :
  forall acc out,
    dme_build_spec ob ks acc = Ok out ->
    map fst out = fold_left add_key ks (map fst acc)
    /\ Forall (fun k => is_Some (assoc_get ob k)) ks
    /\ (forall k shp dt, In k ks -> assoc_get ob k = Some (shp, dt) ->
                         assoc_get out k = Some (Array shp dt k)).
Proof.
  induction ks as [|k ks IH]; intros acc out Hb; simpl in Hb.
  - injection Hb as <-. repeat split; [constructor | intros ? ? ? []].
  - destruct (assoc_get ob k) as [[shp dt]|] eqn:Hk; [|discriminate].
    destruct (IH _ _ Hb) as [Hkeys [Hall Hget]].
    split; [|split].
    + rewrite Hkeys, ospec_keys_set. reflexivity.
    + constructor; [rewrite Hk; eauto | exact Hall].
    + intros k0 shp0 dt0 [<-|Hin] Hob; [|now apply Hget].
      destruct (in_dec string_dec k ks) as [Hin|Hnin]; [now apply Hget|].
      rewrite Hk in Hob. injection Hob as <- <-.
      clear -Hb Hnin. revert acc Hb.
      assert (Hgen : forall ks acc out,
                 ~ In k ks -> dme_build_spec ob ks acc = Ok out ->
                 assoc_get out k = assoc_get acc k).
      { clear. induction ks as [|k1 ks IH]; intros acc out Hn Hb; simpl in Hb.
        - now injection Hb as <-.
        - destruct (assoc_get ob k1) as [[s d]|]; [|discriminate].
          rewrite (IH _ _ (fun H => Hn (or_intror H)) Hb).
          apply ospec_get_set_ne. intros ->. apply Hn. now left. }
      intros acc Hb. rewrite (Hgen ks _ out Hnin Hb).
      apply ospec_get_set_eq.
Qed.


Lemma dme_build_spec_undeclared (ob : list (string * (list nat * DType)))
  (ks : list string) :
  forall acc,
    Exists (fun k => assoc_get ob k = None) ks ->
    dme_build_spec ob ks acc = Raise AssertionError.
Proof.
  induction ks as [|k ks IH]; intros acc Hex; [inversion Hex|]. simpl.
  destruct (assoc_get ob k) as [[shp dt]|] eqn:Hk; [|reflexivity].
  apply IH. inversion Hex as [? ? Hk'|]; subst; [congruence | assumption].
Qed.

(** Construction fails fast: a requested key the simulator does not declare
    makes [__init__] fail its assertion, whatever the other keys are. *)
Theorem dme_init_undeclared_key `{Simulator Sim} (env : Sim) (ks : list string) :
  Exists (fun k => assoc_get (sim_observation_spec env) k = None) ks ->
  dme_init env (Some ks) = Raise AssertionError.
Proof.
  intros Hex. unfold dme_init.
  now rewrite (dme_build_spec_undeclared _ ks [] Hex).
Qed.

Lemma dme_init_undeclared_key_witness :
  dme_init (mk_StubSim 0 5) (Some ["robot0_proprio-state"; "robot0_touch-state"])
  = Raise AssertionError.
Proof.
  apply (dme_init_undeclared_key (mk_StubSim 0 5)
           ["robot0_proprio-state"; "robot0_touch-state"]).
  apply List.Exists_cons_tl. apply List.Exists_cons_hd. reflexivity.
Defined.



(** The observation spec and the observations name the same keys in the same
    order: for a wrapper that [__init__] built, the mapping every successful
    [step] returns has exactly the keys of [observation_spec()]. *)
Theorem dme_spec_keys_match_step `{Simulator Sim} (env : Sim) (ks : list string)
  (self : DMEWrapper Sim) (act : Action) (w w1 : World) (sim' : Sim)
  (raw : nat) (rew : float) (done : bool) (o : list (string * nat)) :
  dme_init env (Some ks) = Ok self ->
  sim_step act (dme_env self) w = (Ok (raw, rew, done), sim', w1) ->
  dicts w1 !! raw = Some o ->
  Forall (fun k => is_Some (odict_get o k)) ks ->
  exists t self' w2 o',
    dme_step act self w = (Ok t, self', w2)
    /\ dicts w2 !! ts_observation t = Some o'
    /\ odict_keys o' = map fst (env_observation_spec self)
    /\ env_observation_spec self' = env_observation_spec self.
Proof.
  intros Hinit Hsim Hraw Hall. unfold dme_init in Hinit.
  destruct (dme_build_spec (sim_observation_spec env) ks []) as [out|e] eqn:Hout;
    [|discriminate].
  injection Hinit as <-. cbn [dme_env keys] in *.
  destruct (dme_build_spec_ok _ _ _ _ Hout) as [Hkeys _].
  destruct (extract_obs_ok ks raw o w1 Hraw Hall)
    as [w2 [o' [Hex [_ [Hnd [Hok _]]]]]].
  eexists _, _, w2, o'. unfold dme_step. cbn [dme_env keys].
  rewrite Hsim, Hex. split; [reflexivity|]. split; [exact Hnd|].
  split; [|reflexivity]. cbn. rewrite Hok, Hkeys. reflexivity.
Qed.

Lemma dme_spec_keys_match_step_witness :
  exists t self' w2 o',
    dme_step stub_action stub_dme empty_world = (Ok t, self', w2)
    /\ dicts w2 !! ts_observation t = Some o'
    /\ odict_keys o' = map fst (env_observation_spec stub_dme)
    /\ env_observation_spec self' = env_observation_spec stub_dme.
Proof.
  apply (dme_spec_keys_match_step (mk_StubSim 0 5)
           ["robot0_proprio-state"; "agentview_image"] stub_dme stub_action
           empty_world (stub_sim_observe 1 empty_world).2 (mk_StubSim 1 5)
           0%nat 1%float false
           [("agentview_image", 0%nat); ("robot0_proprio-state", 1%nat);
            ("object-state", 2%nat)]).
  - reflexivity.
  - reflexivity.
  - reflexivity.
  - repeat (apply List.Forall_cons; [simpl; eauto|]). apply List.Forall_nil.
Defined.

(** [reset] resets the simulator unless called with [sim_reset=False], in
    which case it only re-reads the observations, forcing their update; either
    way it returns a FIRST step with no reward and no discount, whose
    observation is a new mapping with the retained keys. *)
Theorem dme_reset_first `{Simulator Sim} (kw : Kwargs) (self : DMEWrapper Sim)
  (w w1 : World) (sim' : Sim) (raw : nat) (o : list (string * nat)) :
  (if match kw with Some b => b | None => true end
   then sim_reset (dme_env self) w
   else sim_get_observations true (dme_env self) w) = (Ok raw, sim', w1) ->
  dicts w1 !! raw = Some o ->
  Forall (fun k => is_Some (odict_get o k)) (keys self) ->
  exists w2 o',
    dme_reset kw self w
    = (Ok (mk_TimeStep FIRST None None (length (dicts w1))),
       mk_DMEWrapper sim' (keys self) (dme_observation_spec self)
         (dme_action_spec self),
       w2)
    /\ dicts w2 !! length (dicts w1) = Some o'
    /\ odict_keys o' = ordered_keys (keys self)
    /\ (forall k, In k (keys self) -> odict_get o' k = odict_get o k).
Proof.
  intros Hsim Hraw Hall.
  destruct (extract_obs_ok (keys self) raw o w1 Hraw Hall)
    as [w2 [o' [Hex [_ [Hnd [Hkeys [Hin _]]]]]]].
  exists w2, o'. unfold dme_reset. rewrite Hsim, Hex. auto.
Qed.

Lemma dme_reset_first_witness :
  exists w2 o',
    dme_reset (Some false) stub_dme empty_world
    = (Ok (mk_TimeStep FIRST None None 1%nat),
       mk_DMEWrapper (mk_StubSim 0 5) (keys stub_dme)
         (dme_observation_spec stub_dme) (dme_action_spec stub_dme),
       w2)
    /\ dicts w2 !! 1%nat = Some o'
    /\ odict_keys o' = ordered_keys (keys stub_dme)
    /\ (forall k, In k (keys stub_dme) ->
        odict_get o' k
        = odict_get [("agentview_image", 0%nat); ("robot0_proprio-state", 1%nat);
                     ("object-state", 2%nat)] k).
Proof.
  apply (dme_reset_first (Some false) stub_dme empty_world
           (stub_sim_observe 0 empty_world).2 (mk_StubSim 0 5) 0%nat
           [("agentview_image", 0%nat); ("robot0_proprio-state", 1%nat);
            ("object-state", 2%nat)]).
  - reflexivity.
  - reflexivity.
  - repeat (apply List.Forall_cons; [simpl; eauto|]). apply List.Forall_nil.
Defined.

(** The loop of [_extract_obs] when a key is missing from the dictionary. *)
Lemma extract_loop_missing (o : list (string * nat)) (raw nd : nat)
  (ks : list string) :
  forall (acc : list (string * nat)) (w : World),
    raw <> nd ->
    dicts w !! raw = Some o ->
    dicts w !! nd = Some acc ->
    Exists (fun k => odict_get o k = None) ks ->
    exists w',
      for_each (fun key => let* v := dict_getitem raw key in
                           dict_setitem nd key v) ks w = (Raise KeyError, w').
Proof.
  induction ks as [|k ks IH]; intros acc w Hne Hraw Hnd Hex; [inversion Hex|].
  cbn [for_each].
  destruct (odict_get o k) as [v|] eqn:Hv.
  - assert (Hlt : (nd < length (dicts w))%nat) by (eapply lookup_lt_Some; eauto).
    rewrite (bind_ok _ _ w tt
               (mk_World (alter mark_escaped v (arrays w))
                         (<[nd := odict_set acc k v]> (dicts w)))).
    + apply (IH (odict_set acc k v)); [exact Hne| | |].
      * simpl. now rewrite list_lookup_insert_ne.
      * simpl. now apply list_lookup_insert_eq.
      * inversion Hex as [? ? Hk|]; subst; [congruence | assumption].
    + unfold bind, dict_getitem, bind, read_dict, ret, dict_setitem.
      now rewrite Hraw, Hv, Hnd.
  - exists w. apply bind_raise.
    unfold bind, dict_getitem, bind, read_dict, raise. now rewrite Hraw, Hv.
Qed.

(** A retained key that the simulator's observation lacks makes [step] raise
    KeyError; by then the simulator has been stepped with the action. *)
Theorem dme_step_missing_key `{Simulator Sim} (act : Action)
  (self : DMEWrapper Sim) (w w1 : World) (sim' : Sim) (raw : nat) (rew : float)
  (done : bool) (o : list (string * nat)) :
  sim_step act (dme_env self) w = (Ok (raw, rew, done), sim', w1) ->
  dicts w1 !! raw = Some o ->
  Exists (fun k => odict_get o k = None) (keys self) ->
  exists w2,
    dme_step act self w
    = (Raise KeyError,
       mk_DMEWrapper sim' (keys self) (dme_observation_spec self)
         (dme_action_spec self),
       w2).
Proof.
  intros Hsim Hraw Hex.
  assert (Hlt : (raw < length (dicts w1))%nat) by (eapply lookup_lt_Some; eauto).
  destruct (extract_loop_missing o raw (length (dicts w1)) (keys self) []
              (mk_World (arrays w1) (dicts w1 ++ [[]]))) as [w2 Hrun].
  - lia.
  - simpl. now rewrite lookup_app_l.
  - simpl. rewrite lookup_app_r by lia. now rewrite Nat.sub_diag.
  - exact Hex.
  - exists w2. unfold dme_step. rewrite Hsim. unfold _extract_obs.
    rewrite (bind_ok (alloc_dict []) _ w1 (length (dicts w1))
               (mk_World (arrays w1) (dicts w1 ++ [[]])) eq_refl).
    now rewrite (bind_raise _ _ _ KeyError w2 Hrun).
Qed.

Lemma dme_step_missing_key_witness :
  exists w2,
    dme_step stub_action stub_dme_touch empty_world
    = (Raise KeyError,
       mk_DMEWrapper (mk_StubSim 1 5) (keys stub_dme_touch)
         (dme_observation_spec stub_dme_touch) (dme_action_spec stub_dme_touch),
       w2).
Proof.
  apply (dme_step_missing_key stub_action stub_dme_touch empty_world
           (stub_sim_observe 1 empty_world).2 (mk_StubSim 1 5) 0%nat 1%float false
           [("agentview_image", 0%nat); ("robot0_proprio-state", 1%nat);
            ("object-state", 2%nat)]).
  - reflexivity.
  - reflexivity.
  - apply List.Exists_cons_tl. apply List.Exists_cons_hd. reflexivity.
Defined.

Lemma extract_item_cases (raw nd : nat) (k : string) (w : World) :
  (exists e, (let* v := dict_getitem raw k in dict_setitem nd k v) w
             = (Raise e, w))
  \/ (exists v acc,
        (let* v := dict_getitem raw k in dict_setitem nd k v) w
        = (Ok tt, mk_World (alter mark_escaped v (arrays w))
                    (<[nd := odict_set acc k v]> (dicts w)))).
Proof.
  unfold bind, dict_getitem, bind, read_dict, ret, raise, dict_setitem.
  destruct (dicts w !! raw) as [o|]; [|left; eauto].
  destruct (odict_get o k) as [v|]; [|left; eauto].
  destruct (dicts w !! nd) as [acc|]; [right; eauto | left; eauto].
Qed.

(** Whatever it returns, [_extract_obs] changes no array's content and no
    dictionary that existed before. *)
Lemma extract_loop_frame (raw nd : nat) (ks : list string) :
  forall w : World,
    map content
      (arrays (for_each (fun key => let* v := dict_getitem raw key in
                                     dict_setitem nd key v) ks w).2)
    = map content (arrays w)
    /\ forall d, d <> nd ->
         dicts (for_each (fun key => let* v := dict_getitem raw key in
                                      dict_setitem nd key v) ks w).2 !! d
         = dicts w !! d.
Proof.
  induction ks as [|k ks IH]; intros w; cbn [for_each]; [now split|].
  destruct (extract_item_cases raw nd k w) as [[e He] | [v [acc He]]].
  - rewrite (bind_raise _ _ _ _ _ He). now split.
  - rewrite (bind_ok _ _ _ _ _ He).
    destruct (IH (mk_World (alter mark_escaped v (arrays w))
                           (<[nd := odict_set acc k v]> (dicts w))))
      as [Hc Hd].
    split.
    + rewrite Hc. simpl. apply map_content_mark.
    + intros d Hne. rewrite (Hd d Hne). simpl. now apply list_lookup_insert_ne.
Qed.

(** [step] never writes to what the simulator returned: whatever its outcome,
    every array has the content the simulator left, and every dictionary the
    simulator left, its raw observation included, is unchanged. *)
Theorem dme_step_leaves_store `{Simulator Sim} (act : Action)
  (self : DMEWrapper Sim) (w w1 : World) (sim' : Sim)
  (rs : result (nat * float * bool)) :
  sim_step act (dme_env self) w = (rs, sim', w1) ->
  map content (arrays (dme_step act self w).2) = map content (arrays w1)
  /\ forall d o, dicts w1 !! d = Some o ->
                 dicts (dme_step act self w).2 !! d = Some o.
Proof.
  intros Hsim. unfold dme_step. rewrite Hsim.
  destruct rs as [[[raw rew] done]|e]; [|now split].
  pose proof (extract_loop_frame raw (length (dicts w1)) (keys self)
                (mk_World (arrays w1) (dicts w1 ++ [[]]))) as [Hc Hd].
  unfold _extract_obs.
  rewrite (bind_ok (alloc_dict []) _ w1 (length (dicts w1))
             (mk_World (arrays w1) (dicts w1 ++ [[]])) eq_refl).
  unfold bind.
  destruct (for_each _ (keys self) (mk_World (arrays w1) (dicts w1 ++ [[]])))
    as [[[]|e] w2]; simpl in *.
  - split; [exact Hc|]. intros d o Hdo.
    assert (Hlt : (d < length (dicts w1))%nat) by (eapply lookup_lt_Some; eauto).
    rewrite Hd by lia. now rewrite lookup_app_l.
  - split; [exact Hc|]. intros d o Hdo.
    assert (Hlt : (d < length (dicts w1))%nat) by (eapply lookup_lt_Some; eauto).
    rewrite Hd by lia. now rewrite lookup_app_l.
Qed.

Lemma dme_step_leaves_store_witness :
  map content (arrays (dme_step stub_action stub_dme empty_world).2)
  = map content (arrays (stub_sim_observe 1 empty_world).2)
  /\ forall d o, dicts (stub_sim_observe 1 empty_world).2 !! d = Some o ->
                 dicts (dme_step stub_action stub_dme empty_world).2 !! d = Some o.
Proof.
  apply (dme_step_leaves_store stub_action stub_dme empty_world
           (stub_sim_observe 1 empty_world).2 (mk_StubSim 1 5)
           (Ok (0%nat, 1%float, false))).
  reflexivity.
Defined.

(** ** FrameStackWrapper: what every call keeps *)

Example vector_fs_init : fs_init (mk_VectorEnv 0) 3 = Ok vector_fs.
Proof. reflexivity. Qed.

Example growing_fs_init : fs_init (mk_GrowingEnv 0) 2 = Ok growing_fs.
Proof. reflexivity. Qed.

Example stub_fs1_init : fs_init (stub_env 5) 1 = Ok stub_fs1.
Proof. reflexivity. Qed.

Lemma fs_transform_returns_step `{Float32Cast} (image_key : option string)
  (num_frames : Z) (frames : list (option nat)) (ts : TimeStep) (w : World) :
  match (fs_transform_observation image_key num_frames frames ts w).1 with
  | Ok ts' => ts' = ts
  | Raise _ => True
  end.
Proof.
  unfold fs_transform_observation, bind, read_dict, ret.
  destruct (dicts w !! ts_observation ts) as [o|]; [|exact I].
  destruct (for_each _ o w) as [[[]|e] w1]; [|exact I].
  simpl. now destruct ts.
Qed.

(** The frame stacker passes the wrapped step through: a step it returns is
    the wrapped environment's step, with the same phase, reward, discount and
    observation mapping; it invokes the wrapped method once; and it never
    changes its depth, its image key, its key list or its observation spec. *)
Theorem fs_passes_step_through `{Float32Cast} `{Environment E} (act : Action)
  (kw : Kwargs) (self : FrameStackWrapper E) (w : World) :
  (match (fs_step act self w).1.1 with
   | Ok ts' => (env_step act (fs_env self) w).1.1 = Ok ts'
   | Raise _ => True
   end
   /\ fs_env (fs_step act self w).1.2 = (env_step act (fs_env self) w).1.2
   /\ fs_with (fs_step act self w).1.2 (fs_env self) (_frames self) = self)
  /\ (match (fs_reset kw self w).1.1 with
      | Ok ts' => (env_reset kw (fs_env self) w).1.1 = Ok ts'
      | Raise _ => True
      end
      /\ fs_env (fs_reset kw self w).1.2 = (env_reset kw (fs_env self) w).1.2
      /\ fs_with (fs_reset kw self w).1.2 (fs_env self) (_frames self) = self).
Proof.
  split.
  - unfold fs_step.
    destruct (env_step act (fs_env self) w) as [[[ts|e] env1] w1]; simpl;
      [|now destruct self].
    destruct (_extract_image (_image_key self) ts w1) as [[image|e] w2];
      [|now destruct self].
    pose proof (fs_transform_returns_step (_image_key self) (_num_frames self)
                  (deque_append (Z.to_nat (_num_frames self)) (_frames self) image)
                  ts w2) as Hts.
    destruct (fs_transform_observation _ _ _ ts w2) as [[ts'|e] w3];
      simpl in *; [subst ts'|]; now destruct self.
  - unfold fs_reset.
    destruct (env_reset kw (fs_env self) w) as [[[ts|e] env1] w1]; simpl;
      [|now destruct self].
    destruct (_extract_image (_image_key self) ts w1) as [[image|e] w2];
      [|now destruct self].
    pose proof (fs_transform_returns_step (_image_key self) (_num_frames self)
                  (append_n (Z.to_nat (_num_frames self))
                     (Z.to_nat (_num_frames self)) (_frames self) image)
                  ts w2) as Hts.
    destruct (fs_transform_observation _ _ _ ts w2) as [[ts'|e] w3];
      simpl in *; [subst ts'|]; now destruct self.
Qed.

Lemma deque_append_capacity {A} (n : nat) (d : list A) (x : A) :
  (length d <= n)%nat -> (length (deque_append n d x) <= n)%nat.
Proof.
  intros Hd. unfold deque_append. rewrite length_drop, length_app. simpl. lia.
Qed.

Lemma append_n_capacity {A} (n m : nat) (d : list A) (x : A) :
  (length d <= n)%nat -> (length (append_n n m d x) <= n)%nat.
Proof.
  revert d. induction m as [|m IH]; intros d Hd; simpl; [exact Hd|].
  apply IH. now apply deque_append_capacity.
Qed.

(** The buffer never holds more frames than the depth: over every sequence of
    [reset] and [step] calls, failed ones and outside writes included. *)
Theorem fs_buffer_capacity `{Float32Cast} `{Environment E} (cs : list fs_call) :
  forall (self : FrameStackWrapper E) (w : World),
    (length (_frames self) <= Z.to_nat (_num_frames self))%nat ->
    (length (_frames (fs_calls cs self w).1)
     <= Z.to_nat (_num_frames (fs_calls cs self w).1))%nat
    /\ _num_frames (fs_calls cs self w).1 = _num_frames self
    /\ _image_key (fs_calls cs self w).1 = _image_key self.
Proof.
  induction cs as [|[kw|act|l a] cs IH]; intros self w Hcap; cbn [fs_calls].
  - auto.
  - assert (Hs : (length (_frames (fs_reset kw self w).1.2)
                  <= Z.to_nat (_num_frames self))%nat
                 /\ _num_frames (fs_reset kw self w).1.2 = _num_frames self
                 /\ _image_key (fs_reset kw self w).1.2 = _image_key self).
    { unfold fs_reset.
      destruct (env_reset kw (fs_env self) w) as [[[ts|e] env1] w1]; simpl; auto.
      destruct (_extract_image (_image_key self) ts w1) as [[image|e] w2];
        simpl; auto.
      destruct (fs_transform_observation _ _ _ ts w2) as [r w3]. simpl.
      split; [|auto]. now apply append_n_capacity. }
    destruct (fs_reset kw self w) as [[r self'] w']. simpl in Hs.
    destruct Hs as [Hl [HN Hk]].
    destruct (IH self' w') as [Hl' [HN' Hk']]; [now rewrite HN|].
    rewrite HN', Hk', HN, Hk in *. auto.
  - assert (Hs : (length (_frames (fs_step act self w).1.2)
                  <= Z.to_nat (_num_frames self))%nat
                 /\ _num_frames (fs_step act self w).1.2 = _num_frames self
                 /\ _image_key (fs_step act self w).1.2 = _image_key self).
    { unfold fs_step.
      destruct (env_step act (fs_env self) w) as [[[ts|e] env1] w1]; simpl; auto.
      destruct (_extract_image (_image_key self) ts w1) as [[image|e] w2];
        simpl; auto.
      destruct (fs_transform_observation _ _ _ ts w2) as [r w3]. simpl.
      split; [|auto]. now apply deque_append_capacity. }
    destruct (fs_step act self w) as [[r self'] w']. simpl in Hs.
    destruct Hs as [Hl [HN Hk]].
    destruct (IH self' w') as [Hl' [HN' Hk']]; [now rewrite HN|].
    rewrite HN', Hk', HN, Hk in *. auto.
  - apply IH. exact Hcap.
Qed.

Lemma fs_buffer_capacity_witness :
  (length (_frames
             (@fs_calls exact_cast StubEnv _
                [CallStep stub_action; CallReset None; CallStep stub_action;
                 CallStep stub_action; CallReset None; CallStep stub_action]
                stub_fs empty_world).1)
   <= Z.to_nat
        (_num_frames
           (@fs_calls exact_cast StubEnv _
              [CallStep stub_action; CallReset None; CallStep stub_action;
               CallStep stub_action; CallReset None; CallStep stub_action]
              stub_fs empty_world).1))%nat
  /\ _num_frames
       (@fs_calls exact_cast StubEnv _
          [CallStep stub_action; CallReset None; CallStep stub_action;
           CallStep stub_action; CallReset None; CallStep stub_action]
          stub_fs empty_world).1 = _num_frames stub_fs
  /\ _image_key
       (@fs_calls exact_cast StubEnv _
          [CallStep stub_action; CallReset None; CallStep stub_action;
           CallStep stub_action; CallReset None; CallStep stub_action]
          stub_fs empty_world).1 = _image_key stub_fs.
Proof.
  apply (@fs_buffer_capacity exact_cast StubEnv _
           [CallStep stub_action; CallReset None; CallStep stub_action;
            CallStep stub_action; CallReset None; CallStep stub_action]
           stub_fs empty_world).
  simpl. lia.
Defined.

(** ** FrameStackWrapper: without an image key *)

(** Without an image key frame stacking is a pass-through: [step] never
    asserts on the buffer, so it works before any [reset]; it pushes [None]
    and rebinds every entry of the observation to its 32-bit float cast, which
    keeps the entry's shape. *)
Theorem fs_step_without_image `{Float32Cast} `{Environment E} (act : Action)
  (self : FrameStackWrapper E) (w : World) (ts : TimeStep) (env1 : E)
  (w1 : World) (o : list (string * nat)) :
  _image_key self = None ->
  env_step act (fs_env self) w = (Ok ts, env1, w1) ->
  dicts w1 !! ts_observation ts = Some o ->
  well_formed_obs w1 o ->
  exists w3,
    fs_step act self w
    = (Ok ts,
       fs_with self env1
         (deque_append (Z.to_nat (_num_frames self)) (_frames self) None),
       w3)
    /\ forall k v, odict_get o k = Some v ->
         exists c a,
           arrays w1 !! v = Some c
           /\ obs_array w3 (ts_observation ts) k = Some a
           /\ a = astype_float32 (content c)
           /\ dtype a = float32
           /\ shape a = shape (content c).
Proof.
  intros Hik Hstep Ho Hwf.
  assert (Hno : Forall (fun kv : string * nat => Some kv.1 <> @None string) o).
  { apply Forall_forall. intros kv _. discriminate. }
  eexists. unfold fs_step. rewrite Hstep, Hik. cbn [_extract_image]. unfold ret.
  rewrite (fs_transform_observation_ok None (_num_frames self) _ ts w1 o
             (mk_ndarray float32 [] []) Ho Hwf (or_introl Hno)).
  split; [reflexivity|].
  intros k v Hget. destruct Hwf as [_ Hval].
  assert (Hin : (k, v) ∈ o).
  { destruct (relocate_lookup o k v 0 Hget) as [i [_ Hi]].
    eapply list_elem_of_lookup_2; eauto. }
  rewrite Forall_forall in Hval. destruct (Hval _ Hin) as [c Hc].
  cbn [snd] in Hc. exists c, (astype_float32 (content c)).
  split; [exact Hc|]. split; [|auto].
  rewrite (transformed_obs_array None _ w1 o _ k v Ho Hget).
  unfold transformed_entry. cbn [fst snd]. now rewrite Hc.
Qed.

Lemma fs_step_without_image_witness :
  exists w3,
    @fs_step exact_cast VectorEnv _ stub_action vector_fs empty_world
    = (Ok (mk_TimeStep MID (Some 1%float) (Some 1%float) 0%nat),
       fs_with vector_fs (mk_VectorEnv 1)
         (deque_append (Z.to_nat (_num_frames vector_fs)) (_frames vector_fs)
            None),
       w3)
    /\ forall k v, odict_get [("robot0_proprio-state", 0%nat)] k = Some v ->
         exists c a,
           arrays (vector_observe 1 empty_world).2 !! v = Some c
           /\ obs_array w3 0%nat k = Some a
           /\ a = @astype_float32 exact_cast (content c)
           /\ dtype a = float32
           /\ shape a = shape (content c).
Proof.
  apply (@fs_step_without_image exact_cast VectorEnv _ stub_action vector_fs
           empty_world (mk_TimeStep MID (Some 1%float) (Some 1%float) 0%nat)
           (mk_VectorEnv 1) (vector_observe 1 empty_world).2
           [("robot0_proprio-state", 0%nat)]).
  - reflexivity.
  - reflexivity.
  - reflexivity.
  - split; repeat constructor; simpl; eauto.
Defined.

(** ** FrameStackWrapper: failures of the image entry *)

Lemma odict_get_split (o : list (string * nat)) (k : string) (v : nat) :
  odict_get o k = Some v ->
  exists pre post, o = pre ++ (k, v) :: post /\ ~ In k (odict_keys pre).
Proof.
  induction o as [|[k' v'] o IH]; intros Hget; simpl in Hget; [discriminate|].
  destruct (String.eqb k k') eqn:Ek.
  - apply String.eqb_eq in Ek. subst k'. injection Hget as ->.
    exists [], o. split; [reflexivity | intros []].
  - destruct (IH Hget) as [pre [post [-> Hpre]]].
    exists ((k', v') :: pre), post. split; [reflexivity|].
    simpl. intros [Heq|Hin]; [|contradiction]. subst k'.
    now rewrite String.eqb_refl in Ek.
Qed.

Section ImageFailure.
Context `{Float32Cast}.

(** The loop reaches the image entry after rebinding the entries before it;
    when the image entry fails in every store that extends the present one,
    the loop fails the same way. *)
Lemma transform_loop_image_fails (image_key : option string) (num_frames : Z)
  (frames : list (option nat)) (ob : nat) (e : PyError) (k : string) (v : nat)
  (post : list (string * nat)) (pre : list (string * nat)) :
  forall (done : list (string * nat)) (w : World),
    dicts w !! ob = Some (done ++ pre ++ (k, v) :: post) ->
    List.NoDup (odict_keys (done ++ pre ++ (k, v) :: post)) ->
    Forall (fun kv => is_Some (arrays w !! kv.2)) pre ->
    Forall (fun kv => Some kv.1 <> image_key) pre ->
    (forall more dc,
        (fs_transform_item image_key num_frames frames ob (k, v)
           (mk_World (arrays w ++ more) dc)).1 = Raise e) ->
    (for_each (fs_transform_item image_key num_frames frames ob)
       (pre ++ (k, v) :: post) w).1 = Raise e.
Proof.
  induction pre as [|[k0 v0] pre IH]; intros done w Hob Hnd Hval Hne Hfail.
  - cbn [app for_each]. unfold bind.
    specialize (Hfail [] (dicts w)). rewrite app_nil_r in Hfail.
    replace (mk_World (arrays w) (dicts w)) with w in Hfail by now destruct w.
    destruct (fs_transform_item _ _ _ ob (k, v) w) as [[[]|e'] w1];
      simpl in Hfail; [discriminate|]. now injection Hfail as ->.
  - inversion Hval as [|? ? Hv Hval']; subst.
    inversion Hne as [|? ? Hk0 Hne']; subst.
    assert (Hk : ~ In k0 (odict_keys done)).
    { unfold odict_keys in *. rewrite map_app in Hnd. simpl in Hnd.
      apply NoDup_remove_2 in Hnd. intros Hin. apply Hnd.
      apply in_or_app. now left. }
    assert (Hlt : (ob < length (dicts w))%nat) by (eapply lookup_lt_Some; eauto).
    cbn [app for_each].
    rewrite (bind_ok _ _ _ _ _
               (transform_item_ok image_key num_frames frames ob
                  (mk_ndarray float32 [] []) done (pre ++ (k, v) :: post)
                  k0 v0 w Hob Hk Hv (or_introl Hk0))).
    apply (IH (done ++ [(k0, length (arrays w))])).
    + cbn [dicts]. rewrite list_lookup_insert_eq by exact Hlt.
      now rewrite <- app_assoc.
    + unfold odict_keys in *. rewrite <- app_assoc. cbn [app].
      repeat (rewrite ?map_app in Hnd; simpl in Hnd).
      repeat (rewrite ?map_app; simpl). exact Hnd.
    + cbn [arrays]. eapply Forall_impl; [exact Hval'|].
      intros kv [c Hc]. exists c. now apply lookup_app_l_Some.
    + exact Hne'.
    + intros more dc. cbn [arrays]. rewrite <- app_assoc. apply Hfail.
Qed.

Lemma fs_transform_image_fails (image_key : option string) (num_frames : Z)
  (frames : list (option nat)) (ts : TimeStep) (w : World)
  (o : list (string * nat)) (k : string) (v : nat) (e : PyError) :
  image_key = Some k ->
  dicts w !! ts_observation ts = Some o ->
  well_formed_obs w o ->
  odict_get o k = Some v ->
  (forall more dc,
      (fs_transform_item image_key num_frames frames (ts_observation ts) (k, v)
         (mk_World (arrays w ++ more) dc)).1 = Raise e) ->
  (fs_transform_observation image_key num_frames frames ts w).1 = Raise e.
Proof.
  intros Hik Ho [Hnd Hval] Hget Hfail.
  destruct (odict_get_split o k v Hget) as [pre [post [-> Hpre]]].
  unfold fs_transform_observation.
  rewrite (bind_ok (read_dict (ts_observation ts)) _ w _ w)
    by (unfold read_dict; now rewrite Ho).
  apply Forall_app in Hval as [Hvpre _].
  pose proof (transform_loop_image_fails image_key num_frames frames
                (ts_observation ts) e k v post pre [] w Ho Hnd Hvpre) as Hloop.
  assert (Hpre_ne : Forall (fun kv : string * nat => Some kv.1 <> image_key) pre).
  { apply Forall_forall. intros [k0 v0] Hin Heq. subst image_key.
    injection Heq as ->. apply Hpre. unfold odict_keys.
    apply in_map_iff. exists (k, v0). split; [reflexivity|].
    now apply list_elem_of_In. }
  specialize (Hloop Hpre_ne Hfail).
  unfold bind. destruct (for_each _ (pre ++ (k, v) :: post) w) as [[[]|e'] w1];
    simpl in *.
  - discriminate.
  - now injection Hloop as ->.
Qed.

End ImageFailure.

Lemma deque_append_room {A} (n : nat) (d : list A) (x : A) :
  (length d + 1 <= n)%nat -> deque_append n d x = d ++ [x].
Proof.
  intros Hn. unfold deque_append. rewrite length_app. simpl.
  now replace (length d + 1 - n)%nat with 0%nat by lia.
Qed.

(** With an image key, [step] on a buffer that the new frame does not fill
    (as before the first [reset], for a depth of 2 or more) fails the
    assertion on the buffer length. By then the wrapped environment has been
    stepped and the new frame has entered the buffer. *)
Theorem fs_step_before_buffer_full `{Float32Cast} `{Environment E} (k : string)
  (act : Action) (self : FrameStackWrapper E) (w : World) (ts : TimeStep)
  (env1 : E) (w1 : World) (o : list (string * nat)) (raw : ndarray)
  (Hh Ww C : nat) :
  _image_key self = Some k ->
  env_step act (fs_env self) w = (Ok ts, env1, w1) ->
  dicts w1 !! ts_observation ts = Some o ->
  well_formed_obs w1 o ->
  obs_array w1 (ts_observation ts) k = Some raw ->
  image_shaped raw Hh Ww C ->
  (Z.of_nat (length (_frames self)) + 1 < _num_frames self)%Z ->
  exists w3,
    fs_step act self w
    = (Raise AssertionError,
       fs_with self env1 (_frames self ++ [Some (length (arrays w1))]),
       w3).
Proof.
  intros Hik Hstep Ho Hwf Hraw Hshape Hshort.
  destruct (channel_first_spec raw Hh Ww C Hshape) as [frame [Hcf _]].
  destruct (obs_array_key w1 _ k raw o Ho Hraw) as [v Hv].
  set (w2 := mk_World (arrays w1 ++ [mk_cell false frame]) (dicts w1)).
  set (frames' := _frames self ++ [Some (length (arrays w1))]).
  assert (Hfail : (fs_transform_observation (Some k) (_num_frames self) frames'
                     ts w2).1 = Raise AssertionError).
  { apply (fs_transform_image_fails (Some k) (_num_frames self) frames' ts w2 o
             k v AssertionError eq_refl Ho (well_formed_obs_extend w1 _ _ o Hwf)
             Hv).
    intros more dc. unfold fs_transform_item.
    rewrite decide_True by reflexivity.
    replace (Z.of_nat (length frames') =? _num_frames self)%Z with false;
      [reflexivity|].
    symmetry. apply Z.eqb_neq. unfold frames'. rewrite length_app. simpl. lia. }
  unfold fs_step. rewrite Hstep, Hik.
  rewrite (extract_image_ok k ts w1 raw frame Hraw Hcf).
  rewrite deque_append_room by lia. fold frames'. fold w2.
  destruct (fs_transform_observation (Some k) (_num_frames self) frames' ts w2)
    as [r w3]. simpl in Hfail. subst r. eauto.
Qed.

Lemma fs_step_before_buffer_full_witness :
  exists w3,
    @fs_step exact_cast StubEnv _ stub_action stub_fs empty_world
    = (Raise AssertionError,
       fs_with stub_fs
         (mk_StubEnv 1 5 (Some 1%float) (Some 0.5%float))
         (_frames stub_fs ++ [Some 2%nat]),
       w3).
Proof.
  apply (@fs_step_before_buffer_full exact_cast StubEnv _ "agentview_image"
           stub_action stub_fs empty_world
           (mk_TimeStep MID (Some 1%float) (Some 0.5%float) 0%nat)
           (mk_StubEnv 1 5 (Some 1%float) (Some 0.5%float))
           (stub_observe 1 empty_world).2 (stub_obs 0) (stub_image 1)
           1%nat 2%nat 3%nat).
  - reflexivity.
  - reflexivity.
  - reflexivity.
  - apply stub_obs_well_formed. simpl. lia.
  - reflexivity.
  - left. reflexivity.
  - simpl. lia.
Defined.

(** What [np.concatenate] accepts has one shape after the first axis, and it
    raises nothing but ValueError. *)
Lemma concatenate_ok_tails (l : list ndarray) :
  forall vis, concatenate l = Ok vis ->
              Forall (fun a => tail (shape a) = tail (shape vis)) l.
Proof.
  induction l as [|a l IH]; intros vis Hcat; [discriminate|].
  cbn [concatenate] in Hcat.
  destruct (shape a) as [|n tl_a] eqn:Ha; [discriminate|].
  destruct l as [|b l].
  - injection Hcat as <-. repeat constructor.
  - destruct (concatenate (b :: l)) as [v|e] eqn:Hrest; [|discriminate].
    destruct (shape v) as [|m tl_b] eqn:Hv; [discriminate|].
    destruct (decide (tl_a = tl_b)) as [->|]; [|discriminate].
    injection Hcat as <-. cbn [shape tail]. constructor.
    + now rewrite Ha.
    + specialize (IH v eq_refl). rewrite Hv in IH. exact IH.
Qed.

Lemma concatenate_raises_value_error (l : list ndarray) (e : PyError) :
  concatenate l = Raise e -> e = ValueError.
Proof.
  revert e. induction l as [|a l IH]; intros e Hcat; cbn [concatenate] in Hcat.
  - now injection Hcat.
  - destruct (shape a) as [|n tl_a]; [now injection Hcat|].
    destruct l as [|b l]; [discriminate|].
    destruct (concatenate (b :: l)) as [v|e'] eqn:Hrest.
    + destruct (shape v) as [|m tl_b]; [now injection Hcat|].
      destruct (decide (tl_a = tl_b)); [discriminate | now injection Hcat].
    + injection Hcat as <-. now apply IH.
Qed.

(** A frame whose spatial shape differs from that of the buffered frames
    makes [step] raise ValueError (for a depth of 2 or more), and the frame
    has entered the buffer all the same. *)
Theorem fs_step_shape_mismatch `{Float32Cast} `{Environment E} (k : string)
  (act : Action) (self : FrameStackWrapper E) (w : World) (ts : TimeStep)
  (env1 : E) (w1 : World) (o : list (string * nat)) (raw : ndarray)
  (Hh Ww C : nat) (buf : list ndarray) (tl : list nat) :
  _image_key self = Some k ->
  env_step act (fs_env self) w = (Ok ts, env1, w1) ->
  dicts w1 !! ts_observation ts = Some o ->
  well_formed_obs w1 o ->
  obs_array w1 (ts_observation ts) k = Some raw ->
  image_shaped raw Hh Ww C ->
  Forall2 (holds_private w1) (_frames self) buf ->
  Z.of_nat (length buf) = _num_frames self ->
  (2 <= _num_frames self)%Z ->
  stackable tl buf ->
  [Hh; Ww] <> tl ->
  exists w3,
    fs_step act self w
    = (Raise ValueError,
       fs_with self env1
         (deque_append (Z.to_nat (_num_frames self)) (_frames self)
            (Some (length (arrays w1)))),
       w3).
Proof.
  intros Hik Hstep Ho Hwf Hraw Hshape Hbuf Hlen HN Hst Hne0.
  destruct (channel_first_spec raw Hh Ww C Hshape) as [frame [Hcf [_ [Hfs _]]]].
  assert (Hne : tail (shape frame) <> tl) by now rewrite Hfs.
  destruct (obs_array_key w1 _ k raw o Ho Hraw) as [v Hv].
  set (n := Z.to_nat (_num_frames self)) in *.
  set (w2 := mk_World (arrays w1 ++ [mk_cell false frame]) (dicts w1)).
  set (frames' := deque_append n (_frames self) (Some (length (arrays w1)))).
  assert (Hbuf' : Forall2 (holds_private w2) frames' (lastn n (buf ++ [frame]))).
  { unfold frames'. rewrite deque_append_lastn. apply holds_private_lastn.
    apply Forall2_app.
    - eapply holds_private_preserved; [|exact Hbuf].
      apply extends_preserves_private.
    - constructor; [|constructor]. exists (length (arrays w1)).
      split; [reflexivity|]. simpl.
      rewrite lookup_app_r by lia. now rewrite Nat.sub_diag. }
  assert (Hcat : concatenate (lastn n (buf ++ [frame])) = Raise ValueError).
  { destruct (concatenate (lastn n (buf ++ [frame]))) as [vis|e] eqn:Hc.
    - exfalso. apply concatenate_ok_tails in Hc.
      unfold lastn in Hc. rewrite length_app in Hc. simpl in Hc.
      replace (length buf + 1 - n)%nat with 1%nat in Hc by lia.
      rewrite drop_app in Hc.
      replace (1 - length buf)%nat with 0%nat in Hc by lia.
      apply Forall_app in Hc as [Hold Hnew].
      inversion Hnew as [|? ? Hf _]; subst.
      destruct (drop 1 buf) as [|a rest] eqn:Hd.
      + apply (f_equal length) in Hd. rewrite length_drop in Hd.
        simpl in Hd. lia.
      + inversion Hold as [|? ? Ha _]; subst.
        assert (Hin : a ∈ buf).
        { apply (subseteq_drop 1 buf). rewrite Hd. now left. }
        unfold stackable in Hst. rewrite Forall_forall in Hst.
        destruct (Hst a Hin) as [c Hc]. rewrite Hc in Ha. simpl in Ha.
        apply Hne. now rewrite Hf, <- Ha.
    - f_equal. now apply concatenate_raises_value_error in Hc. }
  assert (Hfail : (fs_transform_observation (Some k) (_num_frames self) frames'
                     ts w2).1 = Raise ValueError).
  { apply (fs_transform_image_fails (Some k) (_num_frames self) frames' ts w2 o
             k v ValueError eq_refl Ho (well_formed_obs_extend w1 _ _ o Hwf) Hv).
    intros more dc. unfold fs_transform_item.
    rewrite decide_True by reflexivity.
    replace (Z.of_nat (length frames') =? _num_frames self)%Z with true.
    2:{ symmetry. apply Z.eqb_eq.
        rewrite (Forall2_length _ _ _ Hbuf'), lastn_length;
          rewrite ?length_app; simpl; lia. }
    rewrite (bind_ok _ _ _ _ _
               (read_frames_ok _ frames' _
                  (frames_hold_extend w2 frames' _ more dc
                     (holds_private_frames_hold w2 frames' _ Hbuf')))).
    unfold bind, lift. now rewrite Hcat. }
  unfold fs_step. rewrite Hstep, Hik.
  rewrite (extract_image_ok k ts w1 raw frame Hraw Hcf).
  fold n. fold frames'. fold w2.
  destruct (fs_transform_observation (Some k) (_num_frames self) frames' ts w2)
    as [r w3]. simpl in Hfail. subst r. eauto.
Qed.

Lemma fs_step_shape_mismatch_witness :
  exists w3,
    @fs_step exact_cast GrowingEnv _ stub_action growing_run0.1.2 growing_run0.2
    = (Raise ValueError,
       fs_with growing_run0.1.2 (mk_GrowingEnv 1)
         (deque_append (Z.to_nat (_num_frames growing_run0.1.2))
            (_frames growing_run0.1.2) (Some 4%nat)),
       w3).
Proof.
  apply (@fs_step_shape_mismatch exact_cast GrowingEnv _ "agentview_image"
           stub_action growing_run0.1.2 growing_run0.2
           (mk_TimeStep MID (Some 1%float) (Some 1%float) 1%nat) (mk_GrowingEnv 1)
           (growing_observe 1 growing_run0.2).2 [("agentview_image", 3%nat)]
           (growing_image 1) 1%nat 2%nat 1%nat
           [growing_frame 0; growing_frame 0] [1; 1]%nat).
  - reflexivity.
  - reflexivity.
  - reflexivity.
  - split; repeat constructor; simpl; eauto.
  - reflexivity.
  - left. reflexivity.
  - repeat constructor; eexists; split; reflexivity.
  - reflexivity.
  - simpl. lia.
  - repeat constructor; eexists; reflexivity.
  - simpl. discriminate.
Defined.

(** ** FrameStackWrapper: the buffer once it is refreshed, and without reset *)


Section FrameStackSteady.
Context `{Float32Cast} {E : Type} `{LawfulEnvironment E}.


End FrameStackSteady.


(** [step] asks for no [reset], only for a buffer that the new frame fills:
    with at least N - 1 frames buffered it returns the concatenation of the
    last N frames, the new one included. With a depth of 1 it therefore works
    on a new wrapper, and the image entry is the current frame alone. *)
Theorem fs_step_fills_buffer `{Float32Cast} `{Environment E} (k : string)
  (act : Action) (self : FrameStackWrapper E) (w : World) (ts : TimeStep)
  (env1 : E) (w1 : World) (o : list (string * nat)) (raw : ndarray)
  (Hh Ww C : nat) (buf : list ndarray) :
  _image_key self = Some k ->
  env_step act (fs_env self) w = (Ok ts, env1, w1) ->
  dicts w1 !! ts_observation ts = Some o ->
  well_formed_obs w1 o ->
  obs_array w1 (ts_observation ts) k = Some raw ->
  image_shaped raw Hh Ww C ->
  Forall2 (holds_private w1) (_frames self) buf ->
  (1 <= _num_frames self <= Z.of_nat (length buf) + 1)%Z ->
  stackable [Hh; Ww] buf ->
  exists w3 vis frame,
    fs_step act self w
    = (Ok ts,
       fs_with self env1
         (deque_append (Z.to_nat (_num_frames self)) (_frames self)
            (Some (length (arrays w1)))),
       w3)
    /\ channel_first_of raw frame Hh Ww C
    /\ obs_array w3 (ts_observation ts) k = Some vis
    /\ concatenate (lastn (Z.to_nat (_num_frames self)) (buf ++ [frame]))
       = Ok vis
    /\ (_num_frames self = 1%Z -> vis = frame).
Proof.
  intros Hik Hstep Ho Hwf Hraw Hshp Hbuf HN Hst.
  destruct (channel_first_spec raw Hh Ww C Hshp) as [frame [Hcf Hof]].
  pose proof Hof as [_ [Hshape _]].
  set (n := Z.to_nat (_num_frames self)) in *.
  set (w2 := mk_World (arrays w1 ++ [mk_cell false frame]) (dicts w1)).
  set (frames' := deque_append n (_frames self) (Some (length (arrays w1)))).
  assert (Hlen1 : length (lastn n (buf ++ [frame])) = n).
  { apply lastn_length. rewrite length_app. simpl. lia. }
  destruct (concatenate_stackable [Hh; Ww] (lastn n (buf ++ [frame])))
    as [vis [Hcat _]].
  { intros Hnil. rewrite Hnil in Hlen1. simpl in Hlen1. lia. }
  { unfold lastn, stackable in *. apply Forall_drop. apply Forall_app.
    split; [exact Hst|]. repeat constructor. rewrite Hshape. eauto. }
  assert (Hbuf' : Forall2 (holds_private w2) frames' (lastn n (buf ++ [frame]))).
  { unfold frames'. rewrite deque_append_lastn. apply holds_private_lastn.
    apply Forall2_app.
    - eapply holds_private_preserved; [|exact Hbuf].
      apply extends_preserves_private.
    - constructor; [|constructor]. exists (length (arrays w1)).
      split; [reflexivity|]. simpl.
      rewrite lookup_app_r by lia. now rewrite Nat.sub_diag. }
  assert (Hready : stack_ready (_num_frames self) frames' w2 vis).
  { exists (lastn n (buf ++ [frame])). split; [|split].
    - rewrite (Forall2_length _ _ _ Hbuf'), Hlen1. lia.
    - now apply holds_private_frames_hold.
    - exact Hcat. }
  destruct (obs_array_key w1 _ k raw o Ho Hraw) as [v Hv].
  eexists. exists vis, frame. unfold fs_step. rewrite Hstep, Hik.
  rewrite (extract_image_ok k ts w1 raw frame Hraw Hcf).
  fold n. fold frames'. fold w2.
  rewrite (fs_transform_observation_ok (Some k) (_num_frames self) frames' ts w2
             o vis Ho (well_formed_obs_extend w1 _ _ o Hwf) (or_intror Hready)).
  split; [reflexivity|]. split; [exact Hof|]. split; [|split; [exact Hcat|]].
  - rewrite (transformed_obs_array (Some k) vis w2 o _ k v Ho Hv).
    unfold transformed_entry. cbn [fst]. now rewrite decide_True.
  - intros H1. unfold lastn in Hcat. rewrite length_app in Hcat. simpl in Hcat.
    replace (length buf + 1 - n)%nat with (length buf) in Hcat by lia.
    rewrite drop_app_length in Hcat. cbn [concatenate] in Hcat.
    rewrite Hshape in Hcat. now injection Hcat.
Qed.

Lemma fs_step_fills_buffer_witness :
  exists w3 vis frame,
    @fs_step exact_cast StubEnv _ stub_action stub_fs1 empty_world
    = (Ok (mk_TimeStep MID (Some 1%float) (Some 0.5%float) 0%nat),
       fs_with stub_fs1 (mk_StubEnv 1 5 (Some 1%float) (Some 0.5%float))
         (deque_append (Z.to_nat (_num_frames stub_fs1)) (_frames stub_fs1)
            (Some 2%nat)),
       w3)
    /\ channel_first_of (stub_image 1) frame 1 2 3
    /\ obs_array w3 0%nat "agentview_image" = Some vis
    /\ concatenate (lastn (Z.to_nat (_num_frames stub_fs1)) ([] ++ [frame]))
       = Ok vis
    /\ (_num_frames stub_fs1 = 1%Z -> vis = frame).
Proof.
  apply (@fs_step_fills_buffer exact_cast StubEnv _ "agentview_image"
           stub_action stub_fs1 empty_world
           (mk_TimeStep MID (Some 1%float) (Some 0.5%float) 0%nat)
           (mk_StubEnv 1 5 (Some 1%float) (Some 0.5%float))
           (stub_observe 1 empty_world).2 (stub_obs 0) (stub_image 1)
           1%nat 2%nat 3%nat []).
  - reflexivity.
  - reflexivity.
  - reflexivity.
  - apply stub_obs_well_formed. simpl. lia.
  - reflexivity.
  - left. reflexivity.
  - constructor.
  - simpl. lia.
  - constructor.
Defined.

(** ** FrameStackWrapper: failures of the extraction *)

(** [_extract_image] by the rank of the image: it returns a new array for a
    rank of 3 and for a rank of 4 with a non-empty batch axis, raises
    IndexError on an empty batch axis and ValueError for every other rank; a
    failure leaves the store as it was. *)
Theorem extract_image_by_rank (k : string) (ts : TimeStep) (w : World)
  (o : list (string * nat)) (l : nat) (c : cell) :
  dicts w !! ts_observation ts = Some o ->
  odict_get o k = Some l ->
  arrays w !! l = Some c ->
  (_extract_image (Some k) ts w).1
  = match shape (content c) with
    | [_; _; _] => Ok (Some (length (arrays w)))
    | [B; _; _; _] => if (B =? 0)%nat then Raise IndexError
                      else Ok (Some (length (arrays w)))
    | _ => Raise ValueError
    end
  /\ (forall e, (_extract_image (Some k) ts w).1 = Raise e ->
                (_extract_image (Some k) ts w).2 = w).
Proof.
  intros Ho Hget Hl. unfold _extract_image.
  rewrite (bind_ok (dict_getitem (ts_observation ts) k) _ w l w).
  2:{ unfold dict_getitem.
      rewrite (bind_ok (read_dict (ts_observation ts)) _ w o w)
        by (unfold read_dict; now rewrite Ho).
      now rewrite Hget. }
  rewrite (bind_ok (read_array l) _ w (content c) w)
    by (unfold read_array; now rewrite Hl).
  unfold bind at 1, lift, channel_first, getitem0, transpose_2_0_1.
  destruct (shape (content c)) as [|a [|b [|d [|f [|g s]]]]] eqn:Hs;
    try destruct a as [|B]; simpl; rewrite ?Hs; simpl;
    (split; [reflexivity | intros e He; try discriminate He; reflexivity]).
Qed.

Lemma extract_image_by_rank_witness :
  (_extract_image (Some "robot0_proprio-state") stub_first stub_world0).1
  = match shape (content (mk_cell true (stub_vector 0))) with
    | [_; _; _] => Ok (Some (length (arrays stub_world0)))
    | [B; _; _; _] => if (B =? 0)%nat then Raise IndexError
                      else Ok (Some (length (arrays stub_world0)))
    | _ => Raise ValueError
    end
  /\ (forall e,
        (_extract_image (Some "robot0_proprio-state") stub_first stub_world0).1
        = Raise e ->
        (_extract_image (Some "robot0_proprio-state") stub_first stub_world0).2
        = stub_world0).
Proof.
  apply (extract_image_by_rank "robot0_proprio-state" stub_first stub_world0
           (stub_obs 0) 1%nat (mk_cell true (stub_vector 0)));
    reflexivity.
Defined.

(** When the observation of the wrapped [reset] lacks the image key, [reset]
    raises KeyError; the wrapped environment has been reset, but the buffer
    still holds the frames it held before and the store is as the wrapped
    environment left it. *)
Theorem fs_reset_missing_image `{Float32Cast} `{Environment E} (k : string)
  (kw : Kwargs) (self : FrameStackWrapper E) (w : World) (ts : TimeStep)
  (env1 : E) (w1 : World) (o : list (string * nat)) :
  _image_key self = Some k ->
  env_reset kw (fs_env self) w = (Ok ts, env1, w1) ->
  dicts w1 !! ts_observation ts = Some o ->
  odict_get o k = None ->
  fs_reset kw self w = (Raise KeyError, fs_with self env1 (_frames self), w1).
Proof.
  intros Hik Hreset Ho Hget. unfold fs_reset. rewrite Hreset, Hik.
  unfold _extract_image.
  rewrite (bind_raise (dict_getitem (ts_observation ts) k) _ w1 KeyError w1);
    [reflexivity|].
  unfold dict_getitem.
  rewrite (bind_ok (read_dict (ts_observation ts)) _ w1 o w1)
    by (unfold read_dict; now rewrite Ho).
  now rewrite Hget.
Qed.

Lemma fs_reset_missing_image_witness :
  @fs_reset exact_cast VectorEnv _ None
    (mk_FrameStackWrapper (mk_VectorEnv 0) 3 [] ["agentview_image"] []
       (Some "agentview_image"))
    empty_world
  = (Raise KeyError,
     fs_with
       (mk_FrameStackWrapper (mk_VectorEnv 0) 3 [] ["agentview_image"] []
          (Some "agentview_image"))
       (mk_VectorEnv 0) [],
     (vector_observe 0 empty_world).2).
Proof.
  apply (@fs_reset_missing_image exact_cast VectorEnv _ "agentview_image" None
           (mk_FrameStackWrapper (mk_VectorEnv 0) 3 [] ["agentview_image"] []
              (Some "agentview_image"))
           empty_world (mk_TimeStep FIRST None None 0%nat) (mk_VectorEnv 0)
           (vector_observe 0 empty_world).2 [("robot0_proprio-state", 0%nat)]);
    reflexivity.
Defined.

(** ** FrameStackWrapper: construction *)

Lemma ospec_set_fresh (o : list (string * Spec)) (k : string) (v : Spec) :
  ~ In k (map fst o) -> ospec_set o k v = o ++ [(k, v)].
Proof.
  induction o as [|[k' v'] o IH]; intros Hk; simpl; [reflexivity|].
  destruct (String.eqb k k') eqn:Ek.
  - apply String.eqb_eq in Ek. subst k'. exfalso. apply Hk. now left.
  - rewrite IH; [reflexivity|]. intros Hin. apply Hk. now right.
Qed.

Lemma last_cons_default {A} (a d : A) (l : list A) :
  List.last (a :: l) d = List.last l a.
Proof.
  revert a d. induction l as [|b l IH]; intros a d; [reflexivity|].
  change (List.last (a :: b :: l) d) with (List.last (b :: l) d).
  now rewrite (IH b d), (IH b a).
Qed.

(** The loop of the constructor over entries with distinct keys, none of
    rank 2: every entry is published in its place, and the image key is the
    key of the last entry with more than one axis. *)
Lemma fs_build_spec_ok (num_frames : Z) (items : list (string * Spec)) :
  forall (acc : list (string * Spec)) (ik : option string),
    List.NoDup (map fst acc ++ map fst items) ->
    Forall (fun ks => length (spec_shape ks.2) <> 2%nat) items ->
    exists out,
      fs_build_spec num_frames items acc ik
      = Ok (acc ++ out,
            List.last
              (map (fun ks => Some ks.1)
                 (List.filter (fun ks => (1 <? length (spec_shape ks.2))%nat)
                    items)) ik)
      /\ Forall2 (fs_publishes num_frames) items out.
Proof.
  induction items as [|[k spec] items IH]; intros acc ik Hnd Hrank.
  - exists []. rewrite app_nil_r. split; [reflexivity | constructor].
  - inversion Hrank as [|? ? Hr Hrank']; subst. cbn [snd] in Hr.
    assert (Hk : ~ In k (map fst acc)).
    { intros Hin. apply NoDup_remove_2 in Hnd. apply Hnd.
      apply in_or_app. now left. }
    assert (Hnd' : forall v, List.NoDup (map fst (acc ++ [(k, v)]) ++ map fst items)).
    { intros v. rewrite map_app, <- app_assoc. exact Hnd. }
    cbn [fs_build_spec List.filter snd fst].
    destruct (1 <? length (spec_shape spec))%nat eqn:Himg.
    + apply Nat.ltb_lt in Himg.
      destruct (spec_shape spec) as [|a [|b [|c [|d rest]]]] eqn:Hs;
        simpl in Himg, Hr; try lia.
      * (* rank 3 *)
        cbn [length Nat.eqb tl nth_error firstn].
        rewrite ospec_set_fresh by exact Hk.
        destruct (IH (acc ++ [(k, BoundedArray
                                    [Z.to_nat (Z.of_nat c * num_frames); a; b]
                                    uint8 [0%Q] [255%Q] k)])
                    (Some k) (Hnd' _) Hrank') as [out [Hout HF]].
        eexists (_ :: out). rewrite Hout, <- app_assoc. cbn [map app].
        rewrite last_cons_default. split; [reflexivity|].
        constructor; [|exact HF]. split; [reflexivity|].
        cbn [snd fst]. now rewrite Hs.
      * (* rank 4 and above *)
        destruct rest as [|e rest].
        -- cbn [length Nat.eqb tl nth_error firstn].
           rewrite ospec_set_fresh by exact Hk.
           destruct (IH (acc ++ [(k, BoundedArray
                                       [Z.to_nat (Z.of_nat d * num_frames); b; c]
                                       uint8 [0%Q] [255%Q] k)])
                       (Some k) (Hnd' _) Hrank') as [out [Hout HF]].
           eexists (_ :: out). rewrite Hout, <- app_assoc. cbn [map app].
           rewrite last_cons_default. split; [reflexivity|].
           constructor; [|exact HF]. split; [reflexivity|].
           cbn [snd fst]. now rewrite Hs.
        -- replace (length (a :: b :: c :: d :: e :: rest) =? 4)%nat with false
             by (symmetry; apply Nat.eqb_neq; simpl; lia).
           cbn [nth_error firstn].
           rewrite ospec_set_fresh by exact Hk.
           destruct (IH (acc ++ [(k, BoundedArray
                                       [Z.to_nat (Z.of_nat c * num_frames); a; b]
                                       uint8 [0%Q] [255%Q] k)])
                       (Some k) (Hnd' _) Hrank') as [out [Hout HF]].
           eexists (_ :: out). rewrite Hout, <- app_assoc. cbn [map app].
           rewrite last_cons_default. split; [reflexivity|].
           constructor; [|exact HF]. split; [reflexivity|].
           cbn [snd fst]. now rewrite Hs.
    + apply Nat.ltb_ge in Himg.
      rewrite ospec_set_fresh by exact Hk.
      destruct (IH (acc ++ [(k, spec_replace_dtype spec float32)]) ik
                  (Hnd' _) Hrank') as [out [Hout HF]].
      eexists (_ :: out). rewrite Hout, <- app_assoc. cbn [map app].
      split; [reflexivity|].
      constructor; [|exact HF]. split; [reflexivity|]. cbn [snd fst].
      destruct (spec_shape spec) as [|a [|b rest]]; simpl in Himg;
        [reflexivity | reflexivity | lia].
Qed.

(** For a depth that is not negative and a wrapped spec without entries of
    rank 2, the constructor returns a wrapper over the given environment with
    an empty buffer; its spec has the keys of the wrapped spec in their order:
    vectors keep their shape and bounds and become float32, an image of
    height H, width W and C channels becomes the bounded uint8 spec of shape
    [C * N, H, W]; the image key is the key of the last entry with more than
    one axis. *)
Theorem fs_init_publishes `{Environment E} (env : E) (N : Z) :
  (0 <= N)%Z ->
  List.NoDup (map fst (env_observation_spec env)) ->
  Forall (fun ks => length (spec_shape ks.2) <> 2%nat)
    (env_observation_spec env) ->
  exists self,
    fs_init env N = Ok self
    /\ fs_env self = env /\ _num_frames self = N /\ _frames self = []
    /\ _keys self = map fst (env_observation_spec env)
    /\ _image_key self
       = List.last
           (map (fun ks => Some ks.1)
              (List.filter (fun ks => (1 <? length (spec_shape ks.2))%nat)
                 (env_observation_spec env))) None
    /\ Forall2 (fs_publishes N) (env_observation_spec env) (_obs_spec self).
Proof.
  intros HN Hnd Hrank.
  destruct (fs_build_spec_ok N (env_observation_spec env) [] None Hnd Hrank)
    as [out [Hout HF]].
  unfold fs_init. replace (N <? 0)%Z with false by (symmetry; apply Z.ltb_ge; lia).
  rewrite Hout. eexists. split; [reflexivity|]. cbn. auto 10.
Qed.

Lemma fs_init_publishes_witness :
  exists self,
    fs_init
      (mk_SpecEnv [("state", Array [7]%nat float64 "state");
                   ("image", Array [1; 84; 84; 3]%nat uint8 "image")]) 4
    = Ok self
    /\ fs_env self
       = mk_SpecEnv [("state", Array [7]%nat float64 "state");
                     ("image", Array [1; 84; 84; 3]%nat uint8 "image")]
    /\ _num_frames self = 4%Z /\ _frames self = []
    /\ _keys self = ["state"; "image"]
    /\ _image_key self = Some "image"
    /\ Forall2 (fs_publishes 4)
         [("state", Array [7]%nat float64 "state");
          ("image", Array [1; 84; 84; 3]%nat uint8 "image")]
         (_obs_spec self).
Proof.
  refine (fs_init_publishes
            (mk_SpecEnv [("state", Array [7]%nat float64 "state");
                         ("image", Array [1; 84; 84; 3]%nat uint8 "image")]) 4
            _ _ _).
  - lia.
  - repeat constructor; simpl; intuition discriminate.
  - repeat constructor; simpl; discriminate.
Defined.

Lemma fs_build_spec_flat (num_frames : Z) (items : list (string * Spec)) :
  Exists (fun ks => length (spec_shape ks.2) = 2%nat) items ->
  forall (acc : list (string * Spec)) (ik : option string),
    fs_build_spec num_frames items acc ik = Raise IndexError.
Proof.
  intros Hex.
  induction Hex as [[k spec] items Hh | [k spec] items Hex IH]; intros acc ik;
    cbn [fs_build_spec].
  - cbn [snd] in Hh.
    destruct (spec_shape spec) as [|a [|b [|c rest]]]; simpl in Hh; try lia.
    reflexivity.
  - destruct (1 <? length (spec_shape spec))%nat; [|apply IH].
    destruct (nth_error _ 2); [apply IH | reflexivity].
Qed.

(** A wrapped spec with an entry of rank 2 (an image without a channel axis)
    makes the constructor raise IndexError; a negative depth makes it raise
    ValueError before the spec is read. *)
Theorem fs_init_flat_image `{Environment E} (env : E) (N : Z) :
  Exists (fun ks => length (spec_shape ks.2) = 2%nat) (env_observation_spec env) ->
  fs_init env N = Raise (if (N <? 0)%Z then ValueError else IndexError).
Proof.
  intros Hex. unfold fs_init. destruct (N <? 0)%Z; [reflexivity|].
  now rewrite (fs_build_spec_flat N _ Hex).
Qed.

Lemma fs_init_flat_image_witness :
  fs_init
    (mk_SpecEnv [("state", Array [7]%nat float64 "state");
                 ("depth", Array [84; 84]%nat float32 "depth")]) 4
  = Raise (if (4 <? 0)%Z then ValueError else IndexError).
Proof.
  apply (fs_init_flat_image
           (mk_SpecEnv [("state", Array [7]%nat float64 "state");
                        ("depth", Array [84; 84]%nat float32 "depth")]) 4).
  apply List.Exists_cons_tl. apply List.Exists_cons_hd. reflexivity.
Defined.

(** ** The environment [make] builds *)

Lemma fs_step_returns_inner `{Float32Cast} `{Environment E} (act : Action)
  (self self' : FrameStackWrapper E) (w w' : World) (ts : TimeStep) :
  fs_step act self w = (Ok ts, self', w') ->
  exists w1, env_step act (fs_env self) w = (Ok ts, fs_env self', w1).
Proof.
  unfold fs_step. intros Hfs.
  destruct (env_step act (fs_env self) w) as [[[ts1|e] env1] w1]; [|discriminate].
  destruct (_extract_image (_image_key self) ts1 w1) as [[image|e] w2];
    [|discriminate].
  pose proof (fs_transform_returns_step (_image_key self) (_num_frames self)
                (deque_append (Z.to_nat (_num_frames self)) (_frames self) image)
                ts1 w2) as Hts.
  destruct (fs_transform_observation _ _ _ ts1 w2) as [[ts'|e] w3];
    [|discriminate].
  simpl in Hts. subst ts'. injection Hfs as <- <- <-. eauto.
Qed.


(** Through the chain of [make], [step] returns the simulator's step: the
    phase is LAST when the simulator reports done and MID otherwise, the
    reward is the simulator's (a zero as 0.0), the discount is 1.0 and the
    action is the one passed; the simulator has been stepped once, with that
    action. *)
Theorem made_env_step `{Float32Cast} `{Simulator Sim} (act : Action)
  (self self' : ExtendedTimeStepWrapper (FrameStackWrapper (DMEWrapper Sim)))
  (w w' : World) (t : ExtendedTimeStep) :
  ets_step act self w = (Ok t, self', w') ->
  exists raw rew done w1,
    sim_step act (dme_env (fs_env (ets_env self))) w
    = (Ok (raw, rew, done), dme_env (fs_env (ets_env self')), w1)
    /\ step_type t = (if done then LAST else MID)
    /\ reward t = (if (rew =? 0)%float then 0%float else rew)
    /\ discount t = 1%float
    /\ action t = act.
Proof.
  unfold ets_step. intros Hets.
  destruct (env_step act (ets_env self) w) as [[[ts|e] fs'] w2] eqn:Hfs;
    [|discriminate].
  injection Hets as <- <- <-. cbn [ets_env].
  destruct (fs_step_returns_inner act (ets_env self) fs' w w2 ts Hfs)
    as [w1 Hdme].
  cbn [env_step DMEWrapper_Environment] in Hdme. unfold dme_step in Hdme.
  destruct (sim_step act (dme_env (fs_env (ets_env self))) w)
    as [[[[[raw rew] done]|e] sim1] w0] eqn:Hsim; [|discriminate].
  destruct (_extract_obs (keys (fs_env (ets_env self))) raw w0) as [[ob|e] w0'];
    [|discriminate].
  injection Hdme as <- Henv <-.
  exists raw, rew, done, w0. rewrite <- Henv. cbn [dme_env].
  split; [reflexivity|]. split; [reflexivity|].
  split; [apply py_or_present|]. split; reflexivity.
Qed.

Example make_stub_depth_1 :
  @make exact_cast StubSim _ (mk_StubSim 0 5) true false false 1 = Ok stub_made.
Proof. reflexivity. Qed.

Lemma made_env_step_witness :
  exists raw rew done w1,
    sim_step stub_action (mk_StubSim 0 5) empty_world
    = (Ok (raw, rew, done), mk_StubSim 1 5, w1)
    /\ MID = (if done then LAST else MID)
    /\ 1%float = (if (rew =? 0)%float then 0%float else rew)
    /\ 1%float = 1%float
    /\ stub_action = stub_action.
Proof.
  refine (@made_env_step exact_cast StubSim _ stub_action stub_made
            (@ets_step _ (@FrameStackWrapper_Environment exact_cast _ _)
               stub_action stub_made empty_world).1.2
            empty_world
            (@ets_step _ (@FrameStackWrapper_Environment exact_cast _ _)
               stub_action stub_made empty_world).2
            (mk_ExtendedTimeStep MID 1 1 1%nat stub_action) _).
  vm_compute. reflexivity.
Defined.

(** [make] fails the constructor's assertion when the simulator does not
    declare one of the keys the configuration asks for:
    [robot0_proprio-state] always, [agentview_image], [object-state] and
    [robot0_touch-state] with their flags. *)
Theorem make_undeclared_key `{Float32Cast} `{Simulator Sim} (env : Sim)
  (use_camera_obs use_object_obs use_touch_obs : bool) (frame_stack : Z)
  (k : string) :
  In k (["robot0_proprio-state"]
        ++ (if use_camera_obs then ["agentview_image"] else [])
        ++ (if use_object_obs then ["object-state"] else [])
        ++ (if use_touch_obs then ["robot0_touch-state"] else [])) ->
  assoc_get (sim_observation_spec env) k = None ->
  make env use_camera_obs use_object_obs use_touch_obs frame_stack
  = Raise AssertionError.
Proof.
  intros Hin Hk. unfold make, dme_init.
  rewrite dme_build_spec_undeclared; [reflexivity|].
  apply Exists_exists. exists k. split; [|exact Hk]. now apply list_elem_of_In.
Qed.

Lemma make_undeclared_key_witness :
  @make exact_cast StubSim _ (mk_StubSim 0 5) true false true 3
  = Raise AssertionError.
Proof.
  apply (@make_undeclared_key exact_cast StubSim _ (mk_StubSim 0 5)
           true false true 3 "robot0_touch-state").
  - simpl. auto.
  - reflexivity.
Defined.



(** ** ObsDTypeWrapper: the spec and the observations *)

Lemma od_init_loop (items : list (string * Spec)) :
  forall acc : list (string * Spec),
    List.NoDup (map fst acc ++ map fst items) ->
    fold_left (fun acc '(k, v) => ospec_set acc k (Array (spec_shape v) float32 k))
      items acc
    = acc ++ map (fun ks => (ks.1, Array (spec_shape ks.2) float32 ks.1)) items.
Proof.
  induction items as [|[k v] items IH]; intros acc Hnd; cbn [fold_left map].
  - now rewrite app_nil_r.
  - rewrite ospec_set_fresh.
    + rewrite IH; [now rewrite <- app_assoc|].
      rewrite map_app, <- app_assoc. exact Hnd.
    + intros Hin. apply NoDup_remove_2 in Hnd. apply Hnd.
      apply in_or_app. now left.
Qed.

Section ObsDType.
Context `{Float32Cast}.

(** The rebound entries against the wrapped spec: every new array has the
    declared shape and is float32. *)
Lemma relocate_conforms (w1 : World) (vis : ndarray)
  (o : list (string * nat)) (spec : list (string * Spec)) :
  Forall2 (fun (kv : string * nat) (ks : string * Spec) =>
             kv.1 = ks.1
             /\ exists a, content <$> arrays w1 !! kv.2 = Some a
                          /\ shape a = spec_shape ks.2) o spec ->
  forall pre : list cell,
    Forall2 (fun (kv : string * nat) (ks : string * Spec) =>
               kv.1 = ks.1
               /\ exists a,
                    content
                      <$> (pre ++ map (fun kv => mk_cell true
                                                   (transformed_entry None vis w1 kv))
                                   o) !! kv.2 = Some a
                    /\ shape a = spec_shape ks.2
                    /\ dtype a = float32)
      (relocate (length pre) o) spec.
Proof.
  induction 1 as [|[k v] ks o spec [Hk [a [Ha Hs]]] HF IH]; intros pre;
    cbn [relocate map]; constructor.
  - split; [exact Hk|]. cbn [snd].
    rewrite lookup_app_r by lia. rewrite Nat.sub_diag. cbn.
    eexists. split; [reflexivity|].
    unfold transformed_entry. cbn [fst snd].
    rewrite decide_False by discriminate. cbn [snd] in Ha.
    destruct (arrays w1 !! v) as [c|]; [|discriminate].
    injection Ha as <-. split; [exact Hs | reflexivity].
  - specialize (IH (pre ++ [mk_cell true (transformed_entry None vis w1 (k, v))])).
    rewrite length_app, Nat.add_1_r, <- app_assoc in IH. exact IH.
Qed.

(** The observations [step] returns conform to the spec the constructor
    published, in keys, shapes and dtype (float32 throughout), whenever the
    wrapped observation has the keys and the shapes of the wrapped spec,
    whatever its dtypes. *)
Theorem od_step_conforms `{Environment E} (env0 : E) (act : Action)
  (self : ObsDTypeWrapper E) (w : World) (ts : TimeStep) (env1 : E)
  (w1 : World) :
  od_obs_spec self = od_obs_spec (od_init env0) ->
  List.NoDup (map fst (env_observation_spec env0)) ->
  env_step act (od_env self) w = (Ok ts, env1, w1) ->
  conforms_shape w1 (ts_observation ts) (env_observation_spec env0) ->
  exists w2,
    od_step act self w
    = (Ok ts, mk_ObsDTypeWrapper env1 (od_obs_spec self), w2)
    /\ conforms w2 (ts_observation ts) (od_obs_spec self)
    /\ Forall (fun ks => spec_dtype ks.2 = float32) (od_obs_spec self).
Proof.
  intros Hspec Hnd Hstep [o [Ho HF]].
  assert (Hkeys : odict_keys o = map fst (env_observation_spec env0)).
  { unfold odict_keys. clear -HF.
    induction HF as [|kv ks o spec [Hk _] _ IH]; [reflexivity|].
    cbn [map]. now rewrite Hk, IH. }
  assert (Hwf : well_formed_obs w1 o).
  { split; [now rewrite Hkeys|]. clear -HF.
    induction HF as [|kv ks o spec [_ [a [Ha _]]] _ IH]; constructor;
      [|exact IH].
    destruct (arrays w1 !! kv.2) as [c|]; [eauto | discriminate]. }
  assert (Hmap : od_obs_spec self
                 = map (fun ks => (ks.1, Array (spec_shape ks.2) float32 ks.1))
                     (env_observation_spec env0)).
  { rewrite Hspec. unfold od_init. cbn [od_obs_spec].
    now rewrite (od_init_loop _ [] Hnd). }
  unfold od_step. rewrite Hstep, od_transform_as_fs.
  rewrite (fs_transform_observation_ok None 0 [] ts w1 o
             (mk_ndarray float32 [] []) Ho Hwf).
  2:{ left. apply Forall_forall. intros kv _. discriminate. }
  eexists. split; [reflexivity|]. split.
  - exists (relocate (length (arrays w1)) o). cbn [dicts arrays]. split.
    + apply list_lookup_insert_eq. eapply lookup_lt_Some; eauto.
    + rewrite Hmap. apply Forall2_fmap_r.
      eapply Forall2_impl;
        [exact (relocate_conforms w1 (mk_ndarray float32 [] []) o _ HF
                  (arrays w1))|].
      intros kv ks [Hk [a [Ha [Hs Hd]]]]. split; [exact Hk|].
      exists a. auto.
  - rewrite Hmap. apply Forall_forall. intros ks Hin.
    apply list_elem_of_In, in_map_iff in Hin as [ks0 [<- _]]. reflexivity.
Qed.

End ObsDType.

Lemma od_step_conforms_witness :
  exists w2,
    @od_step exact_cast VectorEnv _ stub_action (od_init (mk_VectorEnv 0))
      empty_world
    = (Ok (mk_TimeStep MID (Some 1%float) (Some 1%float) 0%nat),
       mk_ObsDTypeWrapper (mk_VectorEnv 1)
         (od_obs_spec (od_init (mk_VectorEnv 0))),
       w2)
    /\ conforms w2 0%nat (od_obs_spec (od_init (mk_VectorEnv 0)))
    /\ Forall (fun ks => spec_dtype ks.2 = float32)
         (od_obs_spec (od_init (mk_VectorEnv 0))).
Proof.
  refine (@od_step_conforms exact_cast VectorEnv _ (mk_VectorEnv 0) stub_action
            (od_init (mk_VectorEnv 0)) empty_world
            (mk_TimeStep MID (Some 1%float) (Some 1%float) 0%nat)
            (mk_VectorEnv 1) (vector_observe 1 empty_world).2 _ _ _ _).
  - reflexivity.
  - repeat constructor. simpl. intuition.
  - reflexivity.
  - exists [("robot0_proprio-state", 0%nat)]. split; [reflexivity|].
    repeat constructor. eexists. split; reflexivity.
Defined.

(** ** FrameStackWrapper: the published spec and the observations *)






Section FrameStackSpec.
Context `{Float32Cast} {E : Type} `{Environment E}.



End FrameStackSpec.

